(** * Audio Echo Chamber: sample codec, export pipeline and session state

    A shallow embedding of [src/App.tsx]: the WAV and MP3 encoders
    [bufferToWav] and [bufferToMp3], the export handler [handleDownload],
    the history store, the playback handlers and the live parameter
    effects; followed by the properties the specification states about
    them.  The first part holds the definitions, the second the proofs.

    JavaScript numbers are IEEE-754 binary64 values; they are modelled by
    the Standard Library's [spec_float] with [prec = 53], [emax = 1024],
    whose operations compute.  Integers that the code only counts with
    (lengths, offsets, sizes) are [nat] or [Z]; every such quantity stays
    far below 2^53, where the arithmetic of doubles is exact.

    The host (the Web Audio engine, the clock, the [lamejs] encoder, the
    range inputs) is not part of the repository: its answers are inputs of
    the handlers, and the encoder is an interface. *)

From Stdlib Require Import String Ascii.
From Stdlib Require Import ZArith List Bool Lia Sorted.
From Stdlib Require Import Floats.SpecFloat.
Import ListNotations.

(** ** JavaScript numbers and the conversions the codec relies on *)

Module JS.

Definition number := spec_float.

Definition prec : Z := 53.
Definition emax : Z := 1024.

Definition NaN : number := S754_nan.
Definition Infinity : number := S754_infinity false.

(** The double nearest to the integer [z] (exact for |z| < 2^53). *)
Definition of_Z (z : Z) : number := binary_normalize prec emax z 0 false.

(** The double nearest to [m * 2^e]. *)
Definition of_dyadic (m e : Z) : number := binary_normalize prec emax m e false.

Definition mul (x y : number) : number := SFmul prec emax x y.
Definition div (x y : number) : number := SFdiv prec emax x y.
Definition ltb (x y : number) : bool := SFltb x y.
Definition leb (x y : number) : bool := SFleb x y.

Definition is_nan (x : number) : bool :=
  match x with S754_nan => true | _ => false end.
Definition is_neg_zero (x : number) : bool :=
  match x with S754_zero true => true | _ => false end.
Definition is_pos_zero (x : number) : bool :=
  match x with S754_zero false => true | _ => false end.

(** [Math.min(a, b)] (ECMA-262 21.3.2.25): NaN if an argument is NaN;
    otherwise the running lowest value starts at +Infinity and an
    argument replaces it when it is smaller, or is -0 against +0. *)
Definition Math_min (a b : number) : number :=
  if is_nan a || is_nan b then NaN
  else
    let step lowest n :=
      if ltb n lowest || (is_neg_zero n && is_pos_zero lowest) then n else lowest in
    step (step Infinity a) b.

(** [Math.max(a, b)] (ECMA-262 21.3.2.24), the mirror image. *)
Definition Math_max (a b : number) : number :=
  if is_nan a || is_nan b then NaN
  else
    let step highest n :=
      if ltb highest n || (is_pos_zero n && is_neg_zero highest) then n else highest in
    step (step (SFopp Infinity) a) b.

(** [truncate(x)]: the integral part of a finite number, towards zero. *)
Definition truncate (x : number) : Z :=
  match x with
  | S754_finite s m e =>
      let a := Z.shiftl (Zpos m) e in if s then (- a)%Z else a
  | _ => 0%Z
  end.

(** [ToInt16] (ECMA-262 7.1.8): non-finite and zero give 0; otherwise
    truncate, reduce modulo 2^16 and read as two's complement. *)
Definition ToInt16 (x : number) : Z :=
  let int16bit := (truncate x mod 65536)%Z in
  if (32768 <=? int16bit)%Z then (int16bit - 65536)%Z else int16bit.

(** [ToUint16], [ToUint32] on numbers and on exact integers. *)
Definition ToUint16 (x : number) : Z := (truncate x mod 65536)%Z.
Definition ToUint16Z (z : Z) : Z := (z mod 65536)%Z.
Definition ToUint32Z (z : Z) : Z := (z mod 4294967296)%Z.

End JS.

Declare Scope js_scope.
Delimit Scope js_scope with js.
Notation "x * y" := (JS.mul x y) : js_scope.
Notation "x <? y" := (JS.ltb x y) : js_scope.
Notation "- x" := (SFopp x) : js_scope.

(** ** Sample conversion (shared by both encoders) *)

Module Sample.
Import JS.

(** Literals of the source. *)
Definition c0 : number := S754_zero false.
Definition c1 : number := Eval vm_compute in of_Z 1.
Definition c32768 : number := Eval vm_compute in of_Z 32768.
Definition c32767 : number := Eval vm_compute in of_Z 32767.
Definition c0x8000 : number := Eval vm_compute in of_Z 0x8000.
Definition c0x7FFF : number := Eval vm_compute in of_Z 0x7FFF.

(** [bufferToWav], lines 74-75: the value handed to [view.setInt16]. *)
Definition wav_intSample (sample : number) : number :=
  let sample := Math_max (- c1)%js (Math_min c1 sample) in
  if (sample <? c0)%js then (sample * c32768)%js else (sample * c32767)%js.

(** What [view.setInt16(offset, intSample, true)] stores, as a signed
    16-bit integer. *)
Definition wav_sample16 (sample : number) : Z := ToInt16 (wav_intSample sample).

(** [convertTo16Bit], lines 99-100: one element of the [Int16Array];
    the typed-array store applies [ToInt16]. *)
Definition mp3_sample16 (x : number) : Z :=
  let s := Math_max (- c1)%js (Math_min c1 x) in
  ToInt16 (if (s <? c0)%js then (s * c0x8000)%js else (s * c0x7FFF)%js).

Definition convertTo16Bit (float32Array : list number) : list Z :=
  map mp3_sample16 float32Array.

(** The rule in the specification's words: clamp to [-1, 1], then scale
    negative values by 32768 and the others by 32767. *)
Definition clamp_spec (x : number) : number :=
  if (x <? - c1)%js then (- c1)%js else if (c1 <? x)%js then c1 else x.

Definition scale_spec (c : number) : number :=
  if (c <? c0)%js then (c * c32768)%js else (c * c32767)%js.

Definition sample16_spec (x : number) : Z := ToInt16 (scale_spec (clamp_spec x)).

End Sample.

(** ** Exceptions and the state-and-error monad of the imperative code *)

(** The exceptions the modelled calls can raise.  [FuelExhausted] is not a
    JavaScript exception: it marks a loop model that ran out of fuel, and
    the theorems show that it never occurs. *)
Inductive exn : Type :=
| RangeError
| IndexSizeError
| EncoderError
| RenderError
| HostError
| FuelExhausted.

Inductive result (A : Type) : Type :=
| Ok (a : A)
| Throw (e : exn).

Arguments Ok {A} a.
Arguments Throw {A} e.

(** A computation over a mutable object of type [S] that may throw. *)
Definition M (S A : Type) : Type := S -> result (A * S).

Definition ret {S A} (a : A) : M S A := fun s => Ok (a, s).

Definition bind {S A B} (m : M S A) (k : A -> M S B) : M S B :=
  fun s => match m s with
           | Ok (a, s') => k a s'
           | Throw e => Throw e
           end.

Declare Scope monad_scope.
Delimit Scope monad_scope with monad.
Notation "x <- m ;; k" := (bind m (fun x => k))
  (at level 61, m at next level, right associativity) : monad_scope.
Notation "m ;; k" := (bind m (fun _ => k))
  (at level 61, right associativity) : monad_scope.

(** [for (x of xs) { acc = body(x, acc) }] with a loop-carried local. *)
Fixpoint foldM {S A B} (body : A -> B -> M S B) (xs : list A) (acc : B) : M S B :=
  match xs with
  | [] => ret acc
  | x :: xs' => bind (body x acc) (fun acc' => foldM body xs' acc')
  end.

(** ** DataView over a zero-filled ArrayBuffer *)

Module DataView.

(** The bytes of the underlying buffer, each in [0, 255]. *)
Definition t := list Z.

Definition ArrayBuffer (byteLength : nat) : t := repeat 0%Z byteLength.

(** The [width] low-order bytes of [v], least significant first. *)
Fixpoint le_bytes (width : nat) (v : Z) : list Z :=
  match width with
  | O => []
  | S w => (v mod 256)%Z :: le_bytes w (v / 256)%Z
  end.

Definition bytes_of (width : nat) (v : Z) (littleEndian : bool) : list Z :=
  if littleEndian then le_bytes width v else rev (le_bytes width v).

(** Every setter checks [offset + width <= byteLength] and throws a
    RangeError otherwise; in range it overwrites [width] bytes. *)
Definition setBytes (byteOffset : nat) (bs : list Z) : M t unit :=
  fun view =>
    if (byteOffset + length bs <=? length view)%nat
    then Ok (tt, firstn byteOffset view ++ bs ++ skipn (byteOffset + length bs) view)
    else Throw RangeError.

Definition setUint8 (byteOffset : nat) (value : Z) : M t unit :=
  setBytes byteOffset (le_bytes 1 value).

Definition setUint16 (byteOffset : nat) (value : Z) (littleEndian : bool) : M t unit :=
  setBytes byteOffset (bytes_of 2 (JS.ToUint16Z value) littleEndian).

Definition setUint32 (byteOffset : nat) (value : Z) (littleEndian : bool) : M t unit :=
  setBytes byteOffset (bytes_of 4 (JS.ToUint32Z value) littleEndian).

(** [setInt16] takes a number: it stores [ToInt16(value)] in two's
    complement, whose bit pattern is [ToUint16(value)]. *)
Definition setInt16 (byteOffset : nat) (value : JS.number) (littleEndian : bool) : M t unit :=
  setBytes byteOffset (bytes_of 2 (JS.ToUint16 value) littleEndian).

(** Readers, used to state what a finished buffer contains. *)
Definition getUint8 (view : t) (byteOffset : nat) : Z := nth byteOffset view 0%Z.

Definition getUint16 (view : t) (byteOffset : nat) (littleEndian : bool) : Z :=
  let b0 := getUint8 view byteOffset in
  let b1 := getUint8 view (byteOffset + 1) in
  if littleEndian then (b0 + 256 * b1)%Z else (b1 + 256 * b0)%Z.

Definition getUint32 (view : t) (byteOffset : nat) (littleEndian : bool) : Z :=
  let b0 := getUint8 view byteOffset in
  let b1 := getUint8 view (byteOffset + 1) in
  let b2 := getUint8 view (byteOffset + 2) in
  let b3 := getUint8 view (byteOffset + 3) in
  if littleEndian
  then (b0 + 256 * (b1 + 256 * (b2 + 256 * b3)))%Z
  else (b3 + 256 * (b2 + 256 * (b1 + 256 * b0)))%Z.

Definition getInt16 (view : t) (byteOffset : nat) (littleEndian : bool) : Z :=
  let u := getUint16 view byteOffset littleEndian in
  if (32768 <=? u)%Z then (u - 65536)%Z else u.

(** The [len] characters stored from [byteOffset] on. *)
Definition getString (view : t) (byteOffset len : nat) : list Z :=
  firstn len (skipn byteOffset view).

End DataView.

(** ** Audio buffers and blobs *)

(** A host [AudioBuffer]: [numberOfChannels] channel arrays of [length]
    float samples each.  The host keeps the channel count and the channel
    arrays consistent, so the count is the number of arrays.  The sample
    rate is the rate of the audio context (an integral number of Hz). *)
Record AudioBuffer : Type := {
  sampleRate : Z;
  buf_length : nat;
  channelData : list (list JS.number)
}.

Definition numberOfChannels (buffer : AudioBuffer) : nat :=
  length (channelData buffer).

(** [buffer.getChannelData(i)] throws IndexSizeError for a channel that
    does not exist. *)
Definition getChannelData {S} (buffer : AudioBuffer) (i : nat) : M S (list JS.number) :=
  match nth_error (channelData buffer) i with
  | Some ch => ret ch
  | None => fun _ => Throw IndexSizeError
  end.

(** Reading a typed array outside its length is [undefined], which the
    numeric operations turn into NaN. *)
Definition sample_at (channels : list (list JS.number)) (j i : nat) : JS.number :=
  nth i (nth j channels []) JS.NaN.

(** A [Blob]: its bytes and its MIME type. *)
Record Blob : Type := {
  blob_bytes : list Z;
  blob_type : string
}.

(** ** WAV encoder *)

Module Wav.
Import DataView.
Local Open Scope monad_scope.

Definition charCodeAt (c : ascii) : Z := Z.of_nat (nat_of_ascii c).

(** [writeString]: one [setUint8] per character, at [offset + i]. *)
Fixpoint writeString_from (i : nat) (offset : nat) (s : string) : M DataView.t unit :=
  match s with
  | EmptyString => ret tt
  | String c s' =>
      setUint8 (offset + i) (charCodeAt c) ;;
      writeString_from (S i) offset s'
  end.

Definition writeString (offset : nat) (s : string) : M DataView.t unit :=
  writeString_from 0 offset s.

(** The body of the inner loop, lines 72-78. *)
Definition write_sample (channels : list (list JS.number)) (i j : nat) (offset : nat)
  : M DataView.t nat :=
  let sample := sample_at channels j i in
  let intSample := Sample.wav_intSample sample in
  setInt16 offset intSample true ;;
  ret (offset + 2)%nat.

(** [bufferToWav], lines 29-83. *)
Definition bufferToWav (buffer : AudioBuffer) : result Blob :=
  let numChannels := numberOfChannels buffer in
  let sampleRate := sampleRate buffer in
  let numSamples := buf_length buffer in
  let bitsPerSample := 16%nat in
  let bytesPerSample := (bitsPerSample / 8)%nat in
  let dataSize := (numSamples * numChannels * bytesPerSample)%nat in
  let headerSize := 44%nat in
  let fileSize := (headerSize + dataSize)%nat in
  let wavBuffer := ArrayBuffer fileSize in
  let program : M DataView.t unit :=
    let offset := 0%nat in
    (* RIFF chunk descriptor *)
    writeString offset "RIFF" ;; let offset := (offset + 4)%nat in
    setUint32 offset (Z.of_nat fileSize - 8) true ;; let offset := (offset + 4)%nat in
    writeString offset "WAVE" ;; let offset := (offset + 4)%nat in
    (* "fmt " sub-chunk *)
    writeString offset "fmt " ;; let offset := (offset + 4)%nat in
    setUint32 offset 16 true ;; let offset := (offset + 4)%nat in
    setUint16 offset 1 true ;; let offset := (offset + 2)%nat in
    setUint16 offset (Z.of_nat numChannels) true ;; let offset := (offset + 2)%nat in
    setUint32 offset sampleRate true ;; let offset := (offset + 4)%nat in
    setUint32 offset (sampleRate * Z.of_nat numChannels * Z.of_nat bytesPerSample) true ;;
    let offset := (offset + 4)%nat in
    setUint16 offset (Z.of_nat (numChannels * bytesPerSample)) true ;;
    let offset := (offset + 2)%nat in
    setUint16 offset (Z.of_nat bitsPerSample) true ;; let offset := (offset + 2)%nat in
    (* "data" sub-chunk *)
    writeString offset "data" ;; let offset := (offset + 4)%nat in
    setUint32 offset (Z.of_nat dataSize) true ;; let offset := (offset + 4)%nat in
    (* the PCM data *)
    channels <- foldM (fun i acc => ch <- getChannelData buffer i ;; ret (acc ++ [ch]))
                      (seq 0 numChannels) [] ;;
    _ <- foldM (fun i offset =>
                  foldM (fun j offset => write_sample channels i j offset)
                        (seq 0 numChannels) offset)
               (seq 0 numSamples) offset ;;
    ret tt
  in
  match program wavBuffer with
  | Ok (_, view) => Ok {| blob_bytes := view; blob_type := "audio/wav" |}
  | Throw e => Throw e
  end.

(** The layout in the specification's words: the 44 header bytes, then
    the frames in order, each frame holding its channels in order, each
    sample as two little-endian bytes. *)
Definition header_spec (C : nat) (R : Z) (N : nat) : list Z :=
  map charCodeAt (list_ascii_of_string "RIFF")
  ++ le_bytes 4 (JS.ToUint32Z (Z.of_nat (44 + N * C * 2) - 8))
  ++ map charCodeAt (list_ascii_of_string "WAVE")
  ++ map charCodeAt (list_ascii_of_string "fmt ")
  ++ le_bytes 4 (JS.ToUint32Z 16)
  ++ le_bytes 2 (JS.ToUint16Z 1)
  ++ le_bytes 2 (JS.ToUint16Z (Z.of_nat C))
  ++ le_bytes 4 (JS.ToUint32Z R)
  ++ le_bytes 4 (JS.ToUint32Z (R * Z.of_nat C * 2))
  ++ le_bytes 2 (JS.ToUint16Z (Z.of_nat (C * 2)))
  ++ le_bytes 2 (JS.ToUint16Z 16)
  ++ map charCodeAt (list_ascii_of_string "data")
  ++ le_bytes 4 (JS.ToUint32Z (Z.of_nat (N * C * 2))).

Definition frame_spec (channels : list (list JS.number)) (C : nat) (i : nat) : list Z :=
  flat_map (fun j => le_bytes 2 (JS.ToUint16 (Sample.wav_intSample (sample_at channels j i))))
           (seq 0 C).

Definition data_spec (channels : list (list JS.number)) (C N : nat) : list Z :=
  flat_map (frame_spec channels C) (seq 0 N).

(** The values the header carries fit its 16- and 32-bit fields. *)
Definition fits_header (C : nat) (R : Z) (N : nat) : Prop :=
  (Z.of_nat C * 2 < 65536)%Z /\
  (0 <= R < 4294967296)%Z /\
  (R * Z.of_nat C * 2 < 4294967296)%Z /\
  (36 + Z.of_nat N * Z.of_nat C * 2 < 4294967296)%Z.

End Wav.

(** ** MP3 encoder *)

(** The interface of the [lamejs] encoder object, which the source takes
    from the page ([declare const lamejs: any]): a constructor that may
    reject its parameters, and two methods that mutate the encoder and
    return the bytes produced. *)
Class Lame (E : Type) : Type := {
  Mp3Encoder : nat -> Z -> Z -> result E;
  encodeBuffer : list Z -> list Z -> M E (list Z);
  flush : M E (list Z)
}.

(** A recording stand-in for the encoder: it produces no bytes and logs
    the calls it receives, in order. *)
Inductive call : Type :=
| CallEncode (left right : list Z)
| CallFlush.

#[export] Instance Recorder : Lame (list call) := {
  Mp3Encoder := fun _ _ _ => Ok [];
  encodeBuffer := fun l r log => Ok ([], log ++ [CallEncode l r]);
  flush := fun log => Ok ([], log ++ [CallFlush])
}.

(** An encoder that emits its left input unchanged, one byte list per
    call, and a fixed trailer on flush; used for concrete runs. *)
#[export] Instance Echo : Lame unit := {
  Mp3Encoder := fun _ _ _ => Ok tt;
  encodeBuffer := fun l _ e => Ok (l, e);
  flush := fun e => Ok ([255%Z], e)
}.

Module Mp3.
Local Open Scope monad_scope.

(** [a.subarray(begin, end)] for [begin <= end]: both ends are clamped
    to the array. *)
Definition subarray (a : list Z) (begin end_ : nat) : list Z :=
  firstn (end_ - begin) (skipn begin a).

(** [new Int8Array(mp3buf)]: a copy of the encoder's byte array. *)
Definition Int8Array (mp3buf : list Z) : list Z := mp3buf.

(** [if (mp3buf.length > 0) mp3Data.push(new Int8Array(mp3buf))]. *)
Definition push_nonempty (mp3Data : list (list Z)) (mp3buf : list Z) : list (list Z) :=
  if (0 <? length mp3buf)%nat then mp3Data ++ [Int8Array mp3buf] else mp3Data.

(** The loop of lines 109-116,
    [for (let i = 0; i < samplesLeft.length; i += bufferSize)];
    [fuel] bounds the number of iterations of the model. *)
Fixpoint encode_loop {E} `{Lame E} (fuel : nat) (bufferSize : nat)
    (samplesLeft samplesRight : list Z) (i : nat) (mp3Data : list (list Z))
  : M E (list (list Z)) :=
  if (i <? length samplesLeft)%nat then
    match fuel with
    | O => fun _ => Throw FuelExhausted
    | S fuel' =>
        let leftChunk := subarray samplesLeft i (i + bufferSize) in
        let rightChunk := subarray samplesRight i (i + bufferSize) in
        mp3buf <- encodeBuffer leftChunk rightChunk ;;
        let mp3Data := push_nonempty mp3Data mp3buf in
        encode_loop fuel' bufferSize samplesLeft samplesRight (i + bufferSize) mp3Data
    end
  else ret mp3Data.

(** [bufferToMp3], lines 86-124, returning the blob together with the
    encoder object as the call leaves it. *)
Definition bufferToMp3_run {E} `{Lame E} (buffer : AudioBuffer) : result (Blob * E) :=
  let numChannels := numberOfChannels buffer in
  let sampleRate := sampleRate buffer in
  let kbps := 128%Z in
  match Mp3Encoder numChannels sampleRate kbps with
  | Throw e => Throw e
  | Ok encoder =>
      let program : M E (list (list Z)) :=
        let mp3Data := [] in
        pcmLeft <- getChannelData buffer 0 ;;
        pcmRight <- (if (1 <? numChannels)%nat then getChannelData buffer 1 else ret pcmLeft) ;;
        let samplesLeft := Sample.convertTo16Bit pcmLeft in
        let samplesRight := Sample.convertTo16Bit pcmRight in
        let bufferSize := 1152%nat in
        mp3Data <- encode_loop (length samplesLeft) bufferSize samplesLeft samplesRight 0 mp3Data ;;
        mp3buf <- flush ;;
        let mp3Data := push_nonempty mp3Data mp3buf in
        ret mp3Data
      in
      match program encoder with
      | Ok (mp3Data, encoder') =>
          Ok ({| blob_bytes := concat mp3Data; blob_type := "audio/mpeg" |}, encoder')
      | Throw e => Throw e
      end
  end.

Definition bufferToMp3 {E} `{Lame E} (buffer : AudioBuffer) : result Blob :=
  match bufferToMp3_run buffer with
  | Ok (blob, _) => Ok blob
  | Throw e => Throw e
  end.

(** The feeding discipline in the specification's words. *)

(** The [k]-th block of [size] consecutive elements. *)
Definition chunk (size k : nat) (l : list Z) : list Z :=
  firstn size (skipn (k * size) l).

(** The number of blocks needed to cover [len] elements. *)
Definition chunk_count (size len : nat) : nat := ((len + (size - 1)) / size)%nat.

(** The successive encoder inputs: blocks of 1152 samples per channel, in
    input order. *)
Definition encoder_inputs (left right : list Z) : list (list Z * list Z) :=
  map (fun k => (chunk 1152 k left, chunk 1152 k right))
      (seq 0 (chunk_count 1152 (length left))).

(** Feed the inputs in order and collect what the encoder emits, in
    emission order. *)
Fixpoint feed {E} `{Lame E} (inputs : list (list Z * list Z)) : M E (list (list Z)) :=
  match inputs with
  | [] => ret []
  | (l, r) :: rest =>
      out <- encodeBuffer l r ;;
      outs <- feed rest ;;
      ret (out :: outs)
  end.

(** The converted samples handed to the encoder as its right input: the
    second channel when there is one, else the first again. *)
Definition converted_right (ch0 : list JS.number) (rest : list (list JS.number)) : list Z :=
  match rest with
  | [] => Sample.convertTo16Bit ch0
  | ch1 :: _ => Sample.convertTo16Bit ch1
  end.

Definition as_call (input : list Z * list Z) : call :=
  CallEncode (fst input) (snd input).

(** Feed everything, then flush; the payload is the concatenation of all
    emitted byte arrays followed by the flushed trailer. *)
Definition payload_spec {E} `{Lame E} (left right : list Z) : M E (list Z) :=
  outs <- feed (encoder_inputs left right) ;;
  final <- flush ;;
  ret (concat outs ++ final).

End Mp3.

(** ** The application state *)

Inductive Format : Type := WAV | MP3.

Inductive PreviewType : Type := before | after.

Inductive BiquadFilterType : Type := lowpass | allpass | peaking.

(** The settings of a [BiquadFilterNode]. *)
Record BiquadFilterNode : Type := {
  type : BiquadFilterType;
  frequency : JS.number;
  Q : JS.number;
  gain : JS.number
}.

Definition set_type (t : BiquadFilterType) (n : BiquadFilterNode) : BiquadFilterNode :=
  {| type := t; frequency := frequency n; Q := Q n; gain := gain n |}.
Definition set_frequency (v : JS.number) (n : BiquadFilterNode) : BiquadFilterNode :=
  {| type := type n; frequency := v; Q := Q n; gain := gain n |}.
Definition set_Q (v : JS.number) (n : BiquadFilterNode) : BiquadFilterNode :=
  {| type := type n; frequency := frequency n; Q := v; gain := gain n |}.
Definition set_gain (v : JS.number) (n : BiquadFilterNode) : BiquadFilterNode :=
  {| type := type n; frequency := frequency n; Q := Q n; gain := v |}.

(** Number literals of [App.tsx]. *)
Module Lit.
Definition n0 : JS.number := S754_zero false.
Definition n1 : JS.number := Eval vm_compute in JS.of_Z 1.
Definition n0_5 : JS.number := Eval vm_compute in JS.of_dyadic 1 (-1).
Definition n1_5 : JS.number := Eval vm_compute in JS.of_dyadic 3 (-1).
Definition n2_0 : JS.number := Eval vm_compute in JS.of_Z 2.
Definition n3 : JS.number := Eval vm_compute in JS.of_Z 3.
Definition n12 : JS.number := Eval vm_compute in JS.of_Z 12.
Definition n350 : JS.number := Eval vm_compute in JS.of_Z 350.
Definition n3500 : JS.number := Eval vm_compute in JS.of_Z 3500.
Definition n5000 : JS.number := Eval vm_compute in JS.of_Z 5000.
(** Decimal literals denote the nearest double, which is what the
    correctly rounded quotient of the two integers is. *)
Definition n0_01 : JS.number := Eval vm_compute in JS.div (JS.of_Z 1) (JS.of_Z 100).
Definition n0_1 : JS.number := Eval vm_compute in JS.div (JS.of_Z 1) (JS.of_Z 10).
Definition n0_95 : JS.number := Eval vm_compute in JS.div (JS.of_Z 95) (JS.of_Z 100).
End Lit.

(** What the host's factory methods return before the code sets anything
    (the documented initial values of the Web Audio API). *)
Definition createBiquadFilter : BiquadFilterNode :=
  {| type := lowpass; frequency := Lit.n350; Q := Lit.n1; gain := Lit.n0 |}.
Definition createGain : JS.number := Lit.n1.
Definition createDelay (maxDelayTime : JS.number) : JS.number := Lit.n0.

(** The long-lived effect nodes created by [setupAudioContext]: the
    values of the parameters the code sets on them. *)
Record LiveGraph : Type := {
  masterProcessedGain : JS.number;
  delayNode : JS.number;                      (* delayTime *)
  feedbackGainNode : JS.number;               (* gain *)
  noiseReductionFilter : BiquadFilterNode;
  voiceBoostGainNode : JS.number;             (* gain *)
  clarityFilterNode : BiquadFilterNode
}.

(** The nodes of one offline render and their connections. *)
Inductive node : Type :=
| Source | Dry | Wet | MasterGain | Delay | FeedbackGain
| NoiseReduction | Boost | ClarityFilter | Destination.

Record OfflineGraph : Type := {
  g_masterGain : JS.number;
  g_delay : JS.number;                        (* delayTime *)
  g_feedbackGain : JS.number;                 (* gain *)
  g_noiseReduction : BiquadFilterNode;
  g_boost : JS.number;                        (* gain *)
  g_clarityFilter : BiquadFilterNode;
  g_dry : JS.number;
  g_wet : JS.number;
  g_connections : list (node * node)
}.

(** A Render Result.  No code path writes to an [AudioBuffer] (channel
    data is only read) or to a [Blob], so a stored buffer that is also the
    current audio buffer is modelled by the same value. *)
Record HistoryItem : Type := {
  id : Z;
  item_fileName : string;
  timestamp : Z;
  item_audioBuffer : AudioBuffer;
  wavBlob : Blob;
  mp3Blob : Blob
}.

(** The effect parameters ([useState], lines 143-147). *)
Record Params : Type := {
  delayTime : JS.number;
  feedback : JS.number;
  isClarityOn : bool;
  voiceBoost : JS.number;
  clarity : JS.number
}.

(** A buffer source node of the host.  [src_playing]: started and not yet
    stopped or finished.  [src_ended_pending]: it has stopped and its
    [ended] event has not been dispatched yet.  [src_onended]: which
    handler the code installed on it. *)
Inductive PlaybackKind : Type :=
| KOriginal | KProcessed | KHistory | KPreview (t : PreviewType).

Record BufferSource : Type := {
  src_id : nat;
  src_onended : PlaybackKind;
  src_playing : bool;
  src_ended_pending : bool
}.

(** Playback flags ([useState]), source refs ([useRef]) and the host's
    buffer sources. *)
Record Playback : Type := {
  isPlayingOriginal : bool;
  isPlayingProcessed : bool;
  playingHistoryId : option Z;
  playingPreview : option PreviewType;
  originalSourceRef : option nat;
  processedSourceRef : option nat;
  historySourceRef : option nat;
  beforePreviewSourceRef : option nat;
  afterPreviewSourceRef : option nat;
  sources : list BufferSource
}.

Record AppState : Type := {
  audioBuffer : option AudioBuffer;
  processedVisBuffer : option AudioBuffer;
  fileName : string;
  renderingFormat : option Format;
  history : list HistoryItem;
  params : Params;
  audioContextRef : option LiveGraph;
  playback : Playback;
  alerts : list string;
  downloads : list (string * Blob)
}.

(** Field updates. *)
Definition setAudioBuffer (v : option AudioBuffer) (s : AppState) : AppState :=
  {| audioBuffer := v; processedVisBuffer := processedVisBuffer s; fileName := fileName s;
     renderingFormat := renderingFormat s; history := history s; params := params s;
     audioContextRef := audioContextRef s; playback := playback s; alerts := alerts s;
     downloads := downloads s |}.
Definition setFileName (v : string) (s : AppState) : AppState :=
  {| audioBuffer := audioBuffer s; processedVisBuffer := processedVisBuffer s; fileName := v;
     renderingFormat := renderingFormat s; history := history s; params := params s;
     audioContextRef := audioContextRef s; playback := playback s; alerts := alerts s;
     downloads := downloads s |}.
Definition setRenderingFormat (v : option Format) (s : AppState) : AppState :=
  {| audioBuffer := audioBuffer s; processedVisBuffer := processedVisBuffer s;
     fileName := fileName s; renderingFormat := v; history := history s; params := params s;
     audioContextRef := audioContextRef s; playback := playback s; alerts := alerts s;
     downloads := downloads s |}.
Definition setHistory (f : list HistoryItem -> list HistoryItem) (s : AppState) : AppState :=
  {| audioBuffer := audioBuffer s; processedVisBuffer := processedVisBuffer s;
     fileName := fileName s; renderingFormat := renderingFormat s; history := f (history s);
     params := params s; audioContextRef := audioContextRef s; playback := playback s;
     alerts := alerts s; downloads := downloads s |}.
Definition setParams (f : Params -> Params) (s : AppState) : AppState :=
  {| audioBuffer := audioBuffer s; processedVisBuffer := processedVisBuffer s;
     fileName := fileName s; renderingFormat := renderingFormat s; history := history s;
     params := f (params s); audioContextRef := audioContextRef s; playback := playback s;
     alerts := alerts s; downloads := downloads s |}.
Definition setLive (v : option LiveGraph) (s : AppState) : AppState :=
  {| audioBuffer := audioBuffer s; processedVisBuffer := processedVisBuffer s;
     fileName := fileName s; renderingFormat := renderingFormat s; history := history s;
     params := params s; audioContextRef := v; playback := playback s; alerts := alerts s;
     downloads := downloads s |}.
Definition setPlayback (f : Playback -> Playback) (s : AppState) : AppState :=
  {| audioBuffer := audioBuffer s; processedVisBuffer := processedVisBuffer s;
     fileName := fileName s; renderingFormat := renderingFormat s; history := history s;
     params := params s; audioContextRef := audioContextRef s; playback := f (playback s);
     alerts := alerts s; downloads := downloads s |}.
Definition alert (msg : string) (s : AppState) : AppState :=
  {| audioBuffer := audioBuffer s; processedVisBuffer := processedVisBuffer s;
     fileName := fileName s; renderingFormat := renderingFormat s; history := history s;
     params := params s; audioContextRef := audioContextRef s; playback := playback s;
     alerts := alerts s ++ [msg]; downloads := downloads s |}.
Definition record_download (name : string) (blob : Blob) (s : AppState) : AppState :=
  {| audioBuffer := audioBuffer s; processedVisBuffer := processedVisBuffer s;
     fileName := fileName s; renderingFormat := renderingFormat s; history := history s;
     params := params s; audioContextRef := audioContextRef s; playback := playback s;
     alerts := alerts s; downloads := downloads s ++ [(name, blob)] |}.

(** The component's initial state ([useState] and [useRef] initial values). *)
Definition initial_params : Params :=
  {| delayTime := Lit.n0_5; feedback := Lit.n0_5; isClarityOn := false;
     voiceBoost := Lit.n1; clarity := Lit.n0 |}.

Definition initial_playback : Playback :=
  {| isPlayingOriginal := false; isPlayingProcessed := false; playingHistoryId := None;
     playingPreview := None; originalSourceRef := None; processedSourceRef := None;
     historySourceRef := None; beforePreviewSourceRef := None; afterPreviewSourceRef := None;
     sources := [] |}.

Definition initial_state : AppState :=
  {| audioBuffer := None; processedVisBuffer := None; fileName := ""; renderingFormat := None;
     history := []; params := initial_params; audioContextRef := None;
     playback := initial_playback; alerts := []; downloads := [] |}.

Definition setProcessedVisBuffer (v : option AudioBuffer) (s : AppState) : AppState :=
  {| audioBuffer := audioBuffer s; processedVisBuffer := v; fileName := fileName s;
     renderingFormat := renderingFormat s; history := history s; params := params s;
     audioContextRef := audioContextRef s; playback := playback s; alerts := alerts s;
     downloads := downloads s |}.

Definition set_delayTime (v : JS.number) (p : Params) : Params :=
  {| delayTime := v; feedback := feedback p; isClarityOn := isClarityOn p;
     voiceBoost := voiceBoost p; clarity := clarity p |}.
Definition set_feedback (v : JS.number) (p : Params) : Params :=
  {| delayTime := delayTime p; feedback := v; isClarityOn := isClarityOn p;
     voiceBoost := voiceBoost p; clarity := clarity p |}.
Definition set_isClarityOn (v : bool) (p : Params) : Params :=
  {| delayTime := delayTime p; feedback := feedback p; isClarityOn := v;
     voiceBoost := voiceBoost p; clarity := clarity p |}.
Definition set_voiceBoost (v : JS.number) (p : Params) : Params :=
  {| delayTime := delayTime p; feedback := feedback p; isClarityOn := isClarityOn p;
     voiceBoost := v; clarity := clarity p |}.
Definition set_clarity (v : JS.number) (p : Params) : Params :=
  {| delayTime := delayTime p; feedback := feedback p; isClarityOn := isClarityOn p;
     voiceBoost := voiceBoost p; clarity := v |}.

Definition set_delayNode (v : JS.number) (g : LiveGraph) : LiveGraph :=
  {| masterProcessedGain := masterProcessedGain g; delayNode := v;
     feedbackGainNode := feedbackGainNode g; noiseReductionFilter := noiseReductionFilter g;
     voiceBoostGainNode := voiceBoostGainNode g; clarityFilterNode := clarityFilterNode g |}.
Definition set_feedbackGainNode (v : JS.number) (g : LiveGraph) : LiveGraph :=
  {| masterProcessedGain := masterProcessedGain g; delayNode := delayNode g;
     feedbackGainNode := v; noiseReductionFilter := noiseReductionFilter g;
     voiceBoostGainNode := voiceBoostGainNode g; clarityFilterNode := clarityFilterNode g |}.
Definition set_noiseReductionFilter (f : BiquadFilterNode -> BiquadFilterNode) (g : LiveGraph)
  : LiveGraph :=
  {| masterProcessedGain := masterProcessedGain g; delayNode := delayNode g;
     feedbackGainNode := feedbackGainNode g; noiseReductionFilter := f (noiseReductionFilter g);
     voiceBoostGainNode := voiceBoostGainNode g; clarityFilterNode := clarityFilterNode g |}.
Definition set_voiceBoostGainNode (v : JS.number) (g : LiveGraph) : LiveGraph :=
  {| masterProcessedGain := masterProcessedGain g; delayNode := delayNode g;
     feedbackGainNode := feedbackGainNode g; noiseReductionFilter := noiseReductionFilter g;
     voiceBoostGainNode := v; clarityFilterNode := clarityFilterNode g |}.
Definition set_clarityFilterNode (f : BiquadFilterNode -> BiquadFilterNode) (g : LiveGraph)
  : LiveGraph :=
  {| masterProcessedGain := masterProcessedGain g; delayNode := delayNode g;
     feedbackGainNode := feedbackGainNode g; noiseReductionFilter := noiseReductionFilter g;
     voiceBoostGainNode := voiceBoostGainNode g; clarityFilterNode := f (clarityFilterNode g) |}.

(** ** Effect parameters and the live graph *)

(** [setupAudioContext], lines 171-203: builds the live nodes once. *)
Definition setupAudioContext (s : AppState) : AppState :=
  match audioContextRef s with
  | Some _ => s
  | None =>
      let p := params s in
      setLive (Some
        {| masterProcessedGain := createGain;
           delayNode := delayTime p;
           feedbackGainNode := feedback p;
           noiseReductionFilter := set_type allpass createBiquadFilter;
           voiceBoostGainNode := voiceBoost p;
           clarityFilterNode :=
             set_gain (clarity p)
               (set_Q Lit.n1_5 (set_frequency Lit.n3500 (set_type peaking createBiquadFilter)))
        |}) s
  end.

(** The [useEffect] hooks of lines 522-556: each pushes one parameter to
    its live node when the context exists. *)
Definition effect_delayTime (s : AppState) : AppState :=
  match audioContextRef s with
  | Some g => setLive (Some (set_delayNode (delayTime (params s)) g)) s
  | None => s
  end.

Definition effect_feedback (s : AppState) : AppState :=
  match audioContextRef s with
  | Some g => setLive (Some (set_feedbackGainNode (feedback (params s)) g)) s
  | None => s
  end.

Definition effect_isClarityOn (s : AppState) : AppState :=
  match audioContextRef s with
  | Some g =>
      if isClarityOn (params s)
      then setLive (Some (set_noiseReductionFilter
                            (fun n => set_Q Lit.n1 (set_frequency Lit.n5000 (set_type lowpass n)))
                            g)) s
      else setLive (Some (set_noiseReductionFilter (set_type allpass) g)) s
  | None => s
  end.

Definition effect_voiceBoost (s : AppState) : AppState :=
  match audioContextRef s with
  | Some g => setLive (Some (set_voiceBoostGainNode (voiceBoost (params s)) g)) s
  | None => s
  end.

Definition effect_clarity (s : AppState) : AppState :=
  match audioContextRef s with
  | Some g => setLive (Some (set_clarityFilterNode (set_gain (clarity (params s))) g)) s
  | None => s
  end.

(** The props the source gives each [Slider] (lines 680-687). *)
Record SliderProps : Type := {
  min : JS.number;
  max : JS.number;
  step : JS.number
}.

Definition delaySlider : SliderProps :=
  {| min := Lit.n0_01; max := Lit.n1; step := Lit.n0_01 |}.
Definition feedbackSlider : SliderProps :=
  {| min := Lit.n0; max := Lit.n0_95; step := Lit.n0_01 |}.
Definition voiceBoostSlider : SliderProps :=
  {| min := Lit.n1; max := Lit.n3; step := Lit.n0_1 |}.
Definition claritySlider : SliderProps :=
  {| min := Lit.n0; max := Lit.n12; step := Lit.n0_5 |}.

(** The host's range input reports values within [min, max], ends
    included. *)
Definition slider_reports (props : SliderProps) (value : JS.number) : bool :=
  JS.leb (min props) value && JS.leb value (max props).

(** The [onChange] handlers, [setX(parseFloat(e.target.value))], each
    followed by the effect that depends on the changed state. *)
Definition onChange_delayTime (value : JS.number) (s : AppState) : AppState :=
  effect_delayTime (setParams (set_delayTime value) s).

Definition onChange_feedback (value : JS.number) (s : AppState) : AppState :=
  effect_feedback (setParams (set_feedback value) s).

Definition onChange_voiceBoost (value : JS.number) (s : AppState) : AppState :=
  effect_voiceBoost (setParams (set_voiceBoost value) s).

Definition onChange_clarity (value : JS.number) (s : AppState) : AppState :=
  effect_clarity (setParams (set_clarity value) s).

(** [setIsClarityOn(enabled)]; the effect runs when the value changed. *)
Definition setEnabled_noiseReduction (enabled : bool) (s : AppState) : AppState :=
  if Bool.eqb enabled (isClarityOn (params s)) then s
  else effect_isClarityOn (setParams (set_isClarityOn enabled) s).

(** The graph [handleDownload] builds for one offline render, lines
    353-391. *)
Definition offline_graph (p : Params) : OfflineGraph :=
  let masterGain := createGain in
  let delay := createDelay Lit.n2_0 in
  let feedbackGain := createGain in
  let noiseReduction := createBiquadFilter in
  let boost := createGain in
  let clarityFilter := createBiquadFilter in
  let dry := createGain in
  let wet := createGain in
  let delay := delayTime p in
  let feedbackGain := feedback p in
  let boost := voiceBoost p in
  let clarityFilter := set_type peaking clarityFilter in
  let clarityFilter := set_frequency Lit.n3500 clarityFilter in
  let clarityFilter := set_Q Lit.n1_5 clarityFilter in
  let clarityFilter := set_gain (clarity p) clarityFilter in
  let noiseReduction :=
    if isClarityOn p
    then set_Q Lit.n1 (set_frequency Lit.n5000 (set_type lowpass noiseReduction))
    else set_type allpass noiseReduction in
  {| g_masterGain := masterGain; g_delay := delay; g_feedbackGain := feedbackGain;
     g_noiseReduction := noiseReduction; g_boost := boost; g_clarityFilter := clarityFilter;
     g_dry := dry; g_wet := wet;
     g_connections :=
       [(Source, Dry); (Source, Wet); (Dry, MasterGain); (Wet, Delay);
        (Delay, FeedbackGain); (FeedbackGain, Delay); (Delay, NoiseReduction);
        (NoiseReduction, MasterGain); (MasterGain, Boost); (Boost, ClarityFilter);
        (ClarityFilter, Destination)] |}.

(** ** History and export *)

(** [[newHistoryItem, ...prev].slice(0, 10)]. *)
Definition history_insert (newHistoryItem : HistoryItem) (prev : list HistoryItem)
  : list HistoryItem :=
  firstn 10 (newHistoryItem :: prev).

(** What the host does during one export: it may refuse to build the
    offline context, the render resolves with a buffer or rejects, the
    clock is read, and the download is triggered. *)
Record Host : Type := {
  new_OfflineAudioContext : nat -> nat -> Z -> result unit;
  startRendering : OfflineGraph -> AudioBuffer -> result AudioBuffer;
  Date_now : Z;
  new_Date : Z;
  click_download : string -> Blob -> result unit
}.

(** Handler code that mutates the component state and may throw: the
    state survives a throw, as it does in the source. *)
Definition Act (A : Type) : Type := AppState -> result A * AppState.

Definition act_ret {A} (a : A) : Act A := fun s => (Ok a, s).

Definition act_bind {A B} (m : Act A) (k : A -> Act B) : Act B :=
  fun s => match m s with
           | (Ok a, s') => k a s'
           | (Throw e, s') => (Throw e, s')
           end.

Definition lift {A} (r : result A) : Act A := fun s => (r, s).

Definition modify (f : AppState -> AppState) : Act unit := fun s => (Ok tt, f s).

(** [try { body } catch (error) { handler } finally { final }]. *)
Definition try_catch_finally (body : Act unit) (handler : exn -> Act unit) (final : Act unit)
  : Act unit :=
  fun s =>
    let '(r, s1) := match body s with
                    | (Ok a, s') => (Ok a, s')
                    | (Throw e, s') => handler e s'
                    end in
    match final s1 with
    | (Ok _, s2) => (r, s2)
    | (Throw e, s2) => (Throw e, s2)
    end.

Declare Scope act_scope.
Delimit Scope act_scope with act.
Notation "x <- m ;; k" := (act_bind m (fun x => k))
  (at level 61, m at next level, right associativity) : act_scope.
Notation "m ;; k" := (act_bind m (fun _ => k))
  (at level 61, right associativity) : act_scope.

(** [fileName.split('.')[0]]: the characters before the first dot. *)
Fixpoint before_dot (s : string) : string :=
  match s with
  | EmptyString => EmptyString
  | String c s' => if Ascii.eqb c "."%char then EmptyString else String c (before_dot s')
  end.

Definition format_name (format : Format) : string :=
  match format with WAV => "wav" | MP3 => "mp3" end.

(** [handleDownload], lines 342-428.  The handler awaits the render; it is
    modelled as one step, taken when the render settles: before the
    [await] the code changes only [renderingFormat], and after it the code
    reaches the state only through the functional update of [setHistory]. *)
Definition handleDownload {E} `{Lame E} (format : Format) (host : Host) : Act unit :=
  fun s =>
    match audioBuffer s with
    | None => (Ok tt, s)
    | Some audioBuffer =>
        let p := params s in
        let fileName := fileName s in
        (modify (setRenderingFormat (Some format)) ;;
         try_catch_finally
           (_ <- lift (new_OfflineAudioContext host (numberOfChannels audioBuffer)
                         (buf_length audioBuffer) (sampleRate audioBuffer)) ;;
            let graph := offline_graph p in
            renderedBuffer <- lift (startRendering host graph audioBuffer) ;;
            wavBlob <- lift (Wav.bufferToWav renderedBuffer) ;;
            mp3Blob <- lift (Mp3.bufferToMp3 renderedBuffer) ;;
            let newHistoryItem :=
              {| id := Date_now host;
                 item_fileName :=
                   (if String.eqb (before_dot fileName) "" then "recording"
                    else before_dot fileName)%string;
                 timestamp := new_Date host;
                 item_audioBuffer := renderedBuffer;
                 wavBlob := wavBlob;
                 mp3Blob := mp3Blob |} in
            modify (setHistory (fun prev => history_insert newHistoryItem prev)) ;;
            let blobToDownload := match format with WAV => wavBlob | MP3 => mp3Blob end in
            let fileExtension := format_name format in
            let download :=
              ("processed_" ++ item_fileName newHistoryItem ++ "." ++ fileExtension)%string in
            _ <- lift (click_download host download blobToDownload) ;;
            modify (record_download download blobToDownload))
           (fun error =>
              modify (alert ("Failed to process audio for " ++ format_name format
                               ++ " download.")%string))
           (modify (setRenderingFormat None)))%act s
    end.

(** The steps of an export that can fail before anything is stored: the
    offline context, the render and the two encodings. *)
Definition export_attempt {E} `{Lame E} (host : Host) (p : Params) (audioBuffer : AudioBuffer)
  : result (AudioBuffer * Blob * Blob) :=
  match new_OfflineAudioContext host (numberOfChannels audioBuffer)
          (buf_length audioBuffer) (sampleRate audioBuffer) with
  | Throw e => Throw e
  | Ok _ =>
      match startRendering host (offline_graph p) audioBuffer with
      | Throw e => Throw e
      | Ok renderedBuffer =>
          match Wav.bufferToWav renderedBuffer with
          | Throw e => Throw e
          | Ok wavBlob =>
              match Mp3.bufferToMp3 renderedBuffer with
              | Throw e => Throw e
              | Ok mp3Blob => Ok (renderedBuffer, wavBlob, mp3Blob)
              end
          end
      end
  end.

(** The Render Result a successful export stores. *)
Definition render_result (host : Host) (fileName : string)
    (renderedBuffer : AudioBuffer) (wavBlob mp3Blob : Blob) : HistoryItem :=
  {| id := Date_now host;
     item_fileName :=
       (if String.eqb (before_dot fileName) "" then "recording" else before_dot fileName)%string;
     timestamp := new_Date host;
     item_audioBuffer := renderedBuffer;
     wavBlob := wavBlob;
     mp3Blob := mp3Blob |}.

(** The state a failed export leaves: the alert is shown and the
    rendering flag is cleared; nothing else differs from [s]. *)
Definition after_failed_export (format : Format) (s : AppState) : AppState :=
  setRenderingFormat None
    (alert ("Failed to process audio for " ++ format_name format ++ " download.")%string
       (setRenderingFormat (Some format) s)).

(** ** Playback *)

Definition set_isPlayingOriginal (v : bool) (pb : Playback) : Playback :=
  {| isPlayingOriginal := v; isPlayingProcessed := isPlayingProcessed pb;
     playingHistoryId := playingHistoryId pb; playingPreview := playingPreview pb;
     originalSourceRef := originalSourceRef pb; processedSourceRef := processedSourceRef pb;
     historySourceRef := historySourceRef pb;
     beforePreviewSourceRef := beforePreviewSourceRef pb;
     afterPreviewSourceRef := afterPreviewSourceRef pb; sources := sources pb |}.
Definition set_isPlayingProcessed (v : bool) (pb : Playback) : Playback :=
  {| isPlayingOriginal := isPlayingOriginal pb; isPlayingProcessed := v;
     playingHistoryId := playingHistoryId pb; playingPreview := playingPreview pb;
     originalSourceRef := originalSourceRef pb; processedSourceRef := processedSourceRef pb;
     historySourceRef := historySourceRef pb;
     beforePreviewSourceRef := beforePreviewSourceRef pb;
     afterPreviewSourceRef := afterPreviewSourceRef pb; sources := sources pb |}.
Definition set_playingHistoryId (v : option Z) (pb : Playback) : Playback :=
  {| isPlayingOriginal := isPlayingOriginal pb; isPlayingProcessed := isPlayingProcessed pb;
     playingHistoryId := v; playingPreview := playingPreview pb;
     originalSourceRef := originalSourceRef pb; processedSourceRef := processedSourceRef pb;
     historySourceRef := historySourceRef pb;
     beforePreviewSourceRef := beforePreviewSourceRef pb;
     afterPreviewSourceRef := afterPreviewSourceRef pb; sources := sources pb |}.
Definition set_playingPreview (v : option PreviewType) (pb : Playback) : Playback :=
  {| isPlayingOriginal := isPlayingOriginal pb; isPlayingProcessed := isPlayingProcessed pb;
     playingHistoryId := playingHistoryId pb; playingPreview := v;
     originalSourceRef := originalSourceRef pb; processedSourceRef := processedSourceRef pb;
     historySourceRef := historySourceRef pb;
     beforePreviewSourceRef := beforePreviewSourceRef pb;
     afterPreviewSourceRef := afterPreviewSourceRef pb; sources := sources pb |}.
Definition set_originalSourceRef (v : option nat) (pb : Playback) : Playback :=
  {| isPlayingOriginal := isPlayingOriginal pb; isPlayingProcessed := isPlayingProcessed pb;
     playingHistoryId := playingHistoryId pb; playingPreview := playingPreview pb;
     originalSourceRef := v; processedSourceRef := processedSourceRef pb;
     historySourceRef := historySourceRef pb;
     beforePreviewSourceRef := beforePreviewSourceRef pb;
     afterPreviewSourceRef := afterPreviewSourceRef pb; sources := sources pb |}.
Definition set_processedSourceRef (v : option nat) (pb : Playback) : Playback :=
  {| isPlayingOriginal := isPlayingOriginal pb; isPlayingProcessed := isPlayingProcessed pb;
     playingHistoryId := playingHistoryId pb; playingPreview := playingPreview pb;
     originalSourceRef := originalSourceRef pb; processedSourceRef := v;
     historySourceRef := historySourceRef pb;
     beforePreviewSourceRef := beforePreviewSourceRef pb;
     afterPreviewSourceRef := afterPreviewSourceRef pb; sources := sources pb |}.
Definition set_historySourceRef (v : option nat) (pb : Playback) : Playback :=
  {| isPlayingOriginal := isPlayingOriginal pb; isPlayingProcessed := isPlayingProcessed pb;
     playingHistoryId := playingHistoryId pb; playingPreview := playingPreview pb;
     originalSourceRef := originalSourceRef pb; processedSourceRef := processedSourceRef pb;
     historySourceRef := v;
     beforePreviewSourceRef := beforePreviewSourceRef pb;
     afterPreviewSourceRef := afterPreviewSourceRef pb; sources := sources pb |}.
Definition set_beforePreviewSourceRef (v : option nat) (pb : Playback) : Playback :=
  {| isPlayingOriginal := isPlayingOriginal pb; isPlayingProcessed := isPlayingProcessed pb;
     playingHistoryId := playingHistoryId pb; playingPreview := playingPreview pb;
     originalSourceRef := originalSourceRef pb; processedSourceRef := processedSourceRef pb;
     historySourceRef := historySourceRef pb;
     beforePreviewSourceRef := v;
     afterPreviewSourceRef := afterPreviewSourceRef pb; sources := sources pb |}.
Definition set_afterPreviewSourceRef (v : option nat) (pb : Playback) : Playback :=
  {| isPlayingOriginal := isPlayingOriginal pb; isPlayingProcessed := isPlayingProcessed pb;
     playingHistoryId := playingHistoryId pb; playingPreview := playingPreview pb;
     originalSourceRef := originalSourceRef pb; processedSourceRef := processedSourceRef pb;
     historySourceRef := historySourceRef pb;
     beforePreviewSourceRef := beforePreviewSourceRef pb;
     afterPreviewSourceRef := v; sources := sources pb |}.
Definition set_sources (f : list BufferSource -> list BufferSource) (pb : Playback) : Playback :=
  {| isPlayingOriginal := isPlayingOriginal pb; isPlayingProcessed := isPlayingProcessed pb;
     playingHistoryId := playingHistoryId pb; playingPreview := playingPreview pb;
     originalSourceRef := originalSourceRef pb; processedSourceRef := processedSourceRef pb;
     historySourceRef := historySourceRef pb;
     beforePreviewSourceRef := beforePreviewSourceRef pb;
     afterPreviewSourceRef := afterPreviewSourceRef pb; sources := f (sources pb) |}.

(** The host's [source.stop()]: a playing source stops sounding at once
    and its [ended] event is queued; stopping a stopped source changes
    nothing. *)
Definition host_stop (sid : nat) (srcs : list BufferSource) : list BufferSource :=
  map (fun src =>
         if Nat.eqb (src_id src) sid && src_playing src
         then {| src_id := src_id src; src_onended := src_onended src;
                 src_playing := false; src_ended_pending := true |}
         else src) srcs.

(** [ref.current?.stop()]. *)
Definition stop_ref (ref : option nat) (pb : Playback) : Playback :=
  match ref with
  | Some sid => set_sources (host_stop sid) pb
  | None => pb
  end.

(** [context.createBufferSource()], [source.onended = ...],
    [source.start(0)]: a new playing source; its id is returned. *)
Definition start_source (onended : PlaybackKind) (pb : Playback) : nat * Playback :=
  let sid := length (sources pb) in
  (sid, set_sources (fun srcs => srcs ++ [{| src_id := sid; src_onended := onended;
                                             src_playing := true;
                                             src_ended_pending := false |}]) pb).

(** [stopAllPlayback], lines 205-215. *)
Definition stopAllPlayback (s : AppState) : AppState :=
  setPlayback (fun pb =>
    let pb := stop_ref (originalSourceRef pb) pb in
    let pb := stop_ref (processedSourceRef pb) pb in
    let pb := stop_ref (historySourceRef pb) pb in
    let pb := stop_ref (beforePreviewSourceRef pb) pb in
    let pb := stop_ref (afterPreviewSourceRef pb) pb in
    let pb := set_isPlayingOriginal false pb in
    let pb := set_isPlayingProcessed false pb in
    let pb := set_playingHistoryId None pb in
    set_playingPreview None pb) s.

(** [loadFile], lines 217-237, with the outcome of the host's decoding:
    the load when nothing else happens while the decoding is awaited.
    [loadFile_begin] and [loadFile_settled] below are its two parts. *)
Definition loadFile (name : string) (decoded : result AudioBuffer) (s : AppState) : AppState :=
  let s := stopAllPlayback s in
  let s := setupAudioContext s in
  match audioContextRef s with
  | None => s
  | Some _ =>
      let s := setFileName name s in
      let s := setAudioBuffer None s in
      (* the effect of lines 558-562 runs while the decoding is awaited *)
      let s := setProcessedVisBuffer None s in
      match decoded with
      | Ok decodedData => setAudioBuffer (Some decodedData) s
      | Throw _ =>
          let s := setFileName "Failed to load. Format may not be supported." s in
          setAudioBuffer None s
      end
  end.

(** [toggleOriginalPlayback], lines 266-282. *)
Definition toggleOriginalPlayback (s : AppState) : AppState :=
  match audioContextRef s, audioBuffer s with
  | Some _, Some _ =>
      if isPlayingOriginal (playback s)
      then setPlayback (fun pb => stop_ref (originalSourceRef pb) pb) s
      else
        let s := stopAllPlayback s in
        setPlayback (fun pb =>
          let '(source, pb) := start_source KOriginal pb in
          let pb := set_originalSourceRef (Some source) pb in
          set_isPlayingOriginal true pb) s
  | _, _ => s
  end.

(** [toggleProcessedPlayback], lines 284-313.  The delay and master gain
    nodes exist exactly when the context does. *)
Definition toggleProcessedPlayback (s : AppState) : AppState :=
  match audioContextRef s, audioBuffer s with
  | Some _, Some _ =>
      if isPlayingProcessed (playback s)
      then setPlayback (fun pb => stop_ref (processedSourceRef pb) pb) s
      else
        let s := stopAllPlayback s in
        setPlayback (fun pb =>
          let '(source, pb) := start_source KProcessed pb in
          let pb := set_processedSourceRef (Some source) pb in
          set_isPlayingProcessed true pb) s
  | _, _ => s
  end.

Definition PreviewType_eqb (a b : PreviewType) : bool :=
  match a, b with
  | before, before | after, after => true
  | _, _ => false
  end.

(** [togglePreviewPlayback], lines 315-340. *)
Definition togglePreviewPlayback (type : PreviewType) (s : AppState) : AppState :=
  match audioContextRef s, audioBuffer s with
  | Some _, Some _ =>
      match type, processedVisBuffer s with
      | after, None => s
      | _, _ =>
          let playing :=
            match playingPreview (playback s) with
            | Some t => PreviewType_eqb t type
            | None => false
            end in
          if playing
          then setPlayback (fun pb =>
                 match type with
                 | before => stop_ref (beforePreviewSourceRef pb) pb
                 | after => stop_ref (afterPreviewSourceRef pb) pb
                 end) s
          else
            let s := stopAllPlayback s in
            setPlayback (fun pb =>
              let '(source, pb) := start_source (KPreview type) pb in
              let pb := match type with
                        | before => set_beforePreviewSourceRef (Some source) pb
                        | after => set_afterPreviewSourceRef (Some source) pb
                        end in
              set_playingPreview (Some type) pb) s
      end
  | _, _ => s
  end.

(** [handleHistoryLoad], lines 475-479. *)
Definition handleHistoryLoad (item : HistoryItem) (s : AppState) : AppState :=
  let s := stopAllPlayback s in
  let s := setAudioBuffer (Some (item_audioBuffer item)) s in
  setFileName (item_fileName item ++ " (from history)")%string s.

(** [handleHistoryPlay], lines 481-502. *)
Definition handleHistoryPlay (item : HistoryItem) (s : AppState) : AppState :=
  let same :=
    match playingHistoryId (playback s) with
    | Some i => Z.eqb i (id item)
    | None => false
    end in
  if same
  then setPlayback (fun pb =>
         let pb := stop_ref (historySourceRef pb) pb in
         set_playingHistoryId None pb) s
  else
    let s := stopAllPlayback s in
    match audioContextRef s with
    | None => s
    | Some _ =>
        setPlayback (fun pb =>
          let '(source, pb) := start_source KHistory pb in
          let pb := set_historySourceRef (Some source) pb in
          set_playingHistoryId (Some (id item)) pb) s
    end.

(** The [onended] handlers the code installs (lines 277, 304-308,
    330-334, 495-498). *)
Definition onended (kind : PlaybackKind) (s : AppState) : AppState :=
  match kind with
  | KOriginal => setPlayback (set_isPlayingOriginal false) s
  | KProcessed => setPlayback (set_isPlayingProcessed false) s
  | KHistory =>
      setPlayback (fun pb =>
        let pb := set_playingHistoryId None pb in
        set_historySourceRef None pb) s
  | KPreview type =>
      setPlayback (fun pb =>
        let pb := set_playingPreview None pb in
        match type with
        | before => set_beforePreviewSourceRef None pb
        | after => set_afterPreviewSourceRef None pb
        end) s
  end.

(** The host dispatches the [ended] event of source [sid]: the source has
    reached the end of its buffer, or it was stopped and the event was
    queued.  The event is dispatched from the event loop, so its handler
    runs after the handler that called [stop()] has returned. *)
Definition dispatch_ended (sid : nat) (s : AppState) : AppState :=
  match find (fun src => Nat.eqb (src_id src) sid) (sources (playback s)) with
  | Some src =>
      if src_playing src || src_ended_pending src
      then
        let s := setPlayback (set_sources
                   (map (fun src' =>
                           if Nat.eqb (src_id src') sid
                           then {| src_id := src_id src'; src_onended := src_onended src';
                                   src_playing := false; src_ended_pending := false |}
                           else src'))) s in
        onended (src_onended src) s
      else s
  | None => s
  end.

(** What can happen in a session. *)
Inductive event : Type :=
| LoadFile (name : string) (decoded : result AudioBuffer)
| Download (format : Format) (host : Host)
| ToggleOriginal
| ToggleProcessed
| TogglePreview (type : PreviewType)
| PreviewRendered (renderedBuffer : AudioBuffer)
| HistoryLoad (index : nat)
| HistoryPlay (index : nat)
| Ended (sid : nat)
| ChangeDelayTime (value : JS.number)
| ChangeFeedback (value : JS.number)
| ChangeVoiceBoost (value : JS.number)
| ChangeClarity (value : JS.number)
| SetNoiseReduction (enabled : bool).

Definition handle {E} `{Lame E} (ev : event) (s : AppState) : AppState :=
  match ev with
  | LoadFile name decoded => loadFile name decoded s
  | Download format host =>
      (* the buttons are disabled without a buffer and while rendering *)
      match renderingFormat s with
      | None => snd (handleDownload format host s)
      | Some _ => s
      end
  | ToggleOriginal => toggleOriginalPlayback s
  | ToggleProcessed => toggleProcessedPlayback s
  | TogglePreview type => togglePreviewPlayback type s
  | PreviewRendered renderedBuffer => setProcessedVisBuffer (Some renderedBuffer) s
  | HistoryLoad index =>
      match nth_error (history s) index with
      | Some item => handleHistoryLoad item s
      | None => s
      end
  | HistoryPlay index =>
      match nth_error (history s) index with
      | Some item => handleHistoryPlay item s
      | None => s
      end
  | Ended sid => dispatch_ended sid s
  | ChangeDelayTime value => onChange_delayTime value s
  | ChangeFeedback value => onChange_feedback value s
  | ChangeVoiceBoost value => onChange_voiceBoost value s
  | ChangeClarity value => onChange_clarity value s
  | SetNoiseReduction enabled => setEnabled_noiseReduction enabled s
  end.

Definition run {E} `{Lame E} (evs : list event) (s : AppState) : AppState :=
  fold_left (fun s ev => handle ev s) evs s.

(** The sources that are sounding. *)
Definition active_sources (s : AppState) : list BufferSource :=
  filter src_playing (sources (playback s)).

(** ** Concrete hosts and sessions for runs *)

(** A host whose render returns its input and whose clock reads [now]. *)
Definition host_ok (now : Z) : Host :=
  {| new_OfflineAudioContext := fun _ _ _ => Ok tt;
     startRendering := fun _ buffer => Ok buffer;
     Date_now := now;
     new_Date := now;
     click_download := fun _ _ => Ok tt |}.

(** A host whose render rejects. *)
Definition host_render_fails (now : Z) : Host :=
  {| new_OfflineAudioContext := fun _ _ _ => Ok tt;
     startRendering := fun _ _ => Throw RenderError;
     Date_now := now;
     new_Date := now;
     click_download := fun _ _ => Ok tt |}.

(** A mono clip of four samples. *)
Definition clip : AudioBuffer :=
  {| sampleRate := 44100; buf_length := 4;
     channelData := [[Lit.n0; Lit.n0_5; Lit.n1; Lit.n1_5]] |}.

(** A session that has loaded [clip] and exported it twice, at clock
    readings 1000 and 2000. *)
Definition two_exports_events : list event :=
  [LoadFile "clip.wav" (Ok clip); Download WAV (host_ok 1000); Download MP3 (host_ok 2000)].

Definition two_exports : AppState :=
  Eval vm_compute in run (E := unit) two_exports_events initial_state.

(** Noise reduction switched off, then on, then off. *)
Definition toggled_off_on_off (s : AppState) : AppState :=
  setEnabled_noiseReduction false
    (setEnabled_noiseReduction true (setEnabled_noiseReduction false s)).

(** [n] Render Results with ids 1 to [n], oldest first. *)
Definition numbered (n : nat) : list HistoryItem :=
  map (fun k => render_result (host_ok (Z.of_nat k)) "clip.wav" clip
                  {| blob_bytes := []; blob_type := "audio/wav" |}
                  {| blob_bytes := []; blob_type := "audio/mpeg" |})
      (seq 1 n).

(** The five source refs that [stopAllPlayback] stops. *)
Definition refs_of (pb : Playback) : list (option nat) :=
  [originalSourceRef pb; processedSourceRef pb; historySourceRef pb;
   beforePreviewSourceRef pb; afterPreviewSourceRef pb].

(** Every sounding source is referenced by one of the refs. *)
Definition tracked (pb : Playback) : Prop :=
  forall src : BufferSource,
    In src (sources pb) -> src_playing src = true -> In (Some (src_id src)) (refs_of pb).

Definition stop_refs (refs : list (option nat)) (srcs : list BufferSource) : list BufferSource :=
  fold_left (fun acc ref => match ref with Some sid => host_stop sid acc | None => acc end)
            refs srcs.

(** ** Four statements of the specification, in its words *)

(** "feedback >= 0.95 must be rejected or clamped before reaching the
    feedback node": whatever value is assigned, the gain the offline graph
    receives is below 0.95. *)
Definition feedback_kept_below_bound : Prop :=
  forall (value : JS.number) (s : AppState),
    JS.ltb (g_feedbackGain (offline_graph (params (onChange_feedback value s)))) Lit.n0_95
    = true.

(** "ids are monotonic": in every history a session can reach, which is
    newest-first, each id is strictly greater than the ids after it. *)
Definition ids_strictly_increase : Prop :=
  forall evs : list event,
    StronglySorted (fun newer older => (id older < id newer)%Z)
                   (history (run (E := unit) evs initial_state)).

(** "only one playback source is active at any instant": in every state a
    session can reach, at most one source is sounding. *)
Definition at_most_one_source_active : Prop :=
  forall evs : list event,
    (length (active_sources (run (E := unit) evs initial_state)) <= 1)%nat.

(** "toggling off then on then off returns the filter to its original
    configuration". *)
Definition noise_filter_restored : Prop :=
  forall (s : AppState) (g : LiveGraph),
    audioContextRef s = Some g ->
    isClarityOn (params s) = false ->
    option_map noiseReductionFilter (audioContextRef (toggled_off_on_off s))
    = Some (noiseReductionFilter g).

(** ** Proof automation *)

Ltac crush_state s :=
  destruct s as [ab pv fn rf h p [g|] [ipo ipp phi pp osr psr hsr bsr asr srcs] al dl].

(** * Further code of the repository *)

(** ** Downloads from the history panel *)

(** [handleHistoryDownload], lines 504-513.  There is no [try] around it:
    a throw of the host propagates to the caller. *)
Definition handleHistoryDownload (click : string -> Blob -> result unit)
    (blob : Blob) (fileName : string) (format : Format) : Act unit :=
  let download := ("processed_" ++ fileName ++ "." ++ format_name format)%string in
  (_ <- lift (click download blob) ;;
   modify (record_download download blob))%act.

(** The two download buttons of [HistoryPanel] (part_000, lines 62-75):
    [onDownload(item.wavBlob, item.fileName, 'wav')] and
    [onDownload(item.mp3Blob, item.fileName, 'mp3')]. *)
Definition panel_download (click : string -> Blob -> result unit)
    (format : Format) (item : HistoryItem) : Act unit :=
  match format with
  | WAV => handleHistoryDownload click (wavBlob item) (item_fileName item) WAV
  | MP3 => handleHistoryDownload click (mp3Blob item) (item_fileName item) MP3
  end.

(** A Render Result whose two blobs are the encodings of its buffer and
    whose name is neither empty nor contains a dot. *)
Definition coherent_item {E} `{Lame E} (item : HistoryItem) : Prop :=
  Wav.bufferToWav (item_audioBuffer item) = Ok (wavBlob item) /\
  Mp3.bufferToMp3 (item_audioBuffer item) = Ok (mp3Blob item) /\
  item_fileName item <> ""%string /\
  ~ In "."%char (list_ascii_of_string (item_fileName item)).

(** A value a byte array can hold. *)
Definition is_byte (b : Z) : Prop := (0 <= b < 256)%Z.


(** A host whose download step throws, and the session state after
    [clip] has been loaded. *)
Definition host_click_fails (now : Z) : Host :=
  {| new_OfflineAudioContext := fun _ _ _ => Ok tt;
     startRendering := fun _ buffer => Ok buffer;
     Date_now := now;
     new_Date := now;
     click_download := fun _ _ => Throw HostError |}.

Definition clip_loaded : AppState :=
  Eval vm_compute in run (E := unit) [LoadFile "clip.wav" (Ok clip)] initial_state.

(** ** The live graph and the parameters *)

(** The live nodes carry the parameter values an offline render made now
    would use.  The noise filter is left out: see [noise_filter_state]. *)
Definition live_agrees (p : Params) (g : LiveGraph) : Prop :=
  masterProcessedGain g = g_masterGain (offline_graph p) /\
  delayNode g = g_delay (offline_graph p) /\
  feedbackGainNode g = g_feedbackGain (offline_graph p) /\
  voiceBoostGainNode g = g_boost (offline_graph p) /\
  clarityFilterNode g = g_clarityFilter (offline_graph p).

(** The live noise filter passes everything, or it is the 5000 Hz lowpass
    and the switch is on. *)
Definition noise_filter_state (p : Params) (g : LiveGraph) : Prop :=
  type (noiseReductionFilter g) = allpass \/
  (isClarityOn p = true /\
   type (noiseReductionFilter g) = lowpass /\
   frequency (noiseReductionFilter g) = Lit.n5000 /\
   Q (noiseReductionFilter g) = Lit.n1).

(** What holds of the context in every state a session reaches: it exists
    once a buffer is loaded or a Render Result is stored, and its nodes
    are as [live_agrees] and [noise_filter_state] say. *)
Definition live_inv (s : AppState) : Prop :=
  ((audioBuffer s <> None \/ history s <> []) -> audioContextRef s <> None) /\
  forall g, audioContextRef s = Some g ->
            live_agrees (params s) g /\ noise_filter_state (params s) g.

(** The session state after noise reduction was switched on before any
    file was loaded. *)
Definition noise_on_unloaded : AppState :=
  Eval vm_compute in run (E := unit) [SetNoiseReduction true] initial_state.

(** ** Sessions in which playback stays exclusive *)

Definition holds_or_empty (ref : option nat) (sid : nat) : bool :=
  match ref with
  | Some r => Nat.eqb r sid
  | None => true
  end.

(** The [ended] handlers of history and preview sources clear their ref
    without looking at it (lines 330-334 and 495-498).  An [ended] event
    arrives in time when the ref its handler clears still holds the source
    that ended, or nothing. *)
Definition ended_in_time (ev : event) (s : AppState) : bool :=
  match ev with
  | Ended sid =>
      match find (fun src => Nat.eqb (src_id src) sid) (sources (playback s)) with
      | Some src =>
          match src_onended src with
          | KOriginal | KProcessed => true
          | KHistory => holds_or_empty (historySourceRef (playback s)) sid
          | KPreview before => holds_or_empty (beforePreviewSourceRef (playback s)) sid
          | KPreview after => holds_or_empty (afterPreviewSourceRef (playback s)) sid
          end
      | None => true
      end
  | _ => true
  end.

(** Every [ended] event of the session arrives in time. *)
Fixpoint ends_in_time {E} `{Lame E} (evs : list event) (s : AppState) : bool :=
  match evs with
  | [] => true
  | ev :: evs' => ended_in_time ev s && ends_in_time evs' (handle ev s)
  end.

(** A host function on sources that silences some of them and changes
    nothing else. *)
Definition silences (f : BufferSource -> BufferSource) : Prop :=
  forall src : BufferSource, src_playing (f src) = true -> f src = src.

Definition exclusive (s : AppState) : Prop :=
  tracked (playback s) /\ (length (active_sources s) <= 1)%nat.

(** A session in which every [ended] event arrives in time: a history
    entry is played, replaced by the original, a preview and another
    history entry. *)
Definition in_time_events : list event :=
  two_exports_events ++
  [HistoryPlay 0; ToggleOriginal; Ended 0; TogglePreview before; Ended 1; HistoryPlay 1].

(** The source [start_source] creates when [n] sources exist. *)
Definition new_source (n : nat) (kind : PlaybackKind) : BufferSource :=
  {| src_id := n; src_onended := kind; src_playing := true; src_ended_pending := false |}.

(** What the four play buttons show: original, processed, some history
    entry, a preview. *)
Definition indicators (pb : Playback) : bool * bool * bool * option PreviewType :=
  (isPlayingOriginal pb, isPlayingProcessed pb,
   match playingHistoryId pb with Some _ => true | None => false end,
   playingPreview pb).

Definition indicators_of (kind : PlaybackKind) : bool * bool * bool * option PreviewType :=
  match kind with
  | KOriginal => (true, false, false, None)
  | KProcessed => (false, true, false, None)
  | KHistory => (false, false, true, None)
  | KPreview t => (false, false, false, Some t)
  end.

(** What a handler did to playback: it started no source, or it started
    one that now sounds alone under its own indicator. *)
Definition started_or_not (s s' : AppState) : Prop :=
  length (sources (playback s')) = length (sources (playback s)) \/
  exists kind : PlaybackKind,
    active_sources s' = [new_source (length (sources (playback s))) kind] /\
    indicators (playback s') = indicators_of kind.

(** ** The preview render *)

(** [try { body } catch (e) { handler }], without a [finally]. *)
Definition try_catch (body : Act unit) (handler : exn -> Act unit) : Act unit :=
  fun s =>
    match body s with
    | (Ok a, s') => (Ok a, s')
    | (Throw e, s') => handler e s'
    end.

(** The nodes of the preview render of lines 572-597 and their
    connections. *)
Record PreviewGraph : Type := {
  v_boost : JS.number;                        (* gain *)
  v_clarityFilter : BiquadFilterNode;
  v_noiseReduction : BiquadFilterNode;
  v_connections : list (node * node)
}.

Definition preview_graph (p : Params) : PreviewGraph :=
  let boost := createGain in
  let clarityFilter := createBiquadFilter in
  let noiseReduction := createBiquadFilter in
  let boost := voiceBoost p in
  let clarityFilter := set_type peaking clarityFilter in
  let clarityFilter := set_frequency Lit.n3500 clarityFilter in
  let clarityFilter := set_Q Lit.n1_5 clarityFilter in
  let clarityFilter := set_gain (clarity p) clarityFilter in
  let noiseReduction :=
    if isClarityOn p
    then set_Q Lit.n1 (set_frequency Lit.n5000 (set_type lowpass noiseReduction))
    else set_type allpass noiseReduction in
  {| v_boost := boost; v_clarityFilter := clarityFilter; v_noiseReduction := noiseReduction;
     v_connections :=
       [(Source, Boost); (Boost, ClarityFilter); (ClarityFilter, NoiseReduction);
        (NoiseReduction, Destination)] |}.

(** What the host does during one preview render. *)
Record VisHost : Type := {
  vis_new_OfflineAudioContext : nat -> nat -> Z -> result unit;
  vis_startRendering : PreviewGraph -> AudioBuffer -> result AudioBuffer
}.

(** The effect of lines 558-609, run when the buffer, the voice boost, the
    clarity or the noise switch has changed.  As for [handleDownload], the
    awaited render is one step.  [console.error] is not modelled. *)
Definition processForVis_effect (host : VisHost) : Act unit :=
  fun s =>
    match audioBuffer s with
    | None => modify (setProcessedVisBuffer None) s
    | Some audioBuffer =>
        let p := params s in
        try_catch
          (_ <- lift (vis_new_OfflineAudioContext host (numberOfChannels audioBuffer)
                        (buf_length audioBuffer) (sampleRate audioBuffer)) ;;
           renderedBuffer <- lift (vis_startRendering host (preview_graph p) audioBuffer) ;;
           modify (setProcessedVisBuffer (Some renderedBuffer)))%act
          (fun e => act_ret tt) s
    end.

(** The outcome of the host's part of a preview render. *)
Definition vis_attempt (host : VisHost) (p : Params) (audioBuffer : AudioBuffer)
  : result AudioBuffer :=
  match vis_new_OfflineAudioContext host (numberOfChannels audioBuffer)
          (buf_length audioBuffer) (sampleRate audioBuffer) with
  | Throw e => Throw e
  | Ok _ => vis_startRendering host (preview_graph p) audioBuffer
  end.

(** ** The recording clock *)

From Stdlib Require DecimalString DecimalNat.

(** [n.toString()] of a non-negative integer. *)
Definition toString (n : nat) : string :=
  DecimalString.NilEmpty.string_of_uint (Nat.to_uint n).

(** [s.padStart(targetLength, c)] with a pad string of one character. *)
Definition padStart (targetLength : nat) (c : ascii) (s : string) : string :=
  (string_of_list_ascii (repeat c (targetLength - String.length s)) ++ s)%string.

(** [formatTime], lines 515-519.  Its argument is [recordingTime], which
    starts at 0 and is only ever incremented by 1: a non-negative integer,
    on which [Math.floor(seconds / 60)] and [seconds % 60] are the
    quotient and the remainder. *)
Definition formatTime (seconds : nat) : string :=
  let minutes := Nat.div seconds 60 in
  let secs := Nat.modulo seconds 60 in
  (padStart 2 "0" (toString minutes) ++ ":" ++ padStart 2 "0" (toString secs))%string.

(** Reading a clock string back: the text before and after the first
    colon, and the number a digit string denotes. *)
Fixpoint split_colon (s : string) : string * string :=
  match s with
  | EmptyString => (EmptyString, EmptyString)
  | String c s' =>
      if Ascii.eqb c ":"%char then (EmptyString, s')
      else let (a, b) := split_colon s' in (String c a, b)
  end.

Definition parseInt (s : string) : option nat :=
  option_map Nat.of_uint (DecimalString.NilEmpty.uint_of_string s).

Definition parseTime (s : string) : option nat :=
  let (m, sec) := split_colon s in
  match parseInt m, parseInt sec with
  | Some m, Some sec => Some (60 * m + sec)
  | _, _ => None
  end.

(** Whether a string is two digits, a colon and two digits, the digit
    after the colon at most 5. *)
Definition clock_shape (s : string) : bool :=
  match list_ascii_of_string s with
  | [m1; m0; c; s1; s0] =>
      Ascii.eqb c ":"%char &&
      forallb (fun d => Nat.leb 48 (nat_of_ascii d) && Nat.leb (nat_of_ascii d) 57)
              [m1; m0; s1; s0] &&
      Nat.leb (nat_of_ascii s1) 53
  | _ => false
  end.

(** ** The analysis of the enhancement panel *)

(** [Math.abs]. *)
Definition Math_abs (x : JS.number) : JS.number := SFabs x.

(** One turn of the loop of [calculatePeak]:
    [const abs = Math.abs(data[i]); if (abs > peak) peak = abs]. *)
Definition peak_step (peak x : JS.number) : JS.number :=
  let abs := Math_abs x in
  if JS.ltb peak abs then abs else peak.

(** [calculatePeak], part_000 lines 101-112. *)
Definition calculatePeak (buffer : option AudioBuffer) : result JS.number :=
  match buffer with
  | None => Ok Lit.n0
  | Some buffer =>
      match getChannelData buffer 0 tt with
      | Ok (data, _) => Ok (fold_left peak_step data Lit.n0)
      | Throw e => Throw e
      end
  end.

Definition n100 : JS.number := Eval vm_compute in JS.of_Z 100.

Definition sub (x y : JS.number) : JS.number := SFsub JS.prec JS.emax x y.

(** [volumeIncrease], part_000 lines 125-127. *)
Definition volumeIncrease (originalBuffer processedBuffer : option AudioBuffer)
  : result JS.number :=
  match calculatePeak originalBuffer with
  | Throw e => Throw e
  | Ok originalPeak =>
      match calculatePeak processedBuffer with
      | Throw e => Throw e
      | Ok processedPeak =>
          Ok (if JS.ltb Lit.n0 originalPeak
              then JS.mul (sub (JS.div processedPeak originalPeak) Lit.n1) n100
              else Lit.n0)
      end
  end.

(** A number that is 0, positive or +Infinity: not NaN and not below 0. *)
Definition nonneg (x : JS.number) : Prop :=
  match x with
  | S754_zero false | S754_infinity false | S754_finite false _ _ => True
  | _ => False
  end.

Definition n_minus100 : JS.number := Eval vm_compute in JS.of_Z (-100).

(** A buffer of two zero samples. *)
Definition silence : AudioBuffer :=
  {| sampleRate := 44100; buf_length := 2; channelData := [[Lit.n0; S754_zero true]] |}.

(** ** Recording *)

(** A [MediaRecorder] of the host: whether it is recording, and the
    parameters of the render in which [startRecording] ran.  The
    [onstop] handler installed on the recorder is a closure of that
    render: the [loadFile] it calls, and the [setupAudioContext] inside
    it, read those parameters, not the current ones. *)
Record MediaRecorder : Type := {
  rec_recording : bool;
  rec_closure : Params
}.

(** The recording state ([useState], lines 135-136, and [useRef], lines
    156-158) and the host's running intervals. *)
Record Recording : Type := {
  isRecording : bool;
  recordingTime : nat;
  mediaRecorderRef : option MediaRecorder;
  audioChunksRef : list Blob;
  timerIntervalRef : option nat;
  intervals : list nat;                      (* host: intervals not yet cleared *)
  intervals_created : nat                    (* host: how many were ever set *)
}.

Definition initial_recording : Recording :=
  {| isRecording := false; recordingTime := 0; mediaRecorderRef := None;
     audioChunksRef := []; timerIntervalRef := None; intervals := [];
     intervals_created := 0 |}.

(** What the host does when a recording is started: it grants or denies
    the microphone, builds the recorder or throws, and starts it or
    throws. *)
Record MicHost : Type := {
  getUserMedia : result unit;
  new_MediaRecorder : result unit;
  recorder_start : result unit
}.

Definition could_not_start : string :=
  "Could not start recording. Please grant microphone permission.".

(** [startRecording], lines 430-463, awaits the microphone (line 433):
    the guard of line 431 runs when the button is pressed, and the rest
    when the request settles; other handlers may run in between, and a
    second press may pass the guard before [isRecording] is set.

    [startRecording_pressed] is the part before the [await]: [None] when
    the handler returns at the guard, otherwise the request is pending and
    the continuation is a closure of the render in which the button was
    pressed, of which the parameters are what matters later. *)
Definition startRecording_pressed (sr : AppState * Recording) : option Params :=
  let '(s, r) := sr in
  if isRecording r then None else Some (params s).

(** [startRecording_settled] is the part after the [await], in the state
    in which the request settles: the [catch] when the microphone is
    refused, otherwise lines 434-457. *)
Definition startRecording_settled (host : MicHost) (closure : Params)
    (sr : AppState * Recording) : AppState * Recording :=
  let '(s, r) := sr in
  match getUserMedia host with
  | Throw _ => (alert could_not_start s, r)
  | Ok _ =>
      let s := stopAllPlayback s in
      let r := {| isRecording := true; recordingTime := 0;
                  mediaRecorderRef := mediaRecorderRef r; audioChunksRef := [];
                  timerIntervalRef := timerIntervalRef r; intervals := intervals r;
                  intervals_created := intervals_created r |} in
      match new_MediaRecorder host with
      | Throw _ => (alert could_not_start s, r)
      | Ok _ =>
          let recorder := {| rec_recording := false; rec_closure := closure |} in
          let r := {| isRecording := isRecording r; recordingTime := recordingTime r;
                      mediaRecorderRef := Some recorder;
                      audioChunksRef := audioChunksRef r;
                      timerIntervalRef := timerIntervalRef r; intervals := intervals r;
                      intervals_created := intervals_created r |} in
          match recorder_start host with
          | Throw _ => (alert could_not_start s, r)
          | Ok _ =>
              let recorder := {| rec_recording := true; rec_closure := closure |} in
              let interval := S (intervals_created r) in
              (s, {| isRecording := isRecording r; recordingTime := recordingTime r;
                     mediaRecorderRef := Some recorder;
                     audioChunksRef := audioChunksRef r;
                     timerIntervalRef := Some interval;
                     intervals := interval :: intervals r;
                     intervals_created := interval |})
          end
      end
  end.

(** [startRecording] when the request settles before anything else
    happens. *)
Definition startRecording (host : MicHost) (sr : AppState * Recording)
  : AppState * Recording :=
  match startRecording_pressed sr with
  | None => sr
  | Some closure => startRecording_settled host closure sr
  end.

(** [clearInterval(id)]. *)
Definition clearInterval (interval : nat) (running : list nat) : list nat :=
  filter (fun i => negb (Nat.eqb i interval)) running.

(** [stopRecording], lines 465-473.  [recorder.stop()] makes the recorder
    inactive; the host dispatches its [stop] event afterwards. *)
Definition stopRecording (sr : AppState * Recording) : AppState * Recording :=
  let '(s, r) := sr in
  match isRecording r, mediaRecorderRef r with
  | true, Some recorder =>
      let recorder := {| rec_recording := false; rec_closure := rec_closure recorder |} in
      let running :=
        match timerIntervalRef r with
        | Some interval => clearInterval interval (intervals r)
        | None => intervals r
        end in
      (s, {| isRecording := false; recordingTime := recordingTime r;
             mediaRecorderRef := Some recorder; audioChunksRef := audioChunksRef r;
             timerIntervalRef := None; intervals := running;
             intervals_created := intervals_created r |})
  | _, _ => sr
  end.

(** The record button, line 639: [isRecording ? stopRecording : startRecording]. *)
Definition record_button (host : MicHost) (sr : AppState * Recording)
  : AppState * Recording :=
  if isRecording (snd sr) then stopRecording sr else startRecording host sr.

(** The host fires interval [interval]; the callback of line 456 runs if
    the interval has not been cleared. *)
Definition interval_fires (interval : nat) (sr : AppState * Recording)
  : AppState * Recording :=
  let '(s, r) := sr in
  if existsb (Nat.eqb interval) (intervals r)
  then (s, {| isRecording := isRecording r; recordingTime := recordingTime r + 1;
              mediaRecorderRef := mediaRecorderRef r; audioChunksRef := audioChunksRef r;
              timerIntervalRef := timerIntervalRef r; intervals := intervals r;
              intervals_created := intervals_created r |})
  else sr.

(** [recorder.ondataavailable], lines 443-445. *)
Definition ondataavailable (data : Blob) (sr : AppState * Recording)
  : AppState * Recording :=
  let '(s, r) := sr in
  (s, {| isRecording := isRecording r; recordingTime := recordingTime r;
         mediaRecorderRef := mediaRecorderRef r;
         audioChunksRef := audioChunksRef r ++ [data];
         timerIntervalRef := timerIntervalRef r; intervals := intervals r;
         intervals_created := intervals_created r |}).

(** A handler of an earlier render reads the parameters of that render
    and writes state through the setters. *)
Definition in_render (closure : Params) (f : AppState -> AppState) (s : AppState)
  : AppState :=
  setParams (fun _ => params s) (f (setParams (fun _ => closure) s)).

(** [new Blob(parts, { type })]. *)
Definition new_Blob (parts : list Blob) (type : string) : Blob :=
  {| blob_bytes := concat (map blob_bytes parts); blob_type := type |}.

(** The name of the recorded file, line 449. *)
Definition recording_name (iso : string) : string :=
  ("recording-" ++ iso ++ ".wav")%string.

(** [recorder.onstop], lines 447-452, for the recorder in
    [mediaRecorderRef]: [iso] is [new Date().toISOString()] and [decode]
    the outcome of the host's decoding of the recorded file. *)
Definition onstop (iso : string) (decode : Blob -> result AudioBuffer)
    (sr : AppState * Recording) : AppState * Recording :=
  let '(s, r) := sr in
  match mediaRecorderRef r with
  | Some recorder =>
      let audioBlob := new_Blob (audioChunksRef r) "audio/wav" in
      (in_render (rec_closure recorder)
         (loadFile (recording_name iso) (decode audioBlob)) s, r)
  | None => sr
  end.

(** [n] firings of the interval. *)
Fixpoint ticks (interval n : nat) (sr : AppState * Recording) : AppState * Recording :=
  match n with
  | O => sr
  | S n' => ticks interval n' (interval_fires interval sr)
  end.

(** A host that grants the microphone and records, and one without
    [MediaRecorder]. *)
Definition mic_ok : MicHost :=
  {| getUserMedia := Ok tt; new_MediaRecorder := Ok tt; recorder_start := Ok tt |}.

Definition mic_no_recorder : MicHost :=
  {| getUserMedia := Ok tt; new_MediaRecorder := Throw HostError; recorder_start := Ok tt |}.

(** ** Recording sessions *)

(** The component with its recording state and the microphone requests
    that have not settled yet, each with the parameters its continuation
    holds. *)
Record Studio : Type := {
  studio_app : AppState;
  studio_rec : Recording;
  pending : list Params
}.

Definition initial_studio : Studio :=
  {| studio_app := initial_state; studio_rec := initial_recording; pending := [] |}.

(** What can happen while recording is used: the record button is
    pressed, a pending request settles, the host fires an interval, a
    recorder delivers data, the recorder in [mediaRecorderRef] stops. *)
Inductive rec_event : Type :=
| PressRecord
| MicSettles (index : nat) (host : MicHost)
| IntervalFires (interval : nat)
| DataAvailable (data : Blob)
| RecorderStops (iso : string) (decode : Blob -> result AudioBuffer).

Definition rec_handle (ev : rec_event) (st : Studio) : Studio :=
  let sr := (studio_app st, studio_rec st) in
  let put (sr' : AppState * Recording) (requests : list Params) : Studio :=
    {| studio_app := fst sr'; studio_rec := snd sr'; pending := requests |} in
  match ev with
  | PressRecord =>
      (* line 639: [isRecording ? stopRecording : startRecording] *)
      if isRecording (studio_rec st) then put (stopRecording sr) (pending st)
      else
        match startRecording_pressed sr with
        | Some closure => put sr (pending st ++ [closure])
        | None => st
        end
  | MicSettles index host =>
      match nth_error (pending st) index with
      | Some closure =>
          put (startRecording_settled host closure sr)
              (firstn index (pending st) ++ skipn (S index) (pending st))
      | None => st
      end
  | IntervalFires interval => put (interval_fires interval sr) (pending st)
  | DataAvailable data => put (ondataavailable data sr) (pending st)
  | RecorderStops iso decode => put (onstop iso decode sr) (pending st)
  end.

Definition rec_run (evs : list rec_event) (st : Studio) : Studio :=
  fold_left (fun st ev => rec_handle ev st) evs st.

(** The record button is not pressed to start a recording while a
    microphone request is pending. *)
Definition pressed_alone (ev : rec_event) (st : Studio) : bool :=
  match ev with
  | PressRecord =>
      isRecording (studio_rec st) || match pending st with [] => true | _ => false end
  | _ => true
  end.

Fixpoint one_request_at_a_time (evs : list rec_event) (st : Studio) : bool :=
  match evs with
  | [] => true
  | ev :: evs' => pressed_alone ev st && one_request_at_a_time evs' (rec_handle ev st)
  end.

(** The intervals the code can still clear: the one in
    [timerIntervalRef]. *)
Definition clearable (r : Recording) : list nat :=
  match timerIntervalRef r with
  | Some interval => [interval]
  | None => []
  end.

(** What holds of the recording state while requests do not overlap. *)
Definition rec_inv (st : Studio) : Prop :=
  (length (pending st) <= 1)%nat /\
  (pending st <> [] -> isRecording (studio_rec st) = false) /\
  intervals (studio_rec st) = clearable (studio_rec st) /\
  (isRecording (studio_rec st) = false -> timerIntervalRef (studio_rec st) = None).

(** The button pressed twice before the microphone is granted, both
    requests granted, and the recording stopped. *)
Definition double_press (host : MicHost) : list rec_event :=
  [PressRecord; PressRecord; MicSettles 0 host; MicSettles 0 host; PressRecord].

(** A recording of 75 seconds, stopped, with the interval firing on. *)
Definition one_recording : list rec_event :=
  [PressRecord; MicSettles 0 mic_ok] ++ repeat (IntervalFires 1) 75 ++
  [PressRecord; IntervalFires 1].

(** ** Loading a file, step by step *)

(** [loadFile] awaits the bytes of the file and their decoding (lines
    229-230).  Its code before the first [await] runs when the file is
    chosen, and its code after the second one, or its [catch], when the
    decoding has settled; nothing of [loadFile] runs between the two
    awaits, and other handlers may run while they are pending.

    [loadFile_begin] is the part before: the state it leaves, and whether
    the decoding is awaited ([false] when it returns at line 223). *)
Definition loadFile_begin (name : string) (s : AppState) : AppState * bool :=
  let s := stopAllPlayback s in
  let s := setupAudioContext s in
  match audioContextRef s with
  | None => (s, false)
  | Some _ =>
      let s := setFileName name s in
      let s := setAudioBuffer None s in
      (s, true)
  end.

(** [loadFile_settled] is the part after, in the state in which the
    decoding settles. *)
Definition loadFile_settled (decoded : result AudioBuffer) (s : AppState) : AppState :=
  match decoded with
  | Ok decodedData => setAudioBuffer (Some decodedData) s
  | Throw _ =>
      let s := setFileName "Failed to load. Format may not be supported." s in
      setAudioBuffer None s
  end.

(** The two parts with nothing in between but the effect of lines
    558-562, which clears the preview while no buffer is loaded. *)
Definition loadFile_at_once (name : string) (decoded : result AudioBuffer) (s : AppState)
  : AppState :=
  let '(s, awaited) := loadFile_begin name s in
  if awaited then loadFile_settled decoded (setProcessedVisBuffer None s) else s.

(** ** Proof automation for the handlers *)

(** A handler that leaves the parameters, the context, the buffer and the
    history alone; [frame] is the lemma that such a handler keeps the
    invariant. *)
Ltac frame_inv frame :=
  apply frame;
  [reflexivity | reflexivity | intros Hx; left; exact Hx | intros Hx; right; exact Hx].

Ltac in_refs := unfold refs_of; cbn [In]; tauto.

(** The branch of a toggle that starts a source, after
    [stopAllPlayback] has run; [all_silent] and [one_started] are the
    lemmas for these two steps. *)
Ltac start_branch all_silent one_started s Ht kind :=
  let Hq := fresh "Hq" in
  let s1 := fresh "s1" in
  pose proof (all_silent s Ht) as Hq;
  set (s1 := stopAllPlayback s) in *; clearbody s1; unfold active_sources in Hq;
  destruct s1 as [ab1 pv1 fn1 rf1 h1 p1 g1 pb1 al1 dl1];
  cbn [playback] in Hq;
  unfold exclusive, active_sources;
  apply (one_started pb1 _ (length (sources pb1)) kind);
  [exact Hq | reflexivity | in_refs].

(** The branch of a toggle that stops the source of one ref. *)
Ltac stop_branch some_silenced stop_silences ref Ht Hu :=
  unfold exclusive, active_sources in *;
  destruct ref as [sid|];
  [ eapply some_silenced;
    [apply (stop_silences sid) | reflexivity | intros src0 _ Hin0; exact Hin0
    | exact Ht | exact Hu ]
  | split; [exact Ht | exact Hu] ].

(** The starting branch again, for [started_or_not]. *)
Ltac start_case all_silent same_length no_indicator alone s Ht kind :=
  let Hq := fresh "Hq" in
  let Hl := fresh "Hl" in
  let Hi := fresh "Hi" in
  let s1 := fresh "s1" in
  let H1 := fresh "H1" in
  let H2 := fresh "H2" in
  let H3 := fresh "H3" in
  let H4 := fresh "H4" in
  right; exists kind;
  pose proof (all_silent s Ht) as Hq;
  pose proof (same_length s) as Hl;
  pose proof (no_indicator s) as Hi;
  set (s1 := stopAllPlayback s) in *; clearbody s1; unfold active_sources in *;
  rewrite <- Hl;
  destruct s1 as [ab1 pv1 fn1 rf1 h1 p1 g1 pb1 al1 dl1];
  cbn [playback] in Hi, Hq |- *;
  unfold indicators in Hi; injection Hi as H1 H2 H3 H4;
  split;
  [ apply (alone pb1 _ kind); [exact Hq | reflexivity]
  | unfold indicators; cbn; rewrite ?H1, ?H2, ?H3, ?H4; reflexivity ].
(** * Proofs *)

(** ** Sample conversion *)

Section SampleFacts.
Import JS Sample.


Lemma SFcompare_finite_antisym s1 m1 e1 s2 m2 e2 :
  SFcompare (S754_finite s2 m2 e2) (S754_finite s1 m1 e1)
  = option_map CompOpp (SFcompare (S754_finite s1 m1 e1) (S754_finite s2 m2 e2)).
Proof.
  cbv [SFcompare option_map].
  rewrite (Z.compare_antisym e1 e2).
  replace (Pos.compare_cont Eq m2 m1) with (CompOpp (Pos.compare_cont Eq m1 m2))
    by apply (Pos.compare_cont_antisym m1 m2 Eq).
  destruct s1, s2; try reflexivity;
    destruct (e1 ?= e2)%Z; cbv [CompOpp]; try reflexivity;
    destruct (Pos.compare_cont Eq m1 m2); reflexivity.
Qed.

Lemma SFcompare_finite_Eq s1 m1 e1 s2 m2 e2 :
  SFcompare (S754_finite s1 m1 e1) (S754_finite s2 m2 e2) = Some Eq ->
  S754_finite s1 m1 e1 = S754_finite s2 m2 e2.
Proof.
  cbv [SFcompare].
  destruct s1, s2; try discriminate;
    destruct (Z.compare_spec e1 e2) as [He|He|He]; try discriminate;
    change (Pos.compare_cont Eq m1 m2) with (Pos.compare m1 m2);
    destruct (Pos.compare_spec m1 m2) as [Hm|Hm|Hm]; try discriminate;
    intros _; now subst.
Qed.

Lemma SFcompare_finite_Some s1 m1 e1 s2 m2 e2 :
  SFcompare (S754_finite s1 m1 e1) (S754_finite s2 m2 e2) <> None.
Proof. destruct s1, s2; discriminate. Qed.

Lemma Math_min_finite s0 m0 e0 s m e :
  Math_min (S754_finite s0 m0 e0) (S754_finite s m e)
  = if (S754_finite s m e <? S754_finite s0 m0 e0)%js
    then S754_finite s m e else S754_finite s0 m0 e0.
Proof.
  unfold Math_min, Infinity, is_nan, is_neg_zero, is_pos_zero, ltb, SFltb.
  destruct s0; cbn [SFcompare orb andb]; now rewrite !orb_false_r.
Qed.

Lemma Math_max_finite s0 m0 e0 s m e :
  Math_max (S754_finite s0 m0 e0) (S754_finite s m e)
  = if (S754_finite s0 m0 e0 <? S754_finite s m e)%js
    then S754_finite s m e else S754_finite s0 m0 e0.
Proof.
  unfold Math_max, Infinity, is_nan, is_neg_zero, is_pos_zero, ltb, SFltb.
  destruct s0; cbn [SFopp negb SFcompare orb andb]; now rewrite !orb_false_r.
Qed.

(** [Math.max(-b, Math.min(b, x))] is the clamp of [x] to [-b, b]. *)
Lemma clamp_finite m0 e0 s m e :
  let one := S754_finite false m0 e0 in
  let x := S754_finite s m e in
  Math_max (- one)%js (Math_min one x)
  = if (x <? - one)%js then (- one)%js else if (one <? x)%js then one else x.
Proof.
  intros one x. subst one x. cbn [SFopp negb].
  rewrite Math_min_finite.
  unfold ltb, SFltb.
  rewrite (SFcompare_finite_antisym s m e false m0 e0).
  destruct (SFcompare (S754_finite s m e) (S754_finite false m0 e0)) as [[ | | ]|] eqn:H1;
    cbv [option_map CompOpp]; rewrite Math_max_finite; unfold ltb, SFltb.
  - apply SFcompare_finite_Eq in H1. injection H1 as -> -> ->. reflexivity.
  - rewrite (SFcompare_finite_antisym s m e true m0 e0).
    destruct (SFcompare (S754_finite s m e) (S754_finite true m0 e0)) as [[ | | ]|] eqn:H2;
      cbv [option_map CompOpp]; try reflexivity.
    + apply SFcompare_finite_Eq in H2. now rewrite H2.
    + now apply SFcompare_finite_Some in H2.
  - destruct s; [ discriminate | ]. reflexivity.
  - now apply SFcompare_finite_Some in H1.
Qed.

Lemma clamp_eq x : Math_max (- c1)%js (Math_min c1 x) = clamp_spec x.
Proof.
  destruct x as [s|s| |s m e].
  - destruct s; vm_compute; reflexivity.
  - destruct s; vm_compute; reflexivity.
  - vm_compute; reflexivity.
  - apply clamp_finite.
Qed.

Lemma wav_sample16_spec x : wav_sample16 x = sample16_spec x.
Proof.
  unfold wav_sample16, wav_intSample, sample16_spec, scale_spec.
  now rewrite clamp_eq.
Qed.

Lemma mp3_sample16_spec x : mp3_sample16 x = sample16_spec x.
Proof.
  unfold mp3_sample16, sample16_spec, scale_spec.
  now rewrite clamp_eq.
Qed.

(** The clamped value lies in [-b, b] unless the sample is NaN. *)
Lemma clamp_finite_range m0 e0 s m e :
  let one := S754_finite false m0 e0 in
  let x := S754_finite s m e in
  let c := if (x <? - one)%js then (- one)%js else if (one <? x)%js then one else x in
  leb (- one)%js c && leb c one = true.
Proof.
  intros one x. subst one x. unfold ltb, leb, SFltb, SFleb. cbn [SFopp negb].
  destruct (SFcompare (S754_finite s m e) (S754_finite true m0 e0)) as [[ | | ]|] eqn:H1.
  - apply SFcompare_finite_Eq in H1. injection H1 as -> -> ->.
    cbn. now rewrite Z.compare_refl, Pos.compare_cont_refl.
  - cbn. now rewrite Z.compare_refl, Pos.compare_cont_refl.
  - rewrite (SFcompare_finite_antisym s m e false m0 e0).
    destruct (SFcompare (S754_finite s m e) (S754_finite false m0 e0)) as [[ | | ]|] eqn:H2;
      cbv [option_map CompOpp];
      try (rewrite (SFcompare_finite_antisym s m e true m0 e0), H1);
      try rewrite H2; try reflexivity.
    + cbn. now rewrite Z.compare_refl, Pos.compare_cont_refl.
    + now apply SFcompare_finite_Some in H2.
  - now apply SFcompare_finite_Some in H1.
Qed.

Lemma clamp_spec_range x :
  is_nan x || (leb (- c1)%js (clamp_spec x) && leb (clamp_spec x) c1) = true.
Proof.
  destruct x as [s|s| |s m e].
  - destruct s; vm_compute; reflexivity.
  - destruct s; vm_compute; reflexivity.
  - reflexivity.
  - apply clamp_finite_range.
Qed.

Lemma above_not_below m0 e0 (x : number) :
  SFltb (S754_finite false m0 e0) x = true -> SFltb x (S754_finite true m0 e0) = false.
Proof.
  destruct x as [s|s| |s m e]; try (destruct s; cbn; congruence); discriminate.
Qed.

(** Samples above 1 saturate at 32767, samples below -1 at -32768. *)
Lemma saturate_high x : (c1 <? x)%js = true -> sample16_spec x = 32767%Z.
Proof.
  intros Hx. unfold sample16_spec, clamp_spec.
  unfold ltb, c1 in Hx |- *. cbn [SFopp negb].
  rewrite (above_not_below _ _ x Hx), Hx. vm_compute. reflexivity.
Qed.

Lemma saturate_low x : (x <? - c1)%js = true -> sample16_spec x = (-32768)%Z.
Proof.
  intros Hx. unfold sample16_spec, clamp_spec. rewrite Hx. vm_compute. reflexivity.
Qed.

End SampleFacts.

(** C1: for every float sample, both encoders' 16-bit conversion is the
    clamp of the sample to [-1, 1] followed by the asymmetric scaling
    (negative clamped values times 32768, the others times 32767) and the
    16-bit store; the clamped value lies in [-1, 1] unless the sample is
    NaN; every sample above 1 gives 32767 and every sample below -1 gives
    -32768; and 1.5, -1.5, 1.0, -1.0, 0.0 give 32767, -32768, 32767,
    -32768, 0. *)
Theorem C1_conversion_clamps_then_scales :
  (forall x : JS.number,
      Sample.wav_sample16 x = Sample.sample16_spec x /\
      Sample.mp3_sample16 x = Sample.sample16_spec x /\
      JS.is_nan x
      || (JS.leb (- Sample.c1)%js (Sample.clamp_spec x)
          && JS.leb (Sample.clamp_spec x) Sample.c1) = true) /\
  (forall x : JS.number,
      (Sample.c1 <? x)%js = true ->
      Sample.wav_sample16 x = 32767%Z /\ Sample.mp3_sample16 x = 32767%Z) /\
  (forall x : JS.number,
      (x <? - Sample.c1)%js = true ->
      Sample.wav_sample16 x = (-32768)%Z /\ Sample.mp3_sample16 x = (-32768)%Z) /\
  (let inputs := [JS.of_dyadic 3 (-1); JS.of_dyadic (-3) (-1);
                  JS.of_Z 1; JS.of_Z (-1); JS.of_Z 0] in
   map Sample.wav_sample16 inputs = [32767; -32768; 32767; -32768; 0]%Z /\
   Sample.convertTo16Bit inputs = [32767; -32768; 32767; -32768; 0]%Z).
Proof.
  split; [|split; [|split]].
  - intros x. split; [apply wav_sample16_spec|].
    split; [apply mp3_sample16_spec | apply clamp_spec_range].
  - intros x Hx. rewrite wav_sample16_spec, mp3_sample16_spec.
    split; now apply saturate_high.
  - intros x Hx. rewrite wav_sample16_spec, mp3_sample16_spec.
    split; now apply saturate_low.
  - split; vm_compute; reflexivity.
Qed.

(** The samples 2.5 and -2.5. *)
Lemma C1_conversion_clamps_then_scales_witness :
  (Sample.c1 <? JS.of_dyadic 5 (-1))%js = true /\
  (JS.of_dyadic (-5) (-1) <? - Sample.c1)%js = true /\
  Sample.wav_sample16 (JS.of_dyadic 5 (-1)) = 32767%Z /\
  Sample.mp3_sample16 (JS.of_dyadic (-5) (-1)) = (-32768)%Z.
Proof.
  assert (H1 : (Sample.c1 <? JS.of_dyadic 5 (-1))%js = true) by (vm_compute; reflexivity).
  assert (H2 : (JS.of_dyadic (-5) (-1) <? - Sample.c1)%js = true) by (vm_compute; reflexivity).
  split; [exact H1|]. split; [exact H2|].
  split.
  - exact (proj1 (proj1 (proj2 C1_conversion_clamps_then_scales) _ H1)).
  - exact (proj2 (proj1 (proj2 (proj2 C1_conversion_clamps_then_scales)) _ H2)).
Defined.

(** ** WAV encoder *)

Section WavFacts.
Import DataView Wav.

Lemma setBytes_fill (w bs old rest : list Z) :
  length old = length bs ->
  setBytes (length w) bs (w ++ old ++ rest) = Ok (tt, w ++ bs ++ rest).
Proof.
  intros H. unfold setBytes.
  rewrite !length_app, H.
  replace (length w + length bs <=? length w + (length bs + length rest))%nat with true
    by (symmetry; apply Nat.leb_le; lia).
  rewrite firstn_app, Nat.sub_diag, firstn_all. cbn [firstn]. rewrite app_nil_r.
  rewrite skipn_app, skipn_all2 by lia. cbn [app].
  replace (length w + length bs - length w)%nat with (length old) by lia.
  rewrite skipn_app, skipn_all, Nat.sub_diag. reflexivity.
Qed.

Lemma skipn_cons_nth_error {A} (l : list A) : forall k x,
  nth_error l k = Some x -> skipn k l = x :: skipn (S k) l.
Proof.
  induction l as [|a l IH]; intros [|k] x H; cbn in *; try discriminate.
  - now injection H as ->.
  - now apply IH.
Qed.

Lemma collect_channels_from {St} (buffer : AudioBuffer) (s : St) n : forall k acc,
  (k + n <= numberOfChannels buffer)%nat ->
  foldM (fun i acc => bind (getChannelData buffer i) (fun ch => ret (acc ++ [ch])))
        (seq k n) acc s
  = Ok (acc ++ firstn n (skipn k (channelData buffer)), s).
Proof.
  unfold numberOfChannels.
  induction n as [|n IH]; intros k acc Hk; cbn [seq foldM].
  - cbn [firstn]. now rewrite app_nil_r.
  - unfold bind at 1. unfold getChannelData.
    destruct (nth_error (channelData buffer) k) as [ch|] eqn:E.
    + unfold bind, ret at 1 2. rewrite IH by lia.
      rewrite <- app_assoc. cbn [app].
      now rewrite (skipn_cons_nth_error _ _ _ E).

    + apply nth_error_None in E. lia.
Qed.

Lemma collect_channels {St} (buffer : AudioBuffer) (s : St) :
  foldM (fun i acc => bind (getChannelData buffer i) (fun ch => ret (acc ++ [ch])))
        (seq 0 (numberOfChannels buffer)) [] s
  = Ok (channelData buffer, s).
Proof.
  rewrite collect_channels_from by lia.
  cbn [app skipn]. unfold numberOfChannels. now rewrite firstn_all.
Qed.

(** Inner loop: one frame. *)
Lemma write_frame channels i : forall js w rest,
  foldM (fun j offset => write_sample channels i j offset) js (length w)
        (w ++ repeat 0%Z (2 * length js) ++ rest)
  = Ok ((length w + 2 * length js)%nat,
        w ++ flat_map (fun j => le_bytes 2 (JS.ToUint16 (Sample.wav_intSample (sample_at channels j i)))) js ++ rest).
Proof.
  induction js as [|j js IH]; intros w rest.
  - cbn. now rewrite Nat.add_0_r.
  - cbn [foldM length flat_map].
    unfold bind at 1. unfold write_sample at 1. unfold bind at 1, setInt16.
    replace (2 * S (length js))%nat with (2 + 2 * length js)%nat by lia.
    rewrite repeat_app, <- app_assoc.
    rewrite setBytes_fill by reflexivity.
    unfold ret at 1.
    set (bs := bytes_of 2 _ true).
    replace (length w + 2)%nat with (length (w ++ bs)) by (rewrite length_app; reflexivity).
    rewrite (app_assoc w bs), IH.
    rewrite length_app, <- !app_assoc. subst bs. cbn [bytes_of le_bytes length].
    f_equal. f_equal. lia.
Qed.

Lemma write_frames channels C : forall is_ w rest,
  foldM (fun i offset => foldM (fun j offset => write_sample channels i j offset) (seq 0 C) offset)
        is_ (length w)
        (w ++ repeat 0%Z (length is_ * C * 2) ++ rest)
  = Ok ((length w + length is_ * C * 2)%nat,
        w ++ flat_map (frame_spec channels C) is_ ++ rest).
Proof.
  induction is_ as [|i is_ IH]; intros w rest.
  - cbn. now rewrite Nat.add_0_r.
  - cbn [foldM length flat_map].
    unfold bind at 1.
    replace (S (length is_) * C * 2)%nat with (2 * length (seq 0 C) + length is_ * C * 2)%nat
      by (rewrite length_seq; lia).
    rewrite repeat_app, <- app_assoc.
    rewrite write_frame.
    fold (frame_spec channels C i).
    set (fr := frame_spec channels C i).
    assert (Hfr : length fr = (2 * C)%nat).
    { subst fr. unfold frame_spec. 
      assert (forall l, length (flat_map (fun j => le_bytes 2 (JS.ToUint16 (Sample.wav_intSample (sample_at channels j i)))) l) = 2 * length l)%nat as G.
      { induction l as [|a l IHl]; cbn [flat_map]; [reflexivity|].
        rewrite length_app, IHl. cbn [le_bytes length]. lia. }
      rewrite G, length_seq. reflexivity. }
    replace (length w + 2 * length (seq 0 C))%nat with (length (w ++ fr))
      by (rewrite length_app, length_seq; lia).
    rewrite (app_assoc w fr), IH.
    rewrite length_app, <- !app_assoc, Hfr, length_seq. f_equal. f_equal. lia.
Qed.


Lemma header_spec_length (C : nat) (R : Z) (N : nat) : length (header_spec C R N) = 44%nat.
Proof. reflexivity. Qed.

Lemma bufferToWav_bytes (buffer : AudioBuffer) :
  bufferToWav buffer
  = Ok {| blob_bytes :=
            header_spec (numberOfChannels buffer) (sampleRate buffer) (buf_length buffer)
            ++ data_spec (channelData buffer) (numberOfChannels buffer) (buf_length buffer);
          blob_type := "audio/wav" |}.
Proof.
  unfold bufferToWav.
  change (16 / 8)%nat with 2%nat.
  set (C := numberOfChannels buffer). set (N := buf_length buffer). set (R := sampleRate buffer).
  set (d := (N * C * 2)%nat).
  cbv zeta.
  match goal with
  | |- context [bind (foldM ?f ?l ?a) ?k] => set (tail := bind (foldM f l a) k)
  end.
  replace (ArrayBuffer (44 + d)) with (repeat 0%Z 44 ++ repeat 0%Z d)
    by (unfold ArrayBuffer; now rewrite repeat_app).
  simpl (repeat 0%Z 44).
  set (fs := Z.of_nat (44 + d)).
  set (zeros := repeat 0%Z d).
  match goal with
  | |- ?L = ?R =>
      let L' := eval cbv [bind ret writeString writeString_from setUint8 setUint16 setUint32
                          setBytes bytes_of le_bytes length Nat.leb Nat.add firstn skipn app] in L in
      change (L' = R)
  end.
  match goal with
  | |- match tail ?v with _ => _ end = _ =>
      change v with (header_spec C R N ++ repeat 0%Z (N * C * 2))
  end.
  rewrite <- (app_nil_r (repeat 0%Z (N * C * 2))).
  subst tail. unfold bind at 1.
  rewrite collect_channels.
  unfold bind at 1.
  change (0 + 4 + 4 + 4 + 4 + 4 + 2 + 2 + 4 + 4 + 2 + 2 + 4 + 4)%nat
    with (length (header_spec C R N)).
  replace (N * C * 2)%nat with (length (seq 0 N) * C * 2)%nat by now rewrite length_seq.
  rewrite write_frames.
  unfold ret. now rewrite app_nil_r.
Qed.

Lemma nth_flat_map_block {A} (f : nat -> list A) (c : nat) (d : A) :
  (forall x, length (f x) = c) ->
  forall n a k r, (k < n)%nat -> (r < c)%nat ->
  nth (k * c + r) (flat_map f (seq a n)) d = nth r (f (a + k)%nat) d.
Proof.
  intros Hc. induction n as [|n IH]; intros a k r Hk Hr; [lia|].
  cbn [seq flat_map]. destruct k as [|k].
  - cbn [Nat.mul Nat.add]. rewrite app_nth1 by (rewrite Hc; lia). now rewrite Nat.add_0_r.
  - rewrite app_nth2 by (rewrite Hc; lia).
    rewrite Hc. replace (S k * c + r - c)%nat with (k * c + r)%nat by lia.
    rewrite IH by lia. f_equal. f_equal. lia.
Qed.

Lemma length_flat_map_block {A} (f : nat -> list A) (c : nat) :
  (forall x, length (f x) = c) ->
  forall l, length (flat_map f l) = (length l * c)%nat.
Proof.
  intros Hc. induction l as [|x l IH]; [reflexivity|].
  cbn [flat_map length]. rewrite length_app, Hc, IH. lia.
Qed.

Lemma frame_spec_length channels C i : length (frame_spec channels C i) = (C * 2)%nat.
Proof.
  unfold frame_spec. rewrite (length_flat_map_block _ 2) by reflexivity.
  now rewrite length_seq.
Qed.

Lemma data_spec_length channels C N : length (data_spec channels C N) = (N * C * 2)%nat.
Proof.
  unfold data_spec. rewrite (length_flat_map_block _ (C * 2)).
  - rewrite length_seq. lia.
  - intros i. apply frame_spec_length.
Qed.

(** The byte at position [2 * (i * C + j) + b] of the sample data. *)
Lemma data_spec_nth channels C N i j b :
  (i < N)%nat -> (j < C)%nat -> (b < 2)%nat ->
  nth (2 * (i * C + j) + b) (data_spec channels C N) 0%Z
  = nth b (le_bytes 2 (JS.ToUint16 (Sample.wav_intSample (sample_at channels j i)))) 0%Z.
Proof.
  intros Hi Hj Hb. unfold data_spec.
  replace (2 * (i * C + j) + b)%nat with (i * (C * 2) + (j * 2 + b))%nat by lia.
  rewrite (nth_flat_map_block _ (C * 2)); try lia.
  2: { intros x. apply frame_spec_length. }
  unfold frame_spec. cbn [Nat.add].
  rewrite (nth_flat_map_block _ 2); try lia; reflexivity.
Qed.

Lemma le16_value v : (0 <= v < 65536)%Z -> (v mod 256 + 256 * ((v / 256) mod 256))%Z = v.
Proof.
  intros H. rewrite (Z.mod_small (v / 256) 256).
  - rewrite Z.add_comm. symmetry. apply Z.div_mod. lia.
  - split; [apply Z.div_pos; lia | apply Z.div_lt_upper_bound; lia].
Qed.

Lemma le32_value v :
  (0 <= v < 4294967296)%Z ->
  (v mod 256 + 256 * ((v / 256) mod 256 + 256 * ((v / 256 / 256) mod 256
     + 256 * ((v / 256 / 256 / 256) mod 256))))%Z = v.
Proof.
  intros H.
  assert (H1 : (0 <= v / 256 < 16777216)%Z)
    by (split; [apply Z.div_pos; lia | apply Z.div_lt_upper_bound; lia]).
  assert (H2 : (0 <= v / 256 / 256 < 65536)%Z)
    by (split; [apply Z.div_pos; lia | apply Z.div_lt_upper_bound; lia]).
  rewrite (le16_value (v / 256 / 256) H2).
  pose proof (Z.div_mod v 256 ltac:(lia)) as E0.
  pose proof (Z.div_mod (v / 256) 256 ltac:(lia)) as E1.
  generalize dependent (v mod 256)%Z. generalize dependent ((v / 256) mod 256)%Z.
  generalize dependent (v / 256 / 256)%Z. generalize dependent (v / 256)%Z.
  intros. lia.
Qed.

Lemma getInt16_data (hdr : list Z) channels C N i j :
  (i < N)%nat -> (j < C)%nat ->
  getInt16 (hdr ++ data_spec channels C N) (length hdr + 2 * (i * C + j)) true
  = Sample.wav_sample16 (sample_at channels j i).
Proof.
  intros Hi Hj. unfold getInt16, getUint16, getUint8.
  rewrite !app_nth2 by lia.
  replace (length hdr + 2 * (i * C + j) - length hdr)%nat with (2 * (i * C + j) + 0)%nat by lia.
  replace (length hdr + 2 * (i * C + j) + 1 - length hdr)%nat with (2 * (i * C + j) + 1)%nat by lia.
  rewrite !data_spec_nth by lia.
  cbn [le_bytes nth].
  rewrite le16_value by (unfold JS.ToUint16; apply Z.mod_pos_bound; lia).
  reflexivity.
Qed.

(** Reading the header fields back. *)
Lemma header_fields (C : nat) (R : Z) (N : nat) (data : list Z) :
  let wav := header_spec C R N ++ data in
  getString wav 0 4 = [82; 73; 70; 70]%Z /\
  getString wav 8 4 = [87; 65; 86; 69]%Z /\
  getString wav 12 4 = [102; 109; 116; 32]%Z /\
  getString wav 36 4 = [100; 97; 116; 97]%Z /\
  getUint32 wav 4 true = JS.ToUint32Z (Z.of_nat (44 + N * C * 2) - 8) /\
  getUint32 wav 16 true = 16%Z /\
  getUint16 wav 20 true = 1%Z /\
  getUint16 wav 22 true = JS.ToUint16Z (Z.of_nat C) /\
  getUint32 wav 24 true = JS.ToUint32Z R /\
  getUint32 wav 28 true = JS.ToUint32Z (R * Z.of_nat C * 2) /\
  getUint16 wav 32 true = JS.ToUint16Z (Z.of_nat (C * 2)) /\
  getUint16 wav 34 true = 16%Z /\
  getUint32 wav 40 true = JS.ToUint32Z (Z.of_nat (N * C * 2)).
Proof.
  intros wav. subst wav.
  assert (B16 : forall z, (0 <= JS.ToUint16Z z < 65536)%Z)
    by (intros z; apply Z.mod_pos_bound; lia).
  assert (B32 : forall z, (0 <= JS.ToUint32Z z < 4294967296)%Z)
    by (intros z; apply Z.mod_pos_bound; lia).
  repeat split; try reflexivity.
  - change (getUint32 _ 4 true) with
      (let v := JS.ToUint32Z (Z.of_nat (44 + N * C * 2) - 8) in
       v mod 256 + 256 * ((v / 256) mod 256 + 256 * ((v / 256 / 256) mod 256
         + 256 * ((v / 256 / 256 / 256) mod 256))))%Z.
    cbv zeta. now rewrite le32_value.
  - change (getUint16 _ 22 true) with
      (let v := JS.ToUint16Z (Z.of_nat C) in v mod 256 + 256 * ((v / 256) mod 256))%Z.
    cbv zeta. now rewrite le16_value.
  - change (getUint32 _ 24 true) with
      (let v := JS.ToUint32Z R in
       v mod 256 + 256 * ((v / 256) mod 256 + 256 * ((v / 256 / 256) mod 256
         + 256 * ((v / 256 / 256 / 256) mod 256))))%Z.
    cbv zeta. now rewrite le32_value.
  - change (getUint32 _ 28 true) with
      (let v := JS.ToUint32Z (R * Z.of_nat C * 2) in
       v mod 256 + 256 * ((v / 256) mod 256 + 256 * ((v / 256 / 256) mod 256
         + 256 * ((v / 256 / 256 / 256) mod 256))))%Z.
    cbv zeta. now rewrite le32_value.
  - change (getUint16 _ 32 true) with
      (let v := JS.ToUint16Z (Z.of_nat (C * 2)) in v mod 256 + 256 * ((v / 256) mod 256))%Z.
    cbv zeta. now rewrite le16_value.
  - change (getUint32 _ 40 true) with
      (let v := JS.ToUint32Z (Z.of_nat (N * C * 2)) in
       v mod 256 + 256 * ((v / 256) mod 256 + 256 * ((v / 256 / 256) mod 256
         + 256 * ((v / 256 / 256 / 256) mod 256))))%Z.
    cbv zeta. now rewrite le32_value.
Qed.

End WavFacts.

(** C2: for every buffer with C channels, sample rate R and N frames,
    [bufferToWav] returns one byte buffer of exactly 44 + N*C*2 bytes: the
    markers RIFF, WAVE, fmt and data, format tag 1, 16 bits per sample, and
    from byte 44 on the samples, frame by frame and channel by channel, as
    little-endian 16-bit integers; and, the values fitting the header's 16-
    and 32-bit fields, channel count C, sample rate R, byte rate R*C*2,
    block align C*2 and data size N*C*2.  For C = 2, R = 44100, N = 1000 the
    length is 4044, the byte rate 176400 and the data size 4000. *)
Theorem C2_wav_layout :
  (forall buffer : AudioBuffer,
      let C := numberOfChannels buffer in
      let R := sampleRate buffer in
      let N := buf_length buffer in
      exists wav : Blob,
        Wav.bufferToWav buffer = Ok wav /\
        length (blob_bytes wav) = (44 + N * C * 2)%nat /\
        DataView.getString (blob_bytes wav) 0 4 =
          map Wav.charCodeAt (list_ascii_of_string "RIFF") /\
        DataView.getString (blob_bytes wav) 8 4 =
          map Wav.charCodeAt (list_ascii_of_string "WAVE") /\
        DataView.getString (blob_bytes wav) 12 4 =
          map Wav.charCodeAt (list_ascii_of_string "fmt ") /\
        DataView.getUint32 (blob_bytes wav) 16 true = 16%Z /\
        DataView.getUint16 (blob_bytes wav) 20 true = 1%Z /\
        DataView.getUint16 (blob_bytes wav) 34 true = 16%Z /\
        DataView.getString (blob_bytes wav) 36 4 =
          map Wav.charCodeAt (list_ascii_of_string "data") /\
        (forall i j : nat, (i < N)%nat -> (j < C)%nat ->
           DataView.getInt16 (blob_bytes wav) (44 + 2 * (i * C + j)) true
           = Sample.wav_sample16 (sample_at (channelData buffer) j i)) /\
        (Wav.fits_header C R N ->
           DataView.getUint16 (blob_bytes wav) 22 true = Z.of_nat C /\
           DataView.getUint32 (blob_bytes wav) 24 true = R /\
           DataView.getUint32 (blob_bytes wav) 28 true = (R * Z.of_nat C * 2)%Z /\
           DataView.getUint16 (blob_bytes wav) 32 true = (Z.of_nat C * 2)%Z /\
           DataView.getUint32 (blob_bytes wav) 40 true
           = (Z.of_nat N * Z.of_nat C * 2)%Z)) /\
  (forall buffer : AudioBuffer,
      numberOfChannels buffer = 2%nat -> sampleRate buffer = 44100%Z ->
      buf_length buffer = 1000%nat ->
      exists wav : Blob,
        Wav.bufferToWav buffer = Ok wav /\
        length (blob_bytes wav) = 4044%nat /\
        DataView.getUint32 (blob_bytes wav) 28 true = 176400%Z /\
        DataView.getUint32 (blob_bytes wav) 40 true = 4000%Z).
Proof.
  split.
  - intros buffer C R N.
    eexists. split; [apply bufferToWav_bytes|]. cbn [blob_bytes].
    fold C R N.
    destruct (header_fields C R N (Wav.data_spec (channelData buffer) C N))
      as (F0 & F8 & F12 & F36 & F4 & F16 & F20 & F22 & F24 & F28 & F32 & F34 & F40).
    cbv zeta in *.
    split; [rewrite length_app, header_spec_length, data_spec_length; reflexivity|].
    do 7 (split; [assumption|]).
    split.
    + intros i j Hi Hj.
      rewrite <- (header_spec_length C R N). now apply getInt16_data.
    + intros (HC & HR & HB & HD).
      unfold JS.ToUint16Z, JS.ToUint32Z in *.
      rewrite Z.mod_small in F22 by lia.
      rewrite Z.mod_small in F24 by lia.
      rewrite Z.mod_small in F28 by lia.
      rewrite Z.mod_small in F32 by lia.
      rewrite Z.mod_small in F40 by lia.
      repeat split; try assumption.
      * rewrite F32. lia.
      * rewrite F40. lia.
  - intros buffer HC HR HN.
    pose proof (bufferToWav_bytes buffer) as Hw.
    eexists. split; [exact Hw|]. cbn [blob_bytes].
    destruct (header_fields (numberOfChannels buffer) (sampleRate buffer) (buf_length buffer)
                (Wav.data_spec (channelData buffer) (numberOfChannels buffer)
                   (buf_length buffer)))
      as (_ & _ & _ & _ & _ & _ & _ & _ & _ & F28 & _ & _ & F40).
    cbv zeta in *.
    split; [rewrite length_app, header_spec_length, data_spec_length, HC, HN; reflexivity|].
    rewrite F28, F40, HC, HR, HN. split; reflexivity.
Qed.

(** A stereo buffer of 1000 silent frames at 44100 Hz. *)
Lemma C2_wav_layout_witness :
  let buffer := {| sampleRate := 44100; buf_length := 1000;
                   channelData := [repeat Sample.c0 1000; repeat Sample.c0 1000] |} in
  Wav.fits_header 2 44100 1000 /\
  exists wav : Blob,
    Wav.bufferToWav buffer = Ok wav /\
    length (blob_bytes wav) = 4044%nat /\
    DataView.getUint16 (blob_bytes wav) 22 true = 2%Z /\
    DataView.getUint32 (blob_bytes wav) 24 true = 44100%Z /\
    DataView.getUint32 (blob_bytes wav) 28 true = 176400%Z /\
    DataView.getUint16 (blob_bytes wav) 32 true = 4%Z /\
    DataView.getUint32 (blob_bytes wav) 40 true = 4000%Z /\
    DataView.getInt16 (blob_bytes wav) (44 + 2 * (999 * 2 + 1)) true = 0%Z.
Proof.
  intros buffer.
  assert (H : Wav.fits_header 2 44100 1000) by (unfold Wav.fits_header; lia).
  split; [exact H|].
  destruct (proj1 C2_wav_layout buffer)
    as (wav & Hw & Hl & _ & _ & _ & _ & _ & _ & _ & Hs & Hf).
  destruct (Hf H) as (H22 & H24 & H28 & H32 & H40).
  exists wav.
  split; [exact Hw|]. split; [exact Hl|]. split; [exact H22|]. split; [exact H24|].
  split; [exact H28|]. split; [exact H32|]. split; [exact H40|].
  exact (Hs 999%nat 1%nat ltac:(cbn; lia) ltac:(cbn; lia)).
Defined.

(** ** MP3 encoder *)

Section Mp3Facts.
Import Mp3.
Context {E : Type} `{Lame E}.

Lemma chunk_count_lt size len k :
  (0 < size)%nat -> ((k * size < len)%nat <-> (k < chunk_count size len)%nat).
Proof.
  intros Hs. unfold chunk_count. split; intros Hk.
  - apply Nat.div_le_lower_bound with (q := S k); nia.
  - assert (Hq : (S k <= (len + (size - 1)) / size)%nat) by lia.
    pose proof (Nat.Div0.mul_div_le (len + (size - 1)) size) as Hm.
    nia.
Qed.

Lemma chunk_count_le_length size len : (0 < size)%nat -> (chunk_count size len <= len)%nat.
Proof.
  intros Hs. destruct (Nat.le_gt_cases (chunk_count size len) len) as [Hle|Hgt]; [exact Hle|].
  apply (chunk_count_lt size len len Hs) in Hgt. nia.
Qed.

Lemma subarray_chunk size k l : subarray l (k * size) (k * size + size) = chunk size k l.
Proof. unfold subarray, chunk. f_equal. lia. Qed.

(** The loop feeds the remaining blocks in order. *)
Lemma encode_loop_feed size left right (Hs : (0 < size)%nat) :
  forall fuel k acc (s : E),
    (chunk_count size (length left) - k <= fuel)%nat ->
    encode_loop fuel size left right (k * size) acc s
    = match feed (map (fun k' => (chunk size k' left, chunk size k' right))
                      (seq k (chunk_count size (length left) - k))) s with
      | Ok (outs, s') => Ok (fold_left push_nonempty outs acc, s')
      | Throw e => Throw e
      end.
Proof.
  induction fuel as [|fuel IH]; intros k acc s Hf.
  - cbn [encode_loop].
    destruct (k * size <? length left)%nat eqn:Hlt.
    + apply Nat.ltb_lt in Hlt. apply (chunk_count_lt size _ k Hs) in Hlt. lia.
    + apply Nat.ltb_ge in Hlt.
      replace (chunk_count size (length left) - k)%nat with 0%nat; [reflexivity|].
      destruct (Nat.le_gt_cases (chunk_count size (length left)) k); [lia|].
      apply (chunk_count_lt size _ k Hs) in H0. lia.
  - cbn [encode_loop].
    destruct (k * size <? length left)%nat eqn:Hlt.
    + apply Nat.ltb_lt in Hlt. apply (chunk_count_lt size _ k Hs) in Hlt.
      replace (chunk_count size (length left) - k)%nat
        with (S (chunk_count size (length left) - S k)) by lia.
      cbn [seq map feed]. rewrite !subarray_chunk.
      unfold bind.
      destruct (encodeBuffer (chunk size k left) (chunk size k right) s) as [[out s1]|e];
        [|reflexivity].
      replace (k * size + size)%nat with (S k * size)%nat by lia.
      rewrite IH by lia.
      destruct (feed _ s1) as [[outs s2]|e]; reflexivity.
    + apply Nat.ltb_ge in Hlt.
      replace (chunk_count size (length left) - k)%nat with 0%nat; [reflexivity|].
      destruct (Nat.le_gt_cases (chunk_count size (length left)) k); [lia|].
      apply (chunk_count_lt size _ k Hs) in H0. lia.
Qed.

Lemma concat_push_nonempty acc out :
  concat (push_nonempty acc out) = concat acc ++ out.
Proof.
  unfold push_nonempty, Int8Array. destruct out as [|b out]; cbn [length Nat.ltb Nat.leb].
  - now rewrite app_nil_r.
  - rewrite concat_app. cbn [concat]. now rewrite app_nil_r.
Qed.

Lemma concat_fold_push outs : forall acc,
  concat (fold_left push_nonempty outs acc) = concat acc ++ concat outs.
Proof.
  induction outs as [|o outs IH]; intros acc; cbn [fold_left concat].
  - now rewrite app_nil_r.
  - rewrite IH, concat_push_nonempty. now rewrite app_assoc.
Qed.

Lemma bufferToMp3_run_spec (R : Z) (N : nat) ch0 rest :
  let buffer := {| sampleRate := R; buf_length := N; channelData := ch0 :: rest |} in
  bufferToMp3_run buffer
  = match Mp3Encoder (S (length rest)) R 128 with
    | Throw e => Throw e
    | Ok encoder =>
        match payload_spec (Sample.convertTo16Bit ch0) (converted_right ch0 rest) encoder with
        | Ok (payload, encoder') =>
            Ok ({| blob_bytes := payload; blob_type := "audio/mpeg" |}, encoder')
        | Throw e => Throw e
        end
    end.
Proof.
  intros buffer. unfold bufferToMp3_run. subst buffer.
  unfold numberOfChannels. cbn [channelData sampleRate length].
  destruct (Mp3Encoder (S (length rest)) R 128) as [enc|e]; [|reflexivity].
  unfold getChannelData at 1. cbn [nth_error channelData].
  unfold bind at 1. unfold ret at 1.
  assert (HR : forall s : E,
    (if (1 <? S (length rest))%nat
     then getChannelData {| sampleRate := R; buf_length := N; channelData := ch0 :: rest |} 1
     else ret ch0) s
    = Ok (match rest with [] => ch0 | ch1 :: _ => ch1 end, s)).
  { intros s. destruct rest as [|ch1 rest']; reflexivity. }
  unfold bind at 1. rewrite HR.
  replace (Sample.convertTo16Bit match rest with [] => ch0 | ch1 :: _ => ch1 end)
    with (converted_right ch0 rest) by (destruct rest; reflexivity).
  set (left := Sample.convertTo16Bit ch0). set (right := converted_right ch0 rest).
  unfold bind at 1.
  pose proof (encode_loop_feed 1152 left right ltac:(lia) (length left) 0 [] enc) as HL.
  change (0 * 1152)%nat with 0%nat in HL.
  rewrite HL by (pose proof (chunk_count_le_length 1152 (length left)); lia).
  clear HL. rewrite Nat.sub_0_r.
  unfold payload_spec, encoder_inputs. unfold bind at 2.
  destruct (feed _ enc) as [[outs s1]|e]; [|reflexivity].
  unfold bind. destruct (flush s1) as [[final s2]|e]; [|reflexivity].
  unfold ret. rewrite concat_push_nonempty, concat_fold_push. reflexivity.
Qed.

End Mp3Facts.

Section Mp3Blocks.
Import Mp3.

Lemma firstn_add_skipn {A} (a b : nat) : forall l : list A,
  firstn (a + b) l = firstn a l ++ firstn b (skipn a l).
Proof.
  induction a as [|a IH]; intros l; [reflexivity|].
  destruct l as [|x l]; cbn [Nat.add firstn skipn app].
  - now rewrite firstn_nil.
  - now rewrite IH.
Qed.

Lemma concat_chunks_from size (l : list Z) n : forall k,
  concat (map (fun k' => chunk size k' l) (seq k n)) = firstn (n * size) (skipn (k * size) l).
Proof.
  induction n as [|n IH]; intros k; [reflexivity|].
  cbn [seq map concat]. rewrite IH. unfold chunk at 1.
  replace (S n * size)%nat with (size + n * size)%nat by lia.
  rewrite firstn_add_skipn, skipn_skipn.
  replace (size + k * size)%nat with (S k * size)%nat by lia. reflexivity.
Qed.

(** The blocks cover the input, in order, with nothing lost or repeated. *)
Lemma concat_chunks size (l : list Z) :
  (0 < size)%nat ->
  concat (map (fun k => chunk size k l) (seq 0 (chunk_count size (length l)))) = l.
Proof.
  intros Hs. rewrite concat_chunks_from. cbn [Nat.mul skipn].
  apply firstn_all2.
  destruct (Nat.le_gt_cases (length l) (chunk_count size (length l) * size)) as [Hle|Hgt];
    [exact Hle|].
  apply (chunk_count_lt size (length l) _ Hs) in Hgt. lia.
Qed.

Lemma chunk_full size (l : list Z) k :
  (0 < size)%nat -> (S k < chunk_count size (length l))%nat -> length (chunk size k l) = size.
Proof.
  intros Hs Hk. apply (chunk_count_lt size (length l) (S k) Hs) in Hk.
  unfold chunk. rewrite length_firstn, length_skipn. lia.
Qed.

Lemma feed_Recorder inputs : forall log : list call,
  feed (E := list call) inputs log
  = Ok (map (fun _ => []) inputs, log ++ map as_call inputs).
Proof.
  induction inputs as [|[l r] inputs IH]; intros log.
  - cbn. now rewrite app_nil_r.
  - cbn [feed map]. unfold bind at 1. cbn [encodeBuffer Recorder].
    unfold bind at 1. rewrite IH. unfold ret. rewrite <- app_assoc. reflexivity.
Qed.

Lemma bufferToMp3_run_Recorder (R : Z) (N : nat) ch0 rest :
  bufferToMp3_run (E := list call)
    {| sampleRate := R; buf_length := N; channelData := ch0 :: rest |}
  = Ok ({| blob_bytes := []; blob_type := "audio/mpeg" |},
        map as_call (encoder_inputs (Sample.convertTo16Bit ch0) (converted_right ch0 rest))
        ++ [CallFlush]).
Proof.
  rewrite bufferToMp3_run_spec. cbn [Mp3Encoder Recorder].
  unfold payload_spec, bind. rewrite feed_Recorder. cbn [flush Recorder app].
  unfold ret. f_equal. f_equal. f_equal.
  induction (encoder_inputs _ _) as [|x xs IH]; [reflexivity|exact IH].
Qed.

Lemma encoder_inputs_length left right :
  length (encoder_inputs left right) = chunk_count 1152 (length left).
Proof. unfold encoder_inputs. now rewrite length_map, length_seq. Qed.

Lemma encoder_inputs_full left right :
  Forall (fun input => length (fst input) = 1152%nat) (removelast (encoder_inputs left right)).
Proof.
  unfold encoder_inputs.
  destruct (chunk_count 1152 (length left)) as [|m] eqn:Hc; [constructor|].
  rewrite seq_S, map_app. cbn [map]. rewrite removelast_last.
  apply Forall_forall. intros input Hin.
  apply in_map_iff in Hin. destruct Hin as (k & <- & Hk).
  apply in_seq in Hk. cbn [fst].
  apply chunk_full; lia.
Qed.

Lemma encoder_inputs_cover left right :
  concat (map fst (encoder_inputs left right)) = left.
Proof.
  unfold encoder_inputs. rewrite map_map. cbn [fst].
  apply concat_chunks. lia.
Qed.

End Mp3Blocks.

(** C8: the encoder receives the converted samples in blocks of 1152 per
    channel, in input order (the blocks are the successive slices of the
    input, together they are the input, and all but the last hold exactly
    1152 samples), then one flush; and for every encoder the payload is the
    concatenation, in emission order, of what the encoder returned for each
    block followed by what the flush returned. *)
Theorem C8_mp3_fed_in_chunks_then_flushed :
  forall (R : Z) (N : nat) (ch0 : list JS.number) (rest : list (list JS.number)),
    let buffer := {| sampleRate := R; buf_length := N; channelData := ch0 :: rest |} in
    let left := Sample.convertTo16Bit ch0 in
    let right := Mp3.converted_right ch0 rest in
    let inputs := Mp3.encoder_inputs left right in
    (exists blob : Blob,
        Mp3.bufferToMp3_run (E := list call) buffer
        = Ok (blob, map Mp3.as_call inputs ++ [CallFlush])) /\
    inputs = map (fun k => (firstn 1152 (skipn (k * 1152) left),
                            firstn 1152 (skipn (k * 1152) right)))
                 (seq 0 (length inputs)) /\
    concat (map fst inputs) = left /\
    Forall (fun input => length (fst input) = 1152%nat) (removelast inputs) /\
    (forall (E : Type) (L : Lame E),
        Mp3.bufferToMp3 buffer
        = match Mp3Encoder (S (length rest)) R 128 with
          | Throw e => Throw e
          | Ok encoder =>
              match Mp3.payload_spec left right encoder with
              | Ok (payload, _) => Ok {| blob_bytes := payload; blob_type := "audio/mpeg" |}
              | Throw e => Throw e
              end
          end).
Proof.
  intros R N ch0 rest buffer left right inputs.
  split; [eexists; apply bufferToMp3_run_Recorder|].
  split; [subst inputs; rewrite encoder_inputs_length; reflexivity|].
  split; [apply encoder_inputs_cover|].
  split; [apply encoder_inputs_full|].
  intros E L. unfold Mp3.bufferToMp3. subst buffer.
  rewrite bufferToMp3_run_spec.
  destruct (Mp3Encoder (S (length rest)) R 128) as [enc|e]; [|reflexivity].
  fold left right.
  destruct (Mp3.payload_spec left right enc) as [[p e']|e]; reflexivity.
Qed.

Lemma nth_convertTo16Bit (ch : list JS.number) (i : nat) :
  nth i (Sample.convertTo16Bit ch) 0%Z = Sample.wav_sample16 (nth i ch JS.NaN).
Proof.
  unfold Sample.convertTo16Bit.
  change 0%Z with (Sample.mp3_sample16 JS.NaN).
  rewrite map_nth. reflexivity.
Qed.

(** C7: the MP3 path converts every sample to the same integer as the WAV
    path; the integers handed to the encoder for the first two channels are
    the ones the WAV file stores for those channels; and for a mono buffer
    the right input is the left input, block by block. *)
Theorem C7_mp3_conversion_matches_wav :
  (forall x : JS.number, Sample.mp3_sample16 x = Sample.wav_sample16 x) /\
  (forall (R : Z) (N : nat) (ch0 : list JS.number) (rest : list (list JS.number)),
      let buffer := {| sampleRate := R; buf_length := N; channelData := ch0 :: rest |} in
      let C := numberOfChannels buffer in
      let left := Sample.convertTo16Bit ch0 in
      let right := Mp3.converted_right ch0 rest in
      exists wav mp3 : Blob,
        Wav.bufferToWav buffer = Ok wav /\
        Mp3.bufferToMp3_run (E := list call) buffer
        = Ok (mp3, map Mp3.as_call (Mp3.encoder_inputs left right) ++ [CallFlush]) /\
        (forall i : nat, (i < N)%nat ->
           nth i left 0%Z
           = DataView.getInt16 (blob_bytes wav) (44 + 2 * (i * C + 0)) true) /\
        (forall i : nat, (i < N)%nat -> (1 < C)%nat ->
           nth i right 0%Z
           = DataView.getInt16 (blob_bytes wav) (44 + 2 * (i * C + 1)) true) /\
        (C = 1%nat -> right = left /\
           Forall (fun input => fst input = snd input) (Mp3.encoder_inputs left right))).
Proof.
  split; [reflexivity|].
  intros R N ch0 rest buffer C left right.
  eexists. eexists.
  split; [apply bufferToWav_bytes|].
  split; [apply bufferToMp3_run_Recorder|].
  cbn [blob_bytes].
  split; [|split].
  - intros i Hi.
    rewrite <- (header_spec_length (numberOfChannels buffer) (sampleRate buffer) (buf_length buffer)).
    rewrite getInt16_data by (try exact Hi; unfold numberOfChannels; cbn; lia).
    subst left. rewrite nth_convertTo16Bit. reflexivity.
  - intros i Hi HC.
    rewrite <- (header_spec_length (numberOfChannels buffer) (sampleRate buffer) (buf_length buffer)).
    rewrite getInt16_data by (try exact Hi; exact HC).
    subst right. destruct rest as [|ch1 rest]; [cbn in HC; lia|].
    cbn [Mp3.converted_right]. rewrite nth_convertTo16Bit. reflexivity.
  - intros HC. destruct rest as [|ch1 rest]; [|cbn in HC; lia].
    split; [reflexivity|].
    subst right. cbn [Mp3.converted_right]. fold left.
    unfold Mp3.encoder_inputs. apply Forall_forall. intros input Hin.
    apply in_map_iff in Hin. destruct Hin as (k & <- & _). reflexivity.
Qed.

(** A mono buffer of three samples. *)
Lemma C7_mp3_conversion_matches_wav_witness :
  let ch0 := [JS.of_dyadic 3 (-1); JS.of_dyadic (-1) (-2); JS.of_Z (-1)] in
  let buffer := {| sampleRate := 44100; buf_length := 3; channelData := [ch0] |} in
  exists wav mp3 : Blob,
    Wav.bufferToWav buffer = Ok wav /\
    Mp3.bufferToMp3_run (E := list call) buffer
    = Ok (mp3, [CallEncode [32767; -8192; -32768]%Z [32767; -8192; -32768]%Z; CallFlush]) /\
    DataView.getInt16 (blob_bytes wav) 44 true = 32767%Z /\
    DataView.getInt16 (blob_bytes wav) 46 true = (-8192)%Z /\
    DataView.getInt16 (blob_bytes wav) 48 true = (-32768)%Z.
Proof.
  intros ch0 buffer.
  destruct (proj2 C7_mp3_conversion_matches_wav 44100%Z 3%nat ch0 [])
    as (wav & mp3 & Hw & Hm & Hl & _ & _).
  exists wav, mp3.
  split; [exact Hw|]. split; [exact Hm|].
  split; [|split].
  - transitivity (nth 0 (Sample.convertTo16Bit ch0) 0%Z);
      [symmetry; exact (Hl 0%nat ltac:(lia)) | vm_compute; reflexivity].
  - transitivity (nth 1 (Sample.convertTo16Bit ch0) 0%Z);
      [symmetry; exact (Hl 1%nat ltac:(lia)) | vm_compute; reflexivity].
  - transitivity (nth 2 (Sample.convertTo16Bit ch0) 0%Z);
      [symmetry; exact (Hl 2%nat ltac:(lia)) | vm_compute; reflexivity].
Defined.

(** ** Parameters, history, export and playback *)

Section ClosureFacts.

(** [loadFile] run as a closure of an earlier render: a missing context
    is built from the parameters of that render, and the parameters of the
    state stay as they are. *)
Lemma in_render_loadFile closure name decoded s :
  audioContextRef s = None ->
  exists g : LiveGraph,
    audioContextRef (in_render closure (loadFile name decoded) s) = Some g /\
    delayNode g = delayTime closure /\ feedbackGainNode g = feedback closure /\
    voiceBoostGainNode g = voiceBoost closure /\
    gain (clarityFilterNode g) = clarity closure /\
    params (in_render closure (loadFile name decoded) s) = params s.
Proof.
  intros Hc. unfold in_render, loadFile.
  set (s1 := stopAllPlayback (setParams (fun _ => closure) s)).
  assert (Hc1 : audioContextRef s1 = None) by exact Hc.
  assert (Hp1 : params s1 = closure) by reflexivity.
  clearbody s1.
  destruct s1 as [ab pv fn rf h p g pb al dl].
  cbn [audioContextRef] in Hc1. cbn [params] in Hp1. subst g p.
  eexists. destruct decoded; repeat split.
Qed.

(** An existing context is not built again. *)
Lemma in_render_keeps_context closure name decoded s g :
  audioContextRef s = Some g ->
  audioContextRef (in_render closure (loadFile name decoded) s) = Some g /\
  params (in_render closure (loadFile name decoded) s) = params s.
Proof.
  intros Hc. unfold in_render, loadFile.
  set (s1 := stopAllPlayback (setParams (fun _ => closure) s)).
  assert (Hc1 : audioContextRef s1 = Some g) by exact Hc.
  clearbody s1.
  destruct s1 as [ab pv fn rf h p g1 pb al dl].
  cbn [audioContextRef] in Hc1. subst g1.
  destruct decoded; split; reflexivity.
Qed.

End ClosureFacts.

(** C3 as stated fails: 0.95 is a value the feedback slider reports, and
    it reaches the feedback-gain node, offline and live, unchanged. *)
Lemma C3_feedback_at_bound_reaches_nodes :
  let s := onChange_feedback Lit.n0_95 two_exports in
  slider_reports feedbackSlider Lit.n0_95 = true /\
  g_feedbackGain (offline_graph (params s)) = Lit.n0_95 /\
  option_map feedbackGainNode (audioContextRef s) = Some Lit.n0_95 /\
  ~ feedback_kept_below_bound.
Proof.
  split; [vm_compute; reflexivity|]. split; [vm_compute; reflexivity|].
  split; [vm_compute; reflexivity|].
  intros Hc. specialize (Hc Lit.n0_95 two_exports). vm_compute in Hc. discriminate.
Qed.

(** C3, amended: the code neither clamps nor rejects.  An export builds
    its delay and feedback-gain nodes from exactly the values the sliders
    last reported.  The live nodes are written in three places and nowhere
    else: a slider change writes the reported value in place while the
    context exists; [setupAudioContext] run by a file load writes the
    values last reported; and [setupAudioContext] run by the [onstop]
    handler of a recorder, a closure of the render in which the recording
    was started, writes the values of that render, whatever the sliders
    have reported since.  A context that exists is never built again.  A
    reported value lies in the declared range of its slider, [0.01, 1.0]
    or [0, 0.95], ends included. *)
Theorem C3_parameters_reach_nodes_as_reported :
  forall (v_delay v_feedback : JS.number) (s : AppState),
    let s' := onChange_feedback v_feedback (onChange_delayTime v_delay s) in
    g_delay (offline_graph (params s')) = v_delay /\
    g_feedbackGain (offline_graph (params s')) = v_feedback /\
    (forall g : LiveGraph, audioContextRef s = Some g ->
       exists g' : LiveGraph,
         audioContextRef s' = Some g' /\ delayNode g' = v_delay /\
         feedbackGainNode g' = v_feedback) /\
    (audioContextRef s = None ->
       exists g' : LiveGraph,
         audioContextRef (setupAudioContext s') = Some g' /\ delayNode g' = v_delay /\
         feedbackGainNode g' = v_feedback) /\
    (slider_reports delaySlider v_delay = true ->
     slider_reports feedbackSlider v_feedback = true ->
     JS.leb Lit.n0_01 (g_delay (offline_graph (params s'))) = true /\
     JS.leb (g_delay (offline_graph (params s'))) Lit.n1 = true /\
     JS.leb Lit.n0 (g_feedbackGain (offline_graph (params s'))) = true /\
     JS.leb (g_feedbackGain (offline_graph (params s'))) Lit.n0_95 = true) /\
    (forall (name : string) (decoded : result AudioBuffer),
       (audioContextRef s = None ->
        exists g' : LiveGraph,
          audioContextRef (loadFile name decoded s') = Some g' /\
          delayNode g' = v_delay /\ feedbackGainNode g' = v_feedback) /\
       (forall g : LiveGraph, audioContextRef s' = Some g ->
          audioContextRef (loadFile name decoded s') = Some g)) /\
    (forall (closure : Params) (name : string) (decoded : result AudioBuffer),
       let loaded := in_render closure (loadFile name decoded) s' in
       (audioContextRef s = None ->
        exists g' : LiveGraph,
          audioContextRef loaded = Some g' /\
          delayNode g' = delayTime closure /\ feedbackGainNode g' = feedback closure) /\
       (forall g : LiveGraph, audioContextRef s' = Some g ->
          audioContextRef loaded = Some g) /\
       g_delay (offline_graph (params loaded)) = v_delay /\
       g_feedbackGain (offline_graph (params loaded)) = v_feedback).
Proof.
  intros v_delay v_feedback s s'.
  assert (Hd : g_delay (offline_graph (params s')) = v_delay)
    by (subst s'; destruct s as [ab pv fn rf h p [g|] pb al dl]; reflexivity).
  assert (Hf : g_feedbackGain (offline_graph (params s')) = v_feedback)
    by (subst s'; destruct s as [ab pv fn rf h p [g|] pb al dl]; reflexivity).
  assert (Hn : audioContextRef s = None -> audioContextRef s' = None).
  { intros Hg. subst s'. destruct s as [ab pv fn rf h p g0 pb al dl].
    cbn in Hg. subst g0. reflexivity. }
  split; [exact Hd|]. split; [exact Hf|]. split.
  { intros g Hg. subst s'. destruct s as [ab pv fn rf h p g0 pb al dl].
    cbn in Hg. subst g0. eexists. split; [reflexivity|]. split; reflexivity. }
  split.
  { intros Hg. subst s'. destruct s as [ab pv fn rf h p g0 pb al dl].
    cbn in Hg. subst g0. eexists. split; [reflexivity|]. split; reflexivity. }
  split.
  { rewrite Hd, Hf. unfold slider_reports. cbn [min max delaySlider feedbackSlider].
    intros H1 H2. apply andb_true_iff in H1, H2. tauto. }
  split.
  { intros name decoded.
    assert (Hsame : in_render (params s') (loadFile name decoded) s'
                    = loadFile name decoded s').
    { unfold in_render.
      replace (setParams (fun _ => params s') s') with s' by (destruct s'; reflexivity).
      assert (Hp : params (loadFile name decoded s') = params s').
      { unfold loadFile. set (s1 := stopAllPlayback s').
        assert (Hp1 : params s1 = params s') by reflexivity. clearbody s1.
        rewrite <- Hp1. crush_state s1; destruct decoded; reflexivity. }
      rewrite <- Hp. destruct (loadFile name decoded s'); reflexivity. }
    split.
    - intros Hg.
      destruct (in_render_loadFile (params s') name decoded s' (Hn Hg))
        as (g' & Ha & Hdn & Hfn & _).
      rewrite Hsame in Ha. exists g'. split; [exact Ha|].
      unfold offline_graph in Hd, Hf. cbn [g_delay g_feedbackGain] in Hd, Hf.
      rewrite Hdn, Hfn. split; assumption.
    - intros g Hg. rewrite <- Hsame.
      exact (proj1 (in_render_keeps_context (params s') name decoded s' g Hg)). }
  intros closure name decoded loaded. subst loaded. split.
  { intros Hg.
    destruct (in_render_loadFile closure name decoded s' (Hn Hg))
      as (g' & Ha & Hdn & Hfn & _).
    exists g'. split; [exact Ha|]. split; assumption. }
  split.
  { intros g Hg. exact (proj1 (in_render_keeps_context closure name decoded s' g Hg)). }
  assert (Hp : params (in_render closure (loadFile name decoded) s') = params s').
  { destruct (audioContextRef s') as [g|] eqn:Hg.
    - exact (proj2 (in_render_keeps_context closure name decoded s' g Hg)).
    - destruct (in_render_loadFile closure name decoded s' Hg) as (g' & _ & _ & _ & _ & _ & Hp).
      exact Hp. }
  rewrite Hp. split; assumption.
Qed.

(** Delay 0.5 and feedback 0.95 in the session [two_exports]; and delay
    0.1 and feedback 0.95 set before any context exists, with a recording
    started at the initial values loaded afterwards. *)
Lemma C3_parameters_reach_nodes_as_reported_witness :
  let s' := onChange_feedback Lit.n0_95 (onChange_delayTime Lit.n0_5 two_exports) in
  let t' := onChange_feedback Lit.n0_95 (onChange_delayTime Lit.n0_1 initial_state) in
  slider_reports delaySlider Lit.n0_5 = true /\
  slider_reports feedbackSlider Lit.n0_95 = true /\
  g_feedbackGain (offline_graph (params s')) = Lit.n0_95 /\
  JS.leb (g_feedbackGain (offline_graph (params s'))) Lit.n0_95 = true /\
  exists g' : LiveGraph,
    audioContextRef (in_render initial_params (loadFile "recording.wav" (Ok clip)) t')
    = Some g' /\
    delayNode g' = Lit.n0_5 /\ feedbackGainNode g' = Lit.n0_5.
Proof.
  intros s' t'.
  assert (H1 : slider_reports delaySlider Lit.n0_5 = true) by (vm_compute; reflexivity).
  assert (H2 : slider_reports feedbackSlider Lit.n0_95 = true) by (vm_compute; reflexivity).
  destruct (C3_parameters_reach_nodes_as_reported Lit.n0_5 Lit.n0_95 two_exports)
    as (_ & Hf & _ & _ & Hr & _).
  destruct (Hr H1 H2) as (_ & _ & _ & Hle).
  destruct (C3_parameters_reach_nodes_as_reported Lit.n0_1 Lit.n0_95 initial_state)
    as (_ & _ & _ & _ & _ & _ & Hstale).
  destruct (Hstale initial_params "recording.wav"%string (Ok clip)) as (Hnew & _).
  destruct (Hnew eq_refl) as (g' & Ha & Hdn & Hfn).
  repeat split; try assumption.
  exists g'. repeat split; assumption.
Defined.

(** C10 as stated fails: after off, on, off the live filter is allpass at
    5000 Hz, not the allpass filter at the host's initial 350 Hz that
    [setupAudioContext] left. *)
Lemma C10_filter_keeps_lowpass_frequency :
  option_map noiseReductionFilter (audioContextRef two_exports)
  = Some {| type := allpass; frequency := Lit.n350; Q := Lit.n1; gain := Lit.n0 |} /\
  option_map noiseReductionFilter (audioContextRef (toggled_off_on_off two_exports))
  = Some {| type := allpass; frequency := Lit.n5000; Q := Lit.n1; gain := Lit.n0 |} /\
  ~ noise_filter_restored.
Proof.
  split; [vm_compute; reflexivity|]. split; [vm_compute; reflexivity|].
  intros Hc.
  destruct (audioContextRef two_exports) as [g|] eqn:Hg; [|vm_compute in Hg; discriminate].
  specialize (Hc two_exports g Hg ltac:(vm_compute; reflexivity)).
  vm_compute in Hg. injection Hg as <-. vm_compute in Hc. discriminate.
Qed.

(** C10, amended: switching noise reduction off, on, off leaves the
    parameters as they were and returns the live filter's type to allpass,
    while the frequency and Q written by the enabled branch (5000 Hz, 1)
    stay on the node; the offline graph gets a fresh allpass filter. *)
Theorem C10_mode_restored_frequency_kept :
  forall (s : AppState) (g : LiveGraph),
    audioContextRef s = Some g ->
    isClarityOn (params s) = false ->
    let s' := toggled_off_on_off s in
    params s' = params s /\
    audioContextRef s'
    = Some (set_noiseReductionFilter
              (fun n => {| type := allpass; frequency := Lit.n5000; Q := Lit.n1;
                           gain := gain n |}) g) /\
    g_noiseReduction (offline_graph (params s')) = set_type allpass createBiquadFilter.
Proof.
  intros s g Hg Hoff s'. subst s'.
  destruct s as [ab pv fn rf h [dt fb ico vb cl] g0 pb al dl].
  cbn in Hg, Hoff. subst g0 ico.
  repeat split; reflexivity.
Qed.

(** The session [two_exports]. *)
Lemma C10_mode_restored_frequency_kept_witness :
  exists g : LiveGraph,
    audioContextRef two_exports = Some g /\
    isClarityOn (params two_exports) = false /\
    option_map (fun g' => type (noiseReductionFilter g'))
      (audioContextRef (toggled_off_on_off two_exports)) = Some allpass /\
    option_map (fun g' => frequency (noiseReductionFilter g'))
      (audioContextRef (toggled_off_on_off two_exports)) = Some Lit.n5000.
Proof.
  destruct (audioContextRef two_exports) as [g|] eqn:Hg; [|vm_compute in Hg; discriminate].
  exists g.
  assert (Hoff : isClarityOn (params two_exports) = false) by (vm_compute; reflexivity).
  destruct (C10_mode_restored_frequency_kept two_exports g Hg Hoff) as (_ & Hl & _).
  split; [reflexivity|]. split; [exact Hoff|].
  rewrite Hl. split; reflexivity.
Defined.

Section HistoryFacts.

Lemma history_insert_cons item prev : history_insert item prev = item :: firstn 9 prev.
Proof. reflexivity. Qed.

Lemma history_insert_length item prev : (length (history_insert item prev) <= 10)%nat.
Proof. unfold history_insert. rewrite length_firstn. lia. Qed.

Lemma firstn_removelast {A} (l : list A) n : length l = S n -> firstn n l = removelast l.
Proof.
  revert n. induction l as [|a l IH]; intros n Hl; [discriminate|].
  destruct l as [|b l].
  - cbn in Hl. injection Hl as <-. reflexivity.
  - destruct n as [|n]; [cbn in Hl; lia|].
    cbn [firstn]. rewrite IH by (cbn in *; lia). reflexivity.
Qed.

Lemma history_insert_full item prev :
  length prev = 10%nat ->
  history_insert item prev = item :: removelast prev /\
  length (history_insert item prev) = 10%nat.
Proof.
  intros Hl. rewrite history_insert_cons, (firstn_removelast prev 9 Hl).
  split; [reflexivity|]. cbn [length]. rewrite <- (firstn_removelast prev 9 Hl).
  rewrite length_firstn. lia.
Qed.

Lemma firstn_firstn_cons {A} (x : A) (l : list A) n :
  firstn (S n) (x :: firstn (S n) l) = firstn (S n) (x :: l).
Proof.
  rewrite !firstn_cons, firstn_firstn. do 2 f_equal. lia.
Qed.

Lemma history_after_inserts (items : list HistoryItem) : forall h,
  fold_left (fun h x => history_insert x h) items (firstn 10 h) = firstn 10 (rev items ++ h).
Proof.
  induction items as [|x items IH]; intros h; [reflexivity|].
  cbn [fold_left rev]. unfold history_insert at 2.
  rewrite firstn_firstn_cons. rewrite (IH (x :: h)). now rewrite <- app_assoc.
Qed.

End HistoryFacts.

Section ExportFacts.
Context {E : Type} `{Lame E}.

Lemma handleDownload_no_buffer format host s :
  audioBuffer s = None -> handleDownload format host s = (Ok tt, s).
Proof. intros Hb. unfold handleDownload. now rewrite Hb. Qed.

Lemma handleDownload_failure format host s b e :
  audioBuffer s = Some b ->
  export_attempt host (params s) b = Throw e ->
  handleDownload format host s = (Ok tt, after_failed_export format s).
Proof.
  intros Hb Hf. unfold handleDownload. rewrite Hb.
  unfold export_attempt in Hf.
  unfold act_bind, modify, try_catch_finally, lift, after_failed_export.
  cbn [params setRenderingFormat].
  destruct (new_OfflineAudioContext host _ _ _) as [u|e0]; [|reflexivity].
  destruct (startRendering host _ b) as [r|e0]; [|reflexivity].
  destruct (Wav.bufferToWav r) as [w|e0]; [|reflexivity].
  destruct (Mp3.bufferToMp3 r) as [m|e0]; [discriminate|reflexivity].
Qed.

Lemma handleDownload_success format host s b r w m :
  audioBuffer s = Some b ->
  export_attempt host (params s) b = Ok (r, w, m) ->
  let item := render_result host (fileName s) r w m in
  let s' := snd (handleDownload format host s) in
  fst (handleDownload format host s) = Ok tt /\
  history s' = history_insert item (history s) /\
  audioBuffer s' = audioBuffer s /\
  renderingFormat s' = None.
Proof.
  intros Hb Hs item s'. subst s' item. unfold handleDownload. rewrite Hb.
  unfold export_attempt in Hs.
  unfold act_bind, modify, try_catch_finally, lift.
  cbn [params setRenderingFormat fileName].
  destruct (new_OfflineAudioContext host _ _ _) as [u|e0]; [|discriminate].
  destruct (startRendering host _ b) as [r'|e0]; [|discriminate].
  destruct (Wav.bufferToWav r') as [w'|e0]; [|discriminate].
  destruct (Mp3.bufferToMp3 r') as [m'|e0]; [|discriminate].
  injection Hs as -> -> ->.
  destruct (click_download host _ _) as [u'|e0]; cbn; repeat split;
    try reflexivity; now rewrite Hb.
Qed.

End ExportFacts.

Section SessionFacts.
Context {E : Type} `{Lame E}.

Lemma handle_history (ev : event) (s : AppState) :
  history (handle ev s) = history s \/
  exists item : HistoryItem, history (handle ev s) = history_insert item (history s).
Proof.
  destruct ev as [name decoded|format host| | |t|rb|index|index|sid|v|v|v|v|b]; cbn [handle].
  - left. crush_state s; destruct decoded; reflexivity.
  - destruct (renderingFormat s); [left; reflexivity|].
    destruct (audioBuffer s) as [b|] eqn:Hb.
    + destruct (export_attempt host (params s) b) as [[[r w] m]|e] eqn:He.
      * right. eexists. apply (handleDownload_success format host s b r w m Hb He).
      * left. rewrite (handleDownload_failure format host s b e Hb He). reflexivity.
    + left. now rewrite handleDownload_no_buffer.
  - left. crush_state s; destruct ab; destruct ipo; reflexivity.
  - left. crush_state s; destruct ab; destruct ipp; reflexivity.
  - left. crush_state s; destruct ab; destruct t; destruct pv; destruct pp as [[|]|]; reflexivity.
  - left. reflexivity.
  - left. destruct (nth_error (history s) index); reflexivity.
  - left. destruct (nth_error (history s) index) as [item|]; [|reflexivity].
    unfold handleHistoryPlay.
    destruct (match playingHistoryId (playback s) with Some i => (i =? id item)%Z | None => false end);
      [reflexivity|].
    crush_state s; reflexivity.
  - left. unfold dispatch_ended.
    destruct (find _ _) as [src|]; [|reflexivity].
    destruct (src_playing src || src_ended_pending src); [|reflexivity].
    destruct (src_onended src) as [ | | |[|]]; reflexivity.
  - left. crush_state s; reflexivity.
  - left. crush_state s; reflexivity.
  - left. crush_state s; reflexivity.
  - left. crush_state s; reflexivity.
  - left. unfold setEnabled_noiseReduction.
    destruct (Bool.eqb b (isClarityOn (params s))); [reflexivity|].
    destruct s as [ab pv fn rf h [dt fb ico vb cl] [g|] pb al dl]; destruct b; reflexivity.
Qed.

Lemma run_history_length (evs : list event) : forall s,
  (length (history s) <= 10)%nat -> (length (history (run evs s)) <= 10)%nat.
Proof.
  induction evs as [|ev evs IH]; intros s Hs; [exact Hs|].
  cbn [run fold_left]. apply IH.
  destruct (handle_history ev s) as [Heq|[item Heq]]; rewrite Heq;
    [exact Hs | apply history_insert_length].
Qed.

End SessionFacts.

(** C4: an insertion puts the new result in front of the nine newest old
    ones, so the store never exceeds ten entries; inserting into a full
    store drops exactly the last (oldest) entry and keeps the others as
    they were, in order; after any sequence of insertions the store is the
    ten most recent results, newest first; and no event of a session
    changes the store other than by such an insertion. *)
Theorem C4_history_capped_newest_first :
  (forall (item : HistoryItem) (prev : list HistoryItem),
      history_insert item prev = item :: firstn 9 prev /\
      (length (history_insert item prev) <= 10)%nat) /\
  (forall (item : HistoryItem) (prev : list HistoryItem),
      length prev = 10%nat ->
      history_insert item prev = item :: removelast prev /\
      length (history_insert item prev) = 10%nat) /\
  (forall items : list HistoryItem,
      fold_left (fun h x => history_insert x h) items [] = firstn 10 (rev items)) /\
  (forall (E : Type) (L : Lame E) (ev : event) (s : AppState),
      history (handle ev s) = history s \/
      exists item : HistoryItem, history (handle ev s) = history_insert item (history s)) /\
  (forall (E : Type) (L : Lame E) (evs : list event),
      (length (history (run evs initial_state)) <= 10)%nat).
Proof.
  split; [intros item prev; split; [reflexivity | apply history_insert_length]|].
  split; [intros item prev; apply history_insert_full|].
  split.
  - intros items. pose proof (history_after_inserts items []) as Hh.
    cbn [firstn] in Hh. now rewrite app_nil_r in Hh.
  - split; [intros E L ev s; apply handle_history|].
    intros E L evs. apply run_history_length. cbn. lia.
Qed.

(** A full store with ids 10 down to 1 receives the result with id 11. *)
Lemma C4_history_capped_newest_first_witness :
  let prev := rev (numbered 10) in
  let item := render_result (host_ok 11) "clip.wav" clip
                {| blob_bytes := []; blob_type := "audio/wav" |}
                {| blob_bytes := []; blob_type := "audio/mpeg" |} in
  length prev = 10%nat /\
  map id prev = [10; 9; 8; 7; 6; 5; 4; 3; 2; 1]%Z /\
  map id (history_insert item prev) = [11; 10; 9; 8; 7; 6; 5; 4; 3; 2]%Z /\
  history_insert item prev = item :: removelast prev.
Proof.
  intros prev item.
  assert (Hl : length prev = 10%nat) by (vm_compute; reflexivity).
  split; [exact Hl|]. split; [vm_compute; reflexivity|]. split; [vm_compute; reflexivity|].
  exact (proj1 (proj1 (proj2 C4_history_capped_newest_first) item prev Hl)).
Defined.

(** C5: when the offline context, the render, the WAV encoding or the MP3
    encoding of an export throws, [handleDownload] returns normally and
    leaves the state as it was except for the alert shown and the cleared
    rendering flag: the audio buffer, the history and the downloads are
    unchanged, so no Render Result is stored. *)
Theorem C5_failed_export_changes_nothing :
  forall (E : Type) (L : Lame E) (format : Format) (host : Host) (s : AppState)
         (b : AudioBuffer) (e : exn),
    audioBuffer s = Some b ->
    export_attempt host (params s) b = Throw e ->
    let outcome := fst (handleDownload format host s) in
    let s' := snd (handleDownload format host s) in
    outcome = Ok tt /\
    s' = after_failed_export format s /\
    audioBuffer s' = audioBuffer s /\
    history s' = history s /\
    downloads s' = downloads s.
Proof.
  intros E L format host s b e Hb Hf outcome s'. subst outcome s'.
  rewrite (handleDownload_failure format host s b e Hb Hf).
  repeat split; reflexivity.
Qed.

(** A rejected render in the session [two_exports]. *)
Lemma C5_failed_export_changes_nothing_witness :
  audioBuffer two_exports = Some clip /\
  export_attempt (E := unit) (host_render_fails 3000) (params two_exports) clip
  = Throw RenderError /\
  fst (handleDownload (E := unit) WAV (host_render_fails 3000) two_exports) = Ok tt /\
  history (snd (handleDownload (E := unit) WAV (host_render_fails 3000) two_exports))
  = history two_exports /\
  audioBuffer (snd (handleDownload (E := unit) WAV (host_render_fails 3000) two_exports))
  = audioBuffer two_exports.
Proof.
  assert (Hb : audioBuffer two_exports = Some clip) by (vm_compute; reflexivity).
  assert (Hf : export_attempt (E := unit) (host_render_fails 3000) (params two_exports) clip
               = Throw RenderError) by (vm_compute; reflexivity).
  destruct (C5_failed_export_changes_nothing unit Echo WAV (host_render_fails 3000)
              two_exports clip RenderError Hb Hf) as (Ho & _ & Ha & Hh & _).
  repeat split; assumption.
Defined.

(** C9 as stated fails: two exports at the same clock reading get the same
    id, and an export at an earlier reading gets a smaller id than the
    result stored before it. *)
Lemma C9_equal_or_earlier_clock_reading :
  map id (history (run (E := unit)
                     [LoadFile "clip.wav" (Ok clip);
                      Download WAV (host_ok 1000); Download MP3 (host_ok 1000)]
                     initial_state))
  = [1000; 1000]%Z /\
  map id (history (run (E := unit)
                     [LoadFile "clip.wav" (Ok clip);
                      Download WAV (host_ok 1000); Download MP3 (host_ok 999)]
                     initial_state))
  = [999; 1000]%Z /\
  ~ ids_strictly_increase.
Proof.
  split; [vm_compute; reflexivity|]. split; [vm_compute; reflexivity|].
  intros Hc.
  specialize (Hc [LoadFile "clip.wav" (Ok clip);
                  Download WAV (host_ok 1000); Download MP3 (host_ok 1000)]).
  vm_compute in Hc.
  inversion Hc as [|a l _ Hall]; subst.
  inversion Hall as [|b l' Hlt _]; subst.
  cbv in Hlt. discriminate.
Qed.

(** C9, amended: the id of a Render Result is the host's clock reading at
    its creation; of two results of successive successful exports, the
    later one has the strictly greater id exactly when the clock reading was
    strictly greater at its creation. *)
Theorem C9_id_is_the_clock_reading :
  forall (E : Type) (L : Lame E) (f1 f2 : Format) (h1 h2 : Host) (s : AppState)
         (b1 r1 b2 r2 : AudioBuffer) (w1 m1 w2 m2 : Blob),
    audioBuffer s = Some b1 ->
    export_attempt h1 (params s) b1 = Ok (r1, w1, m1) ->
    let s1 := snd (handleDownload f1 h1 s) in
    audioBuffer s1 = Some b2 ->
    export_attempt h2 (params s1) b2 = Ok (r2, w2, m2) ->
    let s2 := snd (handleDownload f2 h2 s1) in
    exists earlier later : HistoryItem,
      nth_error (history s1) 0 = Some earlier /\
      nth_error (history s2) 0 = Some later /\
      nth_error (history s2) 1 = Some earlier /\
      id earlier = Date_now h1 /\
      id later = Date_now h2 /\
      ((id earlier < id later)%Z <-> (Date_now h1 < Date_now h2)%Z).
Proof.
  intros E L f1 f2 h1 h2 s b1 r1 b2 r2 w1 m1 w2 m2 Hb1 He1 s1 Hb2 He2 s2.
  destruct (handleDownload_success f1 h1 s b1 r1 w1 m1 Hb1 He1) as (_ & Hh1 & _).
  destruct (handleDownload_success f2 h2 s1 b2 r2 w2 m2 Hb2 He2) as (_ & Hh2 & _).
  fold s1 in Hh1. fold s2 in Hh2.
  exists (render_result h1 (fileName s) r1 w1 m1), (render_result h2 (fileName s1) r2 w2 m2).
  rewrite Hh2, Hh1. rewrite !history_insert_cons.
  repeat split; intros; assumption.
Qed.

(** Two exports of [clip], at readings 1000 and 2000. *)
Lemma C9_id_is_the_clock_reading_witness :
  let s := loadFile "clip.wav" (Ok clip) initial_state in
  let s1 := snd (handleDownload (E := unit) WAV (host_ok 1000) s) in
  let s2 := snd (handleDownload (E := unit) MP3 (host_ok 2000) s1) in
  audioBuffer s = Some clip /\ audioBuffer s1 = Some clip /\
  exists earlier later : HistoryItem,
    nth_error (history s2) 0 = Some later /\
    nth_error (history s2) 1 = Some earlier /\
    id earlier = 1000%Z /\ id later = 2000%Z.
Proof.
  intros s s1 s2.
  assert (Hb1 : audioBuffer s = Some clip) by (vm_compute; reflexivity).
  assert (Hb2 : audioBuffer s1 = Some clip) by (vm_compute; reflexivity).
  split; [exact Hb1|]. split; [exact Hb2|].
  destruct (export_attempt (E := unit) (host_ok 1000) (params s) clip)
    as [[[r1 w1] m1]|e1] eqn:He1; [|vm_compute in He1; discriminate].
  destruct (export_attempt (E := unit) (host_ok 2000) (params s1) clip)
    as [[[r2 w2] m2]|e2] eqn:He2; [|vm_compute in He2; discriminate].
  destruct (C9_id_is_the_clock_reading unit Echo WAV MP3 (host_ok 1000) (host_ok 2000)
              s clip r1 clip r2 w1 m1 w2 m2 Hb1 He1 Hb2 He2)
    as (earlier & later & _ & H0 & H1 & Hi1 & Hi2 & _).
  exists earlier, later. repeat split; assumption.
Defined.

Section PlaybackFacts.

Lemma host_stop_playing sid srcs src :
  In src (host_stop sid srcs) -> src_playing src = true ->
  In src srcs /\ src_id src <> sid.
Proof.
  unfold host_stop. intros Hin Hp. apply in_map_iff in Hin.
  destruct Hin as (src0 & Heq & Hin0).
  destruct (Nat.eqb (src_id src0) sid && src_playing src0) eqn:Hc.
  - subst src. cbn in Hp. discriminate.
  - subst src0. split; [exact Hin0|].
    intros Hid. rewrite Hid, Nat.eqb_refl, Hp in Hc. discriminate.
Qed.

Lemma stop_refs_playing refs : forall srcs src,
  In src (stop_refs refs srcs) -> src_playing src = true ->
  In src srcs /\ ~ In (Some (src_id src)) refs.
Proof.
  induction refs as [|[sid|] refs IH]; intros srcs src Hin Hp; cbn [stop_refs fold_left] in Hin.
  - split; [exact Hin | intros []].
  - destruct (IH _ _ Hin Hp) as (Hin' & Hn).
    destruct (host_stop_playing sid srcs src Hin' Hp) as (Hin0 & Hid).
    split; [exact Hin0|]. intros [Heq|Hr]; [injection Heq as ->; now apply Hid | now apply Hn].
  - destruct (IH _ _ Hin Hp) as (Hin' & Hn).
    split; [exact Hin'|]. intros [Heq|Hr]; [discriminate | now apply Hn].
Qed.

Lemma stopAllPlayback_sources (s : AppState) :
  sources (playback (stopAllPlayback s))
  = stop_refs (refs_of (playback s)) (sources (playback s)).
Proof.
  destruct s as [ab pv fn rf h p g [ipo ipp phi pp osr psr hsr bsr asr srcs] al dl].
  destruct osr, psr, hsr, bsr, asr; reflexivity.
Qed.

(** As long as every sounding source is still referenced, stopping all
    playback silences everything. *)
Lemma stopAllPlayback_silences_tracked (s : AppState) :
  tracked (playback s) -> active_sources (stopAllPlayback s) = [].
Proof.
  intros Ht. unfold active_sources. rewrite stopAllPlayback_sources.
  destruct (filter src_playing _) as [|src l] eqn:Hf; [reflexivity|].
  assert (Hin : In src (filter src_playing
                          (stop_refs (refs_of (playback s)) (sources (playback s)))))
    by (rewrite Hf; now left).
  apply filter_In in Hin. destruct Hin as (Hin & Hp).
  destruct (stop_refs_playing _ _ _ Hin Hp) as (Hin0 & Hn).
  exfalso. apply Hn. now apply Ht.
Qed.

End PlaybackFacts.

(** C6 fails on this run: in a session with two history entries, play the
    first, then the second.  The first source is stopped and the second one
    sounds alone.  Then the first source's [ended] event is dispatched: its
    handler clears [historySourceRef], which by now refers to the second
    source.  Starting the original playback calls [stopAllPlayback], which
    no longer reaches the second source, and two sources sound together. *)
Theorem C6_two_sources_sound_together :
  let s2 := run (E := unit) [HistoryPlay 0; HistoryPlay 1] two_exports in
  let s3 := run (E := unit) [Ended 0] s2 in
  let s4 := run (E := unit) [ToggleOriginal] s3 in
  two_exports = run (E := unit) two_exports_events initial_state /\
  map id (history two_exports) = [2000; 1000]%Z /\
  map src_id (active_sources s2) = [1%nat] /\
  historySourceRef (playback s2) = Some 1%nat /\
  map src_id (active_sources s3) = [1%nat] /\
  historySourceRef (playback s3) = None /\
  map src_id (active_sources s4) = [1%nat; 2%nat] /\
  map src_onended (active_sources s4) = [KHistory; KOriginal] /\
  ~ at_most_one_source_active.
Proof.
  split; [vm_compute; reflexivity|].
  do 7 (split; [vm_compute; reflexivity|]).
  intros Hc.
  specialize (Hc (two_exports_events ++ [HistoryPlay 0; HistoryPlay 1; Ended 0; ToggleOriginal])).
  vm_compute in Hc. lia.
Qed.

(** * Further properties *)

(** ** The WAV writer *)

Section WavMore.
Import DataView Wav.

Lemma charCodeAt_byte c : (0 <= charCodeAt c < 256)%Z.
Proof. unfold charCodeAt. pose proof (nat_ascii_bounded c). lia. Qed.

Lemma setBytes_length off bs view view' :
  setBytes off bs view = Ok (tt, view') -> length view' = length view.
Proof.
  unfold setBytes. destruct (off + length bs <=? length view)%nat eqn:Hle; [|discriminate].
  apply Nat.leb_le in Hle. intros Heq. injection Heq as <-.
  rewrite !length_app, length_firstn, length_skipn. lia.
Qed.

Lemma writeString_from_fill s : forall i offset pre old post,
  length pre = (offset + i)%nat ->
  length old = String.length s ->
  writeString_from i offset s (pre ++ old ++ post)
  = Ok (tt, pre ++ map charCodeAt (list_ascii_of_string s) ++ post).
Proof.
  induction s as [|c s IH]; intros i offset pre old post Hpre Hold.
  - destruct old; [reflexivity|discriminate].
  - destruct old as [|o old]; [discriminate|].
    cbn [writeString_from list_ascii_of_string map]. unfold bind at 1, setUint8.
    rewrite <- Hpre.
    change (pre ++ (o :: old) ++ post) with (pre ++ [o] ++ old ++ post).
    rewrite (setBytes_fill pre (le_bytes 1 (charCodeAt c)) [o] (old ++ post)) by reflexivity.
    cbn [le_bytes]. rewrite (Z.mod_small _ 256) by apply charCodeAt_byte.
    change (pre ++ [charCodeAt c] ++ old ++ post) with (pre ++ (charCodeAt c :: old ++ post)).
    replace (pre ++ charCodeAt c :: old ++ post) with ((pre ++ [charCodeAt c]) ++ old ++ post)
      by (now rewrite <- app_assoc).
    rewrite IH.
    + now rewrite <- app_assoc.
    + rewrite length_app. cbn [length]. lia.
    + cbn in Hold. lia.
Qed.

Lemma writeString_from_range s : forall i offset view,
  s <> EmptyString ->
  (length view < offset + i + String.length s)%nat ->
  writeString_from i offset s view = Throw RangeError.
Proof.
  induction s as [|c s IH]; intros i offset view Hne Hlen; [congruence|].
  cbn [writeString_from]. unfold bind at 1, setUint8.
  destruct (setBytes (offset + i) (le_bytes 1 (charCodeAt c)) view) as [[[] view']|e] eqn:Hs.
  - pose proof (setBytes_length _ _ _ _ Hs) as Hl.
    unfold setBytes in Hs. cbn [le_bytes length] in Hs.
    destruct (offset + i + 1 <=? length view)%nat eqn:Hle; [|discriminate].
    apply Nat.leb_le in Hle.
    destruct s as [|c' s']; [cbn in Hlen; lia|].
    apply IH; [discriminate|]. rewrite Hl. cbn [String.length] in *. lia.
  - unfold setBytes in Hs. destruct (_ <=? _)%nat; [discriminate|]. now injection Hs as <-.
Qed.

(** X1: writeString(view, offset, s) overwrites exactly the String.length(s)
    bytes of the view that start at offset with the character codes of s, in
    order, and leaves every other byte as it was; when the string is not
    empty and does not fit (offset + length exceeds the view's byte length)
    it throws RangeError. *)
Theorem X1_writeString_fills_or_throws (s : string) (offset : nat) :
  (forall pre old post : list Z,
      length pre = offset -> length old = String.length s ->
      writeString offset s (pre ++ old ++ post)
      = Ok (tt, pre ++ map charCodeAt (list_ascii_of_string s) ++ post)) /\
  (forall view : list Z,
      s <> EmptyString -> (length view < offset + String.length s)%nat ->
      writeString offset s view = Throw RangeError).
Proof.
  split.
  - intros pre old post Hpre Hold. apply writeString_from_fill; [lia|exact Hold].
  - intros view Hne Hlen. apply writeString_from_range; [exact Hne|lia].
Qed.

Lemma X1_writeString_fills_or_throws_witness :
  writeString 2 "ab" [0; 0; 0; 0; 0]%Z = Ok (tt, [0; 0; 97; 98; 0]%Z) /\
  writeString 4 "ab" [0; 0; 0; 0; 0]%Z = Throw RangeError.
Proof.
  split.
  - exact (proj1 (X1_writeString_fills_or_throws "ab" 2) [0; 0]%Z [0; 0]%Z [0%Z] eq_refl eq_refl).
  - apply (proj2 (X1_writeString_fills_or_throws "ab" 4)); [discriminate | cbn; lia].
Defined.

Lemma le_bytes_are_bytes width : forall v, Forall is_byte (le_bytes width v).
Proof.
  induction width as [|w IH]; intros v; cbn [le_bytes]; constructor.
  - apply Z.mod_pos_bound. lia.
  - apply IH.
Qed.

Lemma chars_are_bytes s : Forall is_byte (map charCodeAt (list_ascii_of_string s)).
Proof.
  induction s as [|c s IH]; cbn; constructor; [apply charCodeAt_byte | exact IH].
Qed.

Lemma Forall_flat_map {A B} (P : B -> Prop) (f : A -> list B) (l : list A) :
  (forall a, Forall P (f a)) -> Forall P (flat_map f l).
Proof.
  intros Hf. induction l as [|a l IH]; cbn [flat_map]; [constructor|].
  apply Forall_app. split; [apply Hf | exact IH].
Qed.

Lemma header_spec_bytes C R N : Forall is_byte (header_spec C R N).
Proof.
  unfold header_spec.
  repeat (apply Forall_app; split);
    first [apply chars_are_bytes | apply le_bytes_are_bytes].
Qed.

Lemma data_spec_bytes channels C N : Forall is_byte (data_spec channels C N).
Proof.
  unfold data_spec, frame_spec.
  apply Forall_flat_map. intros i. apply Forall_flat_map. intros j.
  apply le_bytes_are_bytes.
Qed.

(** X2: For every buffer bufferToWav returns a Blob of type audio/wav all of
    whose bytes lie in 0..255. When the values fit the header's fields
    (fits_header) the sizes it writes agree with the file: the RIFF size
    field at offset 4 is the file length minus 8, the data size field at
    offset 40 is the file length minus 44 and equals the frame count times
    the block align field, and the byte rate field equals the sample rate
    field times the block align field. *)
Theorem X2_wav_bytes_and_sizes :
  forall buffer : AudioBuffer,
    let C := numberOfChannels buffer in
    let R := sampleRate buffer in
    let N := buf_length buffer in
    exists wav : Blob,
      bufferToWav buffer = Ok wav /\
      blob_type wav = "audio/wav"%string /\
      Forall (fun b => (0 <= b < 256)%Z) (blob_bytes wav) /\
      (fits_header C R N ->
         getUint32 (blob_bytes wav) 4 true = (Z.of_nat (length (blob_bytes wav)) - 8)%Z /\
         getUint32 (blob_bytes wav) 40 true = (Z.of_nat (length (blob_bytes wav)) - 44)%Z /\
         getUint32 (blob_bytes wav) 28 true
         = (getUint32 (blob_bytes wav) 24 true * getUint16 (blob_bytes wav) 32 true)%Z /\
         getUint32 (blob_bytes wav) 40 true
         = (Z.of_nat N * getUint16 (blob_bytes wav) 32 true)%Z).
Proof.
  intros buffer C R N.
  eexists. split; [apply bufferToWav_bytes|]. cbn [blob_bytes blob_type].
  split; [reflexivity|]. fold C R N. split.
  - apply Forall_app. split; [apply header_spec_bytes | apply data_spec_bytes].
  - intros (HC & HR & HB & HD).
    destruct (header_fields C R N (data_spec (channelData buffer) C N))
      as (_ & _ & _ & _ & F4 & _ & _ & _ & F24 & F28 & F32 & _ & F40).
    cbv zeta in *.
    rewrite F4, F24, F28, F32, F40.
    rewrite length_app, header_spec_length, data_spec_length.
    unfold JS.ToUint16Z, JS.ToUint32Z.
    rewrite !Z.mod_small by lia.
    repeat split; lia.
Qed.

Lemma X2_wav_bytes_and_sizes_witness :
  let buffer := {| sampleRate := 44100; buf_length := 1000;
                   channelData := [repeat Sample.c0 1000; repeat Sample.c0 1000] |} in
  fits_header 2 44100 1000 /\
  exists wav : Blob,
    bufferToWav buffer = Ok wav /\
    getUint32 (blob_bytes wav) 4 true = (Z.of_nat (length (blob_bytes wav)) - 8)%Z /\
    getUint32 (blob_bytes wav) 40 true = (Z.of_nat (length (blob_bytes wav)) - 44)%Z.
Proof.
  intros buffer.
  assert (H : fits_header 2 44100 1000) by (unfold fits_header; lia).
  split; [exact H|].
  destruct (X2_wav_bytes_and_sizes buffer) as (wav & Hw & _ & _ & Hf).
  destruct (Hf H) as (H4 & H40 & _).
  exists wav. repeat split; assumption.
Defined.

End WavMore.

(** ** The MP3 feeder *)

Section Mp3More.
Import Mp3.

Lemma chunk_count_ceil len :
  (len <= chunk_count 1152 len * 1152 < len + 1152)%nat.
Proof.
  split.
  - destruct (Nat.le_gt_cases len (chunk_count 1152 len * 1152)) as [Hle|Hgt]; [exact Hle|].
    apply (chunk_count_lt 1152 len _ ltac:(lia)) in Hgt. lia.
  - destruct (chunk_count 1152 len) as [|k] eqn:Hc; [lia|].
    assert (Hk : (k < chunk_count 1152 len)%nat) by lia.
    apply (chunk_count_lt 1152 len k ltac:(lia)) in Hk. lia.
Qed.

(** X3: bufferToMp3 calls encodeBuffer ceil(n / 1152) times for a first
    channel of n samples (with a recording encoder the log holds k encode
    calls followed by one flush, with n <= 1152 k < n + 1152); for an empty
    first channel, with any encoder, it only constructs the encoder and
    flushes it, and the Blob of type audio/mpeg holds the flush output
    alone. *)
Theorem X3_mp3_call_count :
  forall (R : Z) (N : nat) (ch0 : list JS.number) (rest : list (list JS.number)),
    let buffer := {| sampleRate := R; buf_length := N; channelData := ch0 :: rest |} in
    (exists (blob : Blob) (inputs : list (list Z * list Z)),
        bufferToMp3_run (E := list call) buffer
        = Ok (blob, map as_call inputs ++ [CallFlush]) /\
        (length ch0 <= length inputs * 1152 < length ch0 + 1152)%nat) /\
    (forall (E : Type) (L : Lame E),
        ch0 = [] ->
        bufferToMp3 buffer
        = match Mp3Encoder (S (length rest)) R 128 with
          | Throw e => Throw e
          | Ok encoder =>
              match flush encoder with
              | Ok (final, _) => Ok {| blob_bytes := final; blob_type := "audio/mpeg" |}
              | Throw e => Throw e
              end
          end).
Proof.
  intros R N ch0 rest buffer. split.
  - eexists. eexists. split; [apply bufferToMp3_run_Recorder|].
    rewrite encoder_inputs_length. unfold Sample.convertTo16Bit. rewrite length_map.
    apply chunk_count_ceil.
  - intros E L ->. unfold bufferToMp3. subst buffer. rewrite bufferToMp3_run_spec.
    destruct (Mp3Encoder (S (length rest)) R 128) as [enc|e]; [|reflexivity].
    unfold payload_spec. cbn. unfold bind, ret.
    destruct (flush enc) as [[final e']|e]; reflexivity.
Qed.

Lemma X3_mp3_call_count_witness :
  let buffer := {| sampleRate := 44100; buf_length := 0; channelData := [[]] |} in
  bufferToMp3 (E := unit) buffer = Ok {| blob_bytes := [255%Z]; blob_type := "audio/mpeg" |}.
Proof.
  intros buffer.
  exact (proj2 (X3_mp3_call_count 44100 0 [] []) unit Echo eq_refl).
Defined.

(** X4: With any encoder, bufferToMp3 reads only the first two channels of a
    buffer: two buffers with the same sample rate, the same number of
    channels and the same first and second channel give the same result,
    whatever their further channels and their length field hold (the encoder
    is still constructed with the full channel count). *)
Theorem X4_mp3_uses_two_channels :
  forall (E : Type) (L : Lame E) (R : Z) (N N' : nat) (ch0 ch1 : list JS.number)
         (rest rest' : list (list JS.number)),
    length rest = length rest' ->
    bufferToMp3 {| sampleRate := R; buf_length := N; channelData := ch0 :: ch1 :: rest |}
    = bufferToMp3 {| sampleRate := R; buf_length := N'; channelData := ch0 :: ch1 :: rest' |}.
Proof.
  intros E L R N N' ch0 ch1 rest rest' Hl. unfold bufferToMp3.
  rewrite !bufferToMp3_run_spec. cbn [length converted_right]. now rewrite Hl.
Qed.

Lemma X4_mp3_uses_two_channels_witness :
  bufferToMp3 (E := unit)
    {| sampleRate := 8000; buf_length := 1;
       channelData := [[Lit.n1]; [Lit.n0]; [Lit.n0_5]] |}
  = bufferToMp3 (E := unit)
      {| sampleRate := 8000; buf_length := 1;
         channelData := [[Lit.n1]; [Lit.n0]; [Lit.n1_5]] |}.
Proof.
  exact (X4_mp3_uses_two_channels unit Echo 8000 1 1 [Lit.n1] [Lit.n0] [[Lit.n0_5]] [[Lit.n1_5]]
           eq_refl).
Defined.

End Mp3More.

(** ** Export *)

Section ExportMore.
Context {E : Type} `{Lame E}.

(** What [handleDownload] does to the state, in every case. *)
Lemma handleDownload_shape format host s :
  fst (handleDownload format host s) = Ok tt /\
  (let s' := snd (handleDownload format host s) in
   audioBuffer s' = audioBuffer s /\
   processedVisBuffer s' = processedVisBuffer s /\
   fileName s' = fileName s /\
   params s' = params s /\
   audioContextRef s' = audioContextRef s /\
   playback s' = playback s /\
   (audioBuffer s <> None -> renderingFormat s' = None) /\
   (audioBuffer s = None -> s' = s)).
Proof.
  unfold handleDownload.
  destruct (audioBuffer s) as [b|] eqn:Hb.
  - unfold act_bind, modify, try_catch_finally, lift.
    cbn [params setRenderingFormat fileName].
    destruct (new_OfflineAudioContext host _ _ _) as [u|e0];
      [|cbn; rewrite Hb; repeat split; try reflexivity; congruence].
    destruct (startRendering host _ b) as [r|e0];
      [|cbn; rewrite Hb; repeat split; try reflexivity; congruence].
    destruct (Wav.bufferToWav r) as [w|e0];
      [|cbn; rewrite Hb; repeat split; try reflexivity; congruence].
    destruct (Mp3.bufferToMp3 r) as [m|e0];
      [|cbn; rewrite Hb; repeat split; try reflexivity; congruence].
    destruct (click_download host _ _) as [u'|e0];
      cbn; rewrite Hb; repeat split; try reflexivity; congruence.
  - cbn. rewrite Hb. repeat split; try reflexivity; congruence.
Qed.

End ExportMore.

(** X5: handleDownload never throws to its caller, in any branch and with
    any host and encoder. It never changes the loaded buffer, the preview
    buffer, the file name, the effect parameters, the audio context or the
    playback state; whenever a buffer is loaded it leaves renderingFormat
    cleared, and without a buffer it changes nothing at all. *)
Theorem X5_handleDownload_frame :
  forall (E : Type) (L : Lame E) (format : Format) (host : Host) (s : AppState),
    fst (handleDownload format host s) = Ok tt /\
    (let s' := snd (handleDownload format host s) in
     audioBuffer s' = audioBuffer s /\
     processedVisBuffer s' = processedVisBuffer s /\
     fileName s' = fileName s /\
     params s' = params s /\
     audioContextRef s' = audioContextRef s /\
     playback s' = playback s /\
     (audioBuffer s <> None -> renderingFormat s' = None) /\
     (audioBuffer s = None -> s' = s)).
Proof. intros E L format host s. apply handleDownload_shape. Qed.

Lemma X5_handleDownload_frame_witness :
  audioBuffer two_exports <> None /\
  fst (handleDownload (E := unit) WAV (host_render_fails 7) two_exports) = Ok tt /\
  renderingFormat (snd (handleDownload (E := unit) WAV (host_render_fails 7) two_exports))
  = None /\
  playback (snd (handleDownload (E := unit) WAV (host_render_fails 7) two_exports))
  = playback two_exports.
Proof.
  assert (Hb : audioBuffer two_exports <> None) by (vm_compute; discriminate).
  destruct (X5_handleDownload_frame unit Echo WAV (host_render_fails 7) two_exports)
    as (Hr & _ & _ & _ & _ & _ & Hp & Hf & _).
  split; [exact Hb|]. split; [exact Hr|]. split; [exact (Hf Hb) | exact Hp].
Defined.

(** ** Names of Render Results *)
Lemma before_dot_no_dot s : ~ In "."%char (list_ascii_of_string (before_dot s)).
Proof.
  induction s as [|c s IH]; cbn [before_dot]; [intros []|].
  destruct (Ascii.eqb c ".") eqn:Hc; [intros []|].
  cbn [list_ascii_of_string]. intros [Heq|Hin]; [|now apply IH].
  subst c. rewrite Ascii.eqb_refl in Hc. discriminate.
Qed.

Lemma before_dot_prefix s : exists t : string, s = (before_dot s ++ t)%string.
Proof.
  induction s as [|c s (t & Ht)]; cbn [before_dot]; [now exists ""%string|].
  destruct (Ascii.eqb c "."); [now exists (String c s)|].
  exists t. cbn [append]. now rewrite <- Ht.
Qed.

Lemma before_dot_dotless s :
  ~ In "."%char (list_ascii_of_string s) -> before_dot s = s.
Proof.
  induction s as [|c s IH]; cbn [before_dot list_ascii_of_string]; [reflexivity|].
  intros Hn. destruct (Ascii.eqb c ".") eqn:Hc.
  - apply Ascii.eqb_eq in Hc. subst c. exfalso. apply Hn. now left.
  - f_equal. apply IH. intros Hin. apply Hn. now right.
Qed.

Lemma render_result_name host fileName r w m :
  let name := item_fileName (render_result host fileName r w m) in
  name <> ""%string /\
  ~ In "."%char (list_ascii_of_string name) /\
  (before_dot fileName <> ""%string -> name = before_dot fileName) /\
  (before_dot fileName = ""%string -> name = "recording"%string).
Proof.
  cbn [render_result item_fileName].
  destruct (String.eqb (before_dot fileName) "") eqn:He.
  - apply String.eqb_eq in He. repeat split; try congruence; try discriminate.
    cbn. intros [Hd|[Hd|[Hd|[Hd|[Hd|[Hd|[Hd|[Hd|[Hd|[]]]]]]]]]]; discriminate.
  - apply String.eqb_neq in He. repeat split; try congruence.
    apply before_dot_no_dot.
Qed.

(** X6: The name of a Render Result (fileName.split('.')[0] || 'recording')
    is never empty and never contains a dot; it is the literal recording or
    a prefix of the loaded file name, and it is the file name itself when
    that is not empty and has no dot. *)
Theorem X6_render_result_name :
  forall (host : Host) (fileName : string) (r : AudioBuffer) (w m : Blob),
    let name := item_fileName (render_result host fileName r w m) in
    name <> ""%string /\
    ~ In "."%char (list_ascii_of_string name) /\
    (exists rest : string, name = "recording"%string \/ fileName = (name ++ rest)%string) /\
    (~ In "."%char (list_ascii_of_string fileName) -> fileName <> ""%string ->
     name = fileName).
Proof.
  intros host fileName r w m name.
  destruct (render_result_name host fileName r w m) as (H1 & H2 & H3 & H4).
  fold name in H1, H2, H3, H4.
  split; [exact H1|]. split; [exact H2|]. split.
  - destruct (before_dot_prefix fileName) as (t & Ht). exists t.
    destruct (string_dec (before_dot fileName) "") as [He|He].
    + left. now apply H4.
    + right. rewrite (H3 He). exact Ht.
  - intros Hn Hne. rewrite H3; rewrite (before_dot_dotless _ Hn); [reflexivity|exact Hne].
Qed.

Lemma X6_render_result_name_witness :
  item_fileName (render_result (host_ok 1) "take 3" clip
                   {| blob_bytes := []; blob_type := "" |}
                   {| blob_bytes := []; blob_type := "" |}) = "take 3"%string.
Proof.
  refine (proj2 (proj2 (proj2 (X6_render_result_name (host_ok 1) "take 3" clip _ _))) _ _).
  - cbn. intros [Hd|[Hd|[Hd|[Hd|[Hd|[Hd|[]]]]]]]; discriminate.
  - discriminate.
Defined.

(** ** Export within a session *)

Section ExportSession.
Context {E : Type} `{Lame E}.

Lemma export_attempt_encodings host p b r w m :
  export_attempt host p b = Ok (r, w, m) ->
  Wav.bufferToWav r = Ok w /\ Mp3.bufferToMp3 r = Ok m /\
  startRendering host (offline_graph p) b = Ok r.
Proof.
  unfold export_attempt.
  destruct (new_OfflineAudioContext host _ _ _) as [u|e0]; [|discriminate].
  destruct (startRendering host _ b) as [r'|e0]; [|discriminate].
  destruct (Wav.bufferToWav r') as [w'|e0] eqn:Hw; [|discriminate].
  destruct (Mp3.bufferToMp3 r') as [m'|e0] eqn:Hm; [|discriminate].
  intros Heq. injection Heq as <- <- <-. repeat split; assumption.
Qed.

(** After the render and both encodings have succeeded, the handler's
    result depends only on the download step. *)
Lemma handleDownload_stored format host s b r w m :
  audioBuffer s = Some b ->
  export_attempt host (params s) b = Ok (r, w, m) ->
  let item := render_result host (fileName s) r w m in
  let name := ("processed_" ++ item_fileName item ++ "." ++ format_name format)%string in
  let blob := match format with WAV => w | MP3 => m end in
  let stored := setHistory (history_insert item) (setRenderingFormat (Some format) s) in
  handleDownload format host s =
  match click_download host name blob with
  | Ok _ => (Ok tt, setRenderingFormat None (record_download name blob stored))
  | Throw _ =>
      (Ok tt, setRenderingFormat None
                (alert ("Failed to process audio for " ++ format_name format ++ " download.")
                   stored))
  end.
Proof.
  intros Hb Hs item name blob stored. subst item name blob stored.
  unfold handleDownload. rewrite Hb.
  unfold export_attempt in Hs.
  unfold act_bind, modify, try_catch_finally, lift.
  cbn [params setRenderingFormat fileName].
  destruct (new_OfflineAudioContext host _ _ _) as [u|e0]; [|discriminate].
  destruct (startRendering host _ b) as [r'|e0]; [|discriminate].
  destruct (Wav.bufferToWav r') as [w'|e0]; [|discriminate].
  destruct (Mp3.bufferToMp3 r') as [m'|e0]; [|discriminate].
  injection Hs as -> -> ->.
  unfold render_result; cbn [item_fileName].
  destruct (click_download host _ _) as [u'|e0]; reflexivity.
Qed.

Lemma Forall_firstn {A} (P : A -> Prop) n (l : list A) : Forall P l -> Forall P (firstn n l).
Proof.
  intros Hl. rewrite <- (firstn_skipn n l) in Hl. now apply Forall_app in Hl.
Qed.

Lemma coherent_render_result host fn r w m :
  Wav.bufferToWav r = Ok w -> Mp3.bufferToMp3 r = Ok m ->
  coherent_item (render_result host fn r w m).
Proof.
  intros Hw Hm. unfold coherent_item.
  destruct (render_result_name host fn r w m) as (Hn & Hd & _).
  repeat split; [exact Hw | exact Hm | exact Hn | exact Hd].
Qed.

(** Only an export changes the history. *)
Lemma handle_keeps_history (ev : event) (s : AppState) :
  match ev with Download _ _ => True | _ => history (handle ev s) = history s end.
Proof.
  destruct ev as [name decoded|format host| | |t|rb|index|index|sid|v|v|v|v|b]; cbn [handle].
  - crush_state s; destruct decoded; reflexivity.
  - exact I.
  - crush_state s; destruct ab; destruct ipo; reflexivity.
  - crush_state s; destruct ab; destruct ipp; reflexivity.
  - crush_state s; destruct ab; destruct t; destruct pv; destruct pp as [[|]|]; reflexivity.
  - reflexivity.
  - destruct (nth_error (history s) index); reflexivity.
  - destruct (nth_error (history s) index) as [item|]; [|reflexivity].
    unfold handleHistoryPlay.
    destruct (match playingHistoryId (playback s) with Some i => (i =? id item)%Z | None => false end);
      [reflexivity|].
    crush_state s; reflexivity.
  - unfold dispatch_ended.
    destruct (find _ _) as [src|]; [|reflexivity].
    destruct (src_playing src || src_ended_pending src); [|reflexivity].
    destruct (src_onended src) as [ | | |[|]]; reflexivity.
  - crush_state s; reflexivity.
  - crush_state s; reflexivity.
  - crush_state s; reflexivity.
  - crush_state s; reflexivity.
  - unfold setEnabled_noiseReduction.
    destruct (Bool.eqb b (isClarityOn (params s))); [reflexivity|].
    destruct s as [ab pv fn rf h [dt fb ico vb cl] [g|] pb al dl]; destruct b; reflexivity.
Qed.

Lemma handle_coherent (ev : event) (s : AppState) :
  Forall coherent_item (history s) -> Forall coherent_item (history (handle ev s)).
Proof.
  intros Hs. pose proof (handle_keeps_history ev s) as Hk.
  destruct ev as [name decoded|format host| | |t|rb|index|index|sid|v|v|v|v|b];
    try (cbv beta iota in Hk; rewrite Hk; exact Hs).
  clear Hk. cbn [handle].
  destruct (renderingFormat s); [exact Hs|].
  destruct (audioBuffer s) as [b|] eqn:Hb;
    [|rewrite handleDownload_no_buffer by exact Hb; exact Hs].
  destruct (export_attempt host (params s) b) as [[[r w] m]|e] eqn:He.
  - destruct (handleDownload_success format host s b r w m Hb He) as (_ & Hh & _).
    rewrite Hh. apply Forall_firstn. constructor; [|exact Hs].
    destruct (export_attempt_encodings _ _ _ _ _ _ He) as (Hw & Hm & _).
    apply coherent_render_result; assumption.
  - rewrite (handleDownload_failure format host s b e Hb He). exact Hs.
Qed.

Lemma run_coherent (evs : list event) : forall s,
  Forall coherent_item (history s) -> Forall coherent_item (history (run evs s)).
Proof.
  induction evs as [|ev evs IH]; intros s Hs; [exact Hs|].
  cbn [run fold_left]. apply IH. apply handle_coherent. exact Hs.
Qed.

End ExportSession.

(** X7: In every state a session of the modelled events reaches from the
    initial state, with any encoder, every Render Result in the history
    holds as wavBlob the result of bufferToWav on its own audioBuffer and as
    mp3Blob the result of bufferToMp3 on it, and its name is not empty and
    has no dot. *)
Theorem X7_history_items_coherent :
  forall (E : Type) (L : Lame E) (evs : list event) (item : HistoryItem),
    In item (history (run evs initial_state)) ->
    Wav.bufferToWav (item_audioBuffer item) = Ok (wavBlob item) /\
    Mp3.bufferToMp3 (item_audioBuffer item) = Ok (mp3Blob item) /\
    item_fileName item <> ""%string /\
    ~ In "."%char (list_ascii_of_string (item_fileName item)).
Proof.
  intros E L evs item Hin.
  assert (Hall : Forall coherent_item (history (run evs initial_state)))
    by (apply run_coherent; constructor).
  rewrite Forall_forall in Hall. exact (Hall item Hin).
Qed.

Lemma X7_history_items_coherent_witness :
  exists item : HistoryItem,
    nth_error (history two_exports) 1 = Some item /\
    Wav.bufferToWav (item_audioBuffer item) = Ok (wavBlob item) /\
    item_fileName item = "clip"%string.
Proof.
  assert (Hn : exists item, nth_error (history two_exports) 1 = Some item
                            /\ item_fileName item = "clip"%string).
  { vm_compute. eexists. split; reflexivity. }
  destruct Hn as (item & Hn & Hname). exists item. split; [exact Hn|].
  split; [|exact Hname].
  refine (proj1 (X7_history_items_coherent unit Echo two_exports_events item _)).
  change (run two_exports_events initial_state) with two_exports.
  exact (nth_error_In _ _ Hn).
Defined.

(** X8: After an export whose render, encodings and download step all
    succeed, the new Render Result is the first history entry, exactly one
    download was triggered and no alert shown, and the file saved (name
    processed_<name>.<format> and Blob) is the one the history panel's
    button of the same format saves for that entry through
    handleHistoryDownload. *)
Theorem X8_export_saves_what_history_keeps :
  forall (E : Type) (L : Lame E) (format : Format) (host : Host) (s : AppState)
         (b r : AudioBuffer) (w m : Blob),
    audioBuffer s = Some b ->
    export_attempt host (params s) b = Ok (r, w, m) ->
    let item := render_result host (fileName s) r w m in
    let name := ("processed_" ++ item_fileName item ++ "." ++ format_name format)%string in
    let blob := match format with WAV => w | MP3 => m end in
    let s' := snd (handleDownload format host s) in
    click_download host name blob = Ok tt ->
    hd_error (history s') = Some item /\
    downloads s' = downloads s ++ [(name, blob)] /\
    alerts s' = alerts s /\
    forall s0 : AppState,
      panel_download (click_download host) format item s0
      = (Ok tt, record_download name blob s0).
Proof.
  intros E L format host s b r w m Hb He item name blob s' Hc. subst s'.
  rewrite (handleDownload_stored format host s b r w m Hb He).
  fold item. fold name. fold blob. rewrite Hc.
  split; [reflexivity|]. split; [reflexivity|]. split; [reflexivity|].
  intros s0. subst blob name.
  destruct format; unfold panel_download, handleHistoryDownload, act_bind, lift, modify;
    [change (wavBlob item) with w | change (mp3Blob item) with m]; rewrite Hc; reflexivity.
Qed.

(** X9: The Render Result is stored before the download is triggered: when
    the render and both encodings succeed and the download step throws,
    handleDownload still returns normally, the Render Result is in the
    history, no download is recorded, the alert 'Failed to process audio for
    <format> download.' is shown and renderingFormat is cleared. *)
Theorem X9_download_step_failure_keeps_result :
  forall (E : Type) (L : Lame E) (format : Format) (host : Host) (s : AppState)
         (b r : AudioBuffer) (w m : Blob) (e : exn),
    audioBuffer s = Some b ->
    export_attempt host (params s) b = Ok (r, w, m) ->
    let item := render_result host (fileName s) r w m in
    let name := ("processed_" ++ item_fileName item ++ "." ++ format_name format)%string in
    let blob := match format with WAV => w | MP3 => m end in
    let s' := snd (handleDownload format host s) in
    click_download host name blob = Throw e ->
    fst (handleDownload format host s) = Ok tt /\
    history s' = history_insert item (history s) /\
    downloads s' = downloads s /\
    alerts s' = alerts s ++
      [("Failed to process audio for " ++ format_name format ++ " download.")%string] /\
    renderingFormat s' = None.
Proof.
  intros E L format host s b r w m e Hb He item name blob s' Hc. subst s'.
  rewrite (handleDownload_stored format host s b r w m Hb He).
  fold item. fold name. fold blob. rewrite Hc.
  repeat split; reflexivity.
Qed.

Lemma X8_export_saves_what_history_keeps_witness :
  exists blob : Blob,
    downloads (snd (handleDownload (E := unit) WAV (host_ok 1000) clip_loaded))
    = [("processed_clip.wav"%string, blob)].
Proof.
  destruct (export_attempt (E := unit) (host_ok 1000) (params clip_loaded) clip)
    as [[[r w] m]|e] eqn:He; [|vm_compute in He; discriminate].
  exists w.
  exact (proj1 (proj2 (X8_export_saves_what_history_keeps unit Echo WAV (host_ok 1000)
                         clip_loaded clip r w m eq_refl He eq_refl))).
Defined.

Lemma X9_download_step_failure_keeps_result_witness :
  length (history (snd (handleDownload (E := unit) MP3 (host_click_fails 7) clip_loaded)))
  = 1%nat /\
  downloads (snd (handleDownload (E := unit) MP3 (host_click_fails 7) clip_loaded)) = [].
Proof.
  destruct (export_attempt (E := unit) (host_click_fails 7) (params clip_loaded) clip)
    as [[[r w] m]|e] eqn:He; [|vm_compute in He; discriminate].
  destruct (X9_download_step_failure_keeps_result unit Echo MP3 (host_click_fails 7)
              clip_loaded clip r w m HostError eq_refl He eq_refl) as (_ & Hh & Hd & _).
  split; [rewrite Hh; reflexivity | exact Hd].
Defined.

(** ** The live graph *)

Section LiveGraphFacts.
Context {E : Type} `{Lame E}.

Lemma history_insert_not_nil item prev : history_insert item prev <> [].
Proof. rewrite history_insert_cons. discriminate. Qed.

(** Handlers that leave the parameters, the context, and the presence of
    a buffer and of history entries as they were keep [live_inv]. *)
Lemma live_inv_frame (s s' : AppState) :
  params s' = params s -> audioContextRef s' = audioContextRef s ->
  (audioBuffer s' <> None -> audioBuffer s <> None \/ history s <> []) ->
  (history s' <> [] -> audioBuffer s <> None \/ history s <> []) ->
  live_inv s -> live_inv s'.
Proof.
  intros Hp Ha Hb Hh (Hc & Hg). split.
  - rewrite Ha. intros [Hx|Hx]; apply Hc; [now apply Hb | now apply Hh].
  - rewrite Ha, Hp. exact Hg.
Qed.

Lemma setupAudioContext_live_inv s :
  live_inv s ->
  exists g, audioContextRef (setupAudioContext s) = Some g /\
            live_agrees (params s) g /\ noise_filter_state (params s) g /\
            (forall g0, audioContextRef s = Some g0 -> g = g0).
Proof.
  intros (Hc & Hg). unfold setupAudioContext.
  destruct (audioContextRef s) as [g|] eqn:Ha.
  - exists g. rewrite Ha. destruct (Hg g eq_refl) as (H1 & H2).
    repeat split; try assumption; try apply H1. intros g0 Hg0. congruence.
  - eexists. split; [reflexivity|]. split; [|split].
    + repeat split.
    + left. reflexivity.
    + discriminate.
Qed.

Lemma loadFile_ctx name decoded s :
  audioContextRef (loadFile name decoded s) = audioContextRef (setupAudioContext s) /\
  params (loadFile name decoded s) = params s.
Proof. crush_state s; destruct decoded; split; reflexivity. Qed.

Lemma onChange_live_inv (f : JS.number -> AppState -> AppState) v s :
  f = onChange_delayTime \/ f = onChange_feedback \/
  f = onChange_voiceBoost \/ f = onChange_clarity ->
  live_inv s -> live_inv (f v s).
Proof.
  intros Hf (Hc & Hg). split.
  - destruct Hf as [-> | [-> | [-> | -> ]]]; crush_state s; intros Hx; try discriminate;
      exact (Hc Hx).
  - destruct s as [ab pv fn rf h [dt fb ico vb cl] [g|] pb al dl];
      [|destruct Hf as [-> | [-> | [-> | -> ]]]; intros g0 Hg0; discriminate].
    destruct (Hg g eq_refl) as ((H1 & H2 & H3 & H4 & H5) & Hn).
    cbn [params] in H1, H2, H3, H4, H5, Hn.
    destruct Hf as [-> | [-> | [-> | -> ]]]; intros g0 Hg0; injection Hg0 as <-;
      (split; [|exact Hn]); unfold live_agrees;
      (split; [exact H1|]); (split; [first [exact H2 | reflexivity]|]);
      (split; [first [exact H3 | reflexivity]|]);
      (split; [first [exact H4 | reflexivity]|]);
      first [exact H5 | idtac].
    change (set_gain v (clarityFilterNode g) =
            set_gain v (g_clarityFilter (offline_graph
              {| delayTime := dt; feedback := fb; isClarityOn := ico;
                 voiceBoost := vb; clarity := cl |}))).
    now rewrite <- H5.
Qed.

Lemma handle_live_inv (ev : event) (s : AppState) : live_inv s -> live_inv (handle ev s).
Proof.
  intros Hi.
  destruct ev as [name decoded|format host| | |t|rb|index|index|sid|v|v|v|v|b]; cbn [handle].
  - (* LoadFile *)
    destruct (loadFile_ctx name decoded s) as (Ha & Hp).
    destruct (setupAudioContext_live_inv s Hi) as (g & Hg & H1 & H2 & _).
    split; rewrite Ha, Hg; [intros _; discriminate|].
    intros g0 Hg0. injection Hg0 as <-. rewrite Hp. split; assumption.
  - (* Download *)
    destruct (renderingFormat s); [exact Hi|].
    destruct (handleDownload_shape format host s)
      as (_ & Hb & _ & _ & Hp & Ha & _ & _ & Hn).
    destruct (audioBuffer s) as [b|] eqn:Hab.
    + revert Hi. apply live_inv_frame; try assumption.
      * intros _. left. rewrite Hab. discriminate.
      * intros _. left. rewrite Hab. discriminate.
    + rewrite (Hn eq_refl). exact Hi.
  - revert Hi. crush_state s; destruct ab; destruct ipo; frame_inv live_inv_frame.
  - revert Hi. crush_state s; destruct ab; destruct ipp; frame_inv live_inv_frame.
  - revert Hi. crush_state s; destruct ab; destruct t; destruct pv; destruct pp as [[|]|];
      frame_inv live_inv_frame.
  - revert Hi. frame_inv live_inv_frame.
  - destruct (nth_error (history s) index) as [item|] eqn:Hn; [|exact Hi].
    revert Hi. apply live_inv_frame; try reflexivity.
    + intros _. right. intros Hx. rewrite Hx in Hn. destruct index; discriminate.
    + intros Hx. right. exact Hx.
  - destruct (nth_error (history s) index) as [item|]; [|exact Hi].
    revert Hi. unfold handleHistoryPlay.
    destruct (match playingHistoryId (playback s) with Some i => (i =? id item)%Z | None => false end);
      [frame_inv live_inv_frame|].
    crush_state s; frame_inv live_inv_frame.
  - revert Hi. unfold dispatch_ended.
    destruct (find _ _) as [src|]; [|exact (fun x => x)].
    destruct (src_playing src || src_ended_pending src); [|exact (fun x => x)].
    destruct (src_onended src) as [ | | |[|]]; frame_inv live_inv_frame.
  - apply (onChange_live_inv onChange_delayTime); auto.
  - apply (onChange_live_inv onChange_feedback); auto.
  - apply (onChange_live_inv onChange_voiceBoost); auto.
  - apply (onChange_live_inv onChange_clarity); auto.
  - unfold setEnabled_noiseReduction.
    destruct (Bool.eqb b (isClarityOn (params s))); [exact Hi|].
    destruct Hi as (Hc & Hg). split.
    + crush_state s; destruct b; intros Hx; try discriminate; exact (Hc Hx).
    + destruct s as [ab pv fn rf h [dt fb ico vb cl] [g|] pb al dl];
        [|intros g0 Hg0; discriminate].
      destruct (Hg g eq_refl) as (Hl & _).
      intros g0 Hg0. destruct b; injection Hg0 as <-; (split; [exact Hl|]).
      * right. repeat split.
      * left. reflexivity.
Qed.

Lemma run_live_inv (evs : list event) : forall s, live_inv s -> live_inv (run evs s).
Proof.
  induction evs as [|ev evs IH]; intros s Hs; [exact Hs|].
  cbn [run fold_left]. apply IH. apply handle_live_inv. exact Hs.
Qed.

Lemma live_inv_initial : live_inv initial_state.
Proof.
  split; [intros [Hx|Hx]; exfalso; apply Hx; reflexivity | intros g Hg; discriminate].
Qed.

End LiveGraphFacts.

(** X10: In every state a session of file loads, exports, playback, ended
    events and parameter changes reaches from the initial state, if the
    audio context exists then the live delay node, feedback gain, voice
    boost gain, clarity filter and master gain carry exactly the values an
    offline export made in that state would use; the live noise filter is of
    type allpass, or the noise switch is on and its type, frequency (5000
    Hz) and Q (1) are those of the export. *)
Theorem X10_live_graph_follows_parameters :
  forall (E : Type) (L : Lame E) (evs : list event) (g : LiveGraph),
    let s := run evs initial_state in
    audioContextRef s = Some g ->
    delayNode g = g_delay (offline_graph (params s)) /\
    feedbackGainNode g = g_feedbackGain (offline_graph (params s)) /\
    voiceBoostGainNode g = g_boost (offline_graph (params s)) /\
    clarityFilterNode g = g_clarityFilter (offline_graph (params s)) /\
    masterProcessedGain g = g_masterGain (offline_graph (params s)) /\
    (type (noiseReductionFilter g) = allpass \/
     isClarityOn (params s) = true /\
     type (noiseReductionFilter g) = type (g_noiseReduction (offline_graph (params s))) /\
     frequency (noiseReductionFilter g)
     = frequency (g_noiseReduction (offline_graph (params s))) /\
     Q (noiseReductionFilter g) = Q (g_noiseReduction (offline_graph (params s)))).
Proof.
  intros E L evs g s Hg.
  destruct (run_live_inv evs initial_state live_inv_initial) as (_ & Hall).
  destruct (Hall g Hg) as ((H1 & H2 & H3 & H4 & H5) & Hn).
  fold s in H1, H2, H3, H4, H5, Hn.
  repeat (split; [assumption|]).
  destruct Hn as [Ha|(Hon & Ht & Hf & Hq)]; [left; exact Ha|right].
  split; [exact Hon|].
  unfold offline_graph. rewrite Hon. cbn [g_noiseReduction].
  rewrite Ht, Hf, Hq. repeat split.
Qed.

Lemma X10_live_graph_follows_parameters_witness :
  exists g : LiveGraph,
    audioContextRef (run (E := unit) (two_exports_events ++ [ChangeDelayTime Lit.n0_1])
                       initial_state) = Some g /\
    delayNode g = Lit.n0_1.
Proof.
  destruct (audioContextRef (run (E := unit) (two_exports_events ++ [ChangeDelayTime Lit.n0_1])
                               initial_state)) as [g|] eqn:Hg;
    [|vm_compute in Hg; discriminate].
  exists g. split; [reflexivity|].
  destruct (X10_live_graph_follows_parameters unit Echo
              (two_exports_events ++ [ChangeDelayTime Lit.n0_1]) g Hg) as (Hd & _).
  rewrite Hd. vm_compute. reflexivity.
Defined.

(** X11: In every state a session of the modelled events reaches from the
    initial state, the audio context exists whenever a buffer is loaded or
    the history has an entry: a buffer comes only from loadFile, which
    creates the context first, or from a history entry, and history entries
    come only from exports of a loaded buffer. *)
Theorem X11_context_exists_when_needed :
  forall (E : Type) (L : Lame E) (evs : list event),
    let s := run evs initial_state in
    (audioBuffer s <> None \/ history s <> []) -> audioContextRef s <> None.
Proof.
  intros E L evs s. exact (proj1 (run_live_inv evs initial_state live_inv_initial)).
Qed.

Lemma X11_context_exists_when_needed_witness :
  audioContextRef (run (E := unit) two_exports_events initial_state) <> None.
Proof.
  apply (X11_context_exists_when_needed unit Echo two_exports_events).
  left. vm_compute. discriminate.
Defined.

(** ** Loading a file *)

Section LoadFacts.

Lemma loadFile_kept name decoded s :
  let s' := loadFile name decoded s in
  history s' = history s /\ params s' = params s /\
  renderingFormat s' = renderingFormat s /\
  alerts s' = alerts s /\ downloads s' = downloads s /\
  (forall g, audioContextRef s = Some g -> audioContextRef s' = Some g).
Proof.
  crush_state s; destruct decoded; repeat split; try discriminate; intros g0 Hg0; exact Hg0.
Qed.

End LoadFacts.

Section LoadSteps.

(** The state in which the decoding is awaited. *)
Lemma loadFile_begin_state name s :
  let begun := fst (loadFile_begin name s) in
  snd (loadFile_begin name s) = true /\
  audioBuffer begun = None /\ fileName begun = name /\
  audioContextRef begun <> None /\
  (forall g, audioContextRef s = Some g -> audioContextRef begun = Some g) /\
  history begun = history s /\ params begun = params s /\
  renderingFormat begun = renderingFormat s /\
  alerts begun = alerts s /\ downloads begun = downloads s /\
  playback begun = playback (stopAllPlayback s).
Proof.
  unfold loadFile_begin.
  remember (stopAllPlayback s) as s1 eqn:Hs1.
  assert (Hc : audioContextRef s1 = audioContextRef s) by (rewrite Hs1; reflexivity).
  assert (Hh : history s1 = history s) by (rewrite Hs1; reflexivity).
  assert (Hp : params s1 = params s) by (rewrite Hs1; reflexivity).
  assert (Hr : renderingFormat s1 = renderingFormat s) by (rewrite Hs1; reflexivity).
  assert (Ha : alerts s1 = alerts s) by (rewrite Hs1; reflexivity).
  assert (Hd : downloads s1 = downloads s) by (rewrite Hs1; reflexivity).
  clear Hs1. rewrite <- Hc, <- Hh, <- Hp, <- Hr, <- Ha, <- Hd.
  crush_state s1; cbn; repeat split; try discriminate; intros g0 Hg0; exact Hg0.
Qed.

(** What the continuation writes. *)
Lemma loadFile_settled_state decoded t :
  let settled := loadFile_settled decoded t in
  match decoded with
  | Ok decodedData => audioBuffer settled = Some decodedData /\ fileName settled = fileName t
  | Throw _ =>
      audioBuffer settled = None /\
      fileName settled = "Failed to load. Format may not be supported."%string
  end /\
  setFileName (fileName t) (setAudioBuffer (audioBuffer t) settled) = t /\
  playback settled = playback t.
Proof.
  destruct decoded; destruct t; repeat split.
Qed.

Lemma loadFile_is_at_once name decoded s :
  loadFile name decoded s = loadFile_at_once name decoded s.
Proof.
  unfold loadFile, loadFile_at_once, loadFile_begin.
  set (s1 := stopAllPlayback s). clearbody s1.
  crush_state s1; destruct decoded; reflexivity.
Qed.

End LoadSteps.



(** X13: If noise reduction is switched on while no audio context exists,
    the first loadFile builds the live noise filter with type allpass
    although the switch is on, while an export in that state uses the 5000
    Hz lowpass; setting the switch to on again changes nothing, and only
    switching it off and on puts the live filter into lowpass. *)
Theorem X13_noise_reduction_before_first_load :
  forall (name : string) (decoded : result AudioBuffer) (s : AppState),
    audioContextRef s = None ->
    isClarityOn (params s) = true ->
    let s' := loadFile name decoded s in
    exists g : LiveGraph,
      audioContextRef s' = Some g /\
      type (noiseReductionFilter g) = allpass /\
      type (g_noiseReduction (offline_graph (params s'))) = lowpass /\
      setEnabled_noiseReduction true s' = s' /\
      option_map (fun g' => type (noiseReductionFilter g'))
        (audioContextRef
           (setEnabled_noiseReduction true (setEnabled_noiseReduction false s')))
      = Some lowpass.
Proof.
  intros name decoded s Hc Hon s'. subst s'.
  unfold loadFile. set (s1 := stopAllPlayback s).
  assert (Hc1 : audioContextRef s1 = None) by exact Hc.
  assert (Hon1 : isClarityOn (params s1) = true) by exact Hon.
  clearbody s1. clear Hc Hon.
  destruct s1 as [ab pv fn rf h [dt fb ico vb cl] g pb al dl].
  cbn [audioContextRef] in Hc1. cbn [params isClarityOn] in Hon1. subst g ico.
  eexists. destruct decoded; repeat split.
Qed.

Lemma X13_noise_reduction_before_first_load_witness :
  exists g : LiveGraph,
    audioContextRef (loadFile "clip.wav" (Ok clip) noise_on_unloaded) = Some g /\
    type (noiseReductionFilter g) = allpass /\
    type (g_noiseReduction
            (offline_graph (params (loadFile "clip.wav" (Ok clip) noise_on_unloaded))))
    = lowpass.
Proof.
  destruct (X13_noise_reduction_before_first_load "clip.wav" (Ok clip) noise_on_unloaded
              eq_refl eq_refl) as (g & Hg & Ht & Ho & _).
  exists g. split; [exact Hg|]. split; [exact Ht | exact Ho].
Defined.

(** ** Exclusive playback *)

Section ExclusiveFacts.

Lemma silent_tracked pb : filter src_playing (sources pb) = [] -> tracked pb.
Proof.
  intros Hf src Hin Hp.
  assert (Hx : In src (filter src_playing (sources pb))) by (apply filter_In; now split).
  rewrite Hf in Hx. destruct Hx.
Qed.

Lemma filter_silences f (Hf : silences f) (srcs : list BufferSource) :
  (length (filter src_playing (map f srcs)) <= length (filter src_playing srcs))%nat.
Proof.
  induction srcs as [|src srcs IH]; [apply le_n|].
  cbn [map filter].
  destruct (src_playing (f src)) eqn:Hp.
  - rewrite <- (Hf src Hp), Hp. cbn [length]. lia.
  - destruct (src_playing src); cbn [length]; lia.
Qed.

Lemma host_stop_silences sid :
  silences (fun src =>
              if Nat.eqb (src_id src) sid && src_playing src
              then {| src_id := src_id src; src_onended := src_onended src;
                      src_playing := false; src_ended_pending := true |}
              else src).
Proof.
  intros src. destruct (Nat.eqb (src_id src) sid && src_playing src); [discriminate|reflexivity].
Qed.

Lemma ended_silences sid :
  silences (fun src' =>
              if Nat.eqb (src_id src') sid
              then {| src_id := src_id src'; src_onended := src_onended src';
                      src_playing := false; src_ended_pending := false |}
              else src').
Proof.
  intros src. destruct (Nat.eqb (src_id src) sid); [discriminate|reflexivity].
Qed.

(** A new source started when nothing sounds, and stored in a ref. *)
Lemma started (pb pb' : Playback) (sid : nat) (kind : PlaybackKind) :
  filter src_playing (sources pb) = [] ->
  sources pb' = sources pb ++ [{| src_id := sid; src_onended := kind;
                                  src_playing := true; src_ended_pending := false |}] ->
  In (Some sid) (refs_of pb') ->
  tracked pb' /\ (length (filter src_playing (sources pb')) <= 1)%nat.
Proof.
  intros Hq Hs Hr. split.
  - intros src Hin Hp. rewrite Hs in Hin. apply in_app_or in Hin.
    destruct Hin as [Hin|[<-|[]]]; [|exact Hr].
    exfalso. assert (Hx : In src (filter src_playing (sources pb)))
      by (apply filter_In; now split).
    rewrite Hq in Hx. destruct Hx.
  - rewrite Hs, filter_app, Hq. cbn. lia.
Qed.

(** Some sources are silenced and the refs keep what they hold of the
    sources that still sound. *)
Lemma silenced (pb pb' : Playback) (f : BufferSource -> BufferSource) :
  silences f ->
  sources pb' = map f (sources pb) ->
  (forall src, src_playing (f src) = true ->
               In (Some (src_id src)) (refs_of pb) -> In (Some (src_id src)) (refs_of pb')) ->
  tracked pb -> (length (filter src_playing (sources pb)) <= 1)%nat ->
  tracked pb' /\ (length (filter src_playing (sources pb')) <= 1)%nat.
Proof.
  intros Hf Hs Hr Ht Hu. split.
  - intros src Hin Hp. rewrite Hs in Hin. apply in_map_iff in Hin.
    destruct Hin as (src0 & <- & Hin0).
    pose proof (Hf src0 Hp) as Heq. rewrite Heq in *.
    apply Hr; [now rewrite Heq|]. apply Ht; assumption.
  - rewrite Hs. pose proof (filter_silences f Hf (sources pb)). lia.
Qed.

Lemma map_id_silences : silences (fun src => src).
Proof. intros src _. reflexivity. Qed.

Lemma stopAllPlayback_exclusive s :
  tracked (playback s) ->
  exclusive (stopAllPlayback s) /\ active_sources (stopAllPlayback s) = [].
Proof.
  intros Ht. pose proof (stopAllPlayback_silences_tracked s Ht) as Hq.
  split; [|exact Hq]. split; [apply silent_tracked; exact Hq|].
  rewrite Hq. cbn. lia.
Qed.

Lemma toggleOriginalPlayback_exclusive s :
  exclusive s -> exclusive (toggleOriginalPlayback s).
Proof.
  intros (Ht & Hu). unfold toggleOriginalPlayback.
  destruct (audioContextRef s); [|split; assumption].
  destruct (audioBuffer s); [|split; assumption].
  destruct (isPlayingOriginal (playback s)).
  - crush_state s; stop_branch silenced host_stop_silences osr Ht Hu.
  - start_branch stopAllPlayback_silences_tracked started s Ht KOriginal.
Qed.

Lemma toggleProcessedPlayback_exclusive s :
  exclusive s -> exclusive (toggleProcessedPlayback s).
Proof.
  intros (Ht & Hu). unfold toggleProcessedPlayback.
  destruct (audioContextRef s); [|split; assumption].
  destruct (audioBuffer s); [|split; assumption].
  destruct (isPlayingProcessed (playback s)).
  - crush_state s; stop_branch silenced host_stop_silences psr Ht Hu.
  - start_branch stopAllPlayback_silences_tracked started s Ht KProcessed.
Qed.

Lemma togglePreviewPlayback_exclusive t s :
  exclusive s -> exclusive (togglePreviewPlayback t s).
Proof.
  intros (Ht & Hu). unfold togglePreviewPlayback.
  destruct (audioContextRef s); [|split; assumption].
  destruct (audioBuffer s); [|split; assumption].
  destruct t.
  - destruct (processedVisBuffer s);
      (destruct (match playingPreview (playback s) with
                 | Some t => PreviewType_eqb t before | None => false end);
       [crush_state s; stop_branch silenced host_stop_silences bsr Ht Hu | start_branch stopAllPlayback_silences_tracked started s Ht (KPreview before)]).
  - destruct (processedVisBuffer s); [|split; assumption].
    destruct (match playingPreview (playback s) with
              | Some t => PreviewType_eqb t after | None => false end);
      [crush_state s; stop_branch silenced host_stop_silences asr Ht Hu | start_branch stopAllPlayback_silences_tracked started s Ht (KPreview after)].
Qed.

Lemma handleHistoryPlay_exclusive item s :
  exclusive s -> exclusive (handleHistoryPlay item s).
Proof.
  intros (Ht & Hu). unfold handleHistoryPlay.
  destruct (match playingHistoryId (playback s) with
            | Some i => (i =? id item)%Z | None => false end).
  - crush_state s; stop_branch silenced host_stop_silences hsr Ht Hu.
  - destruct (stopAllPlayback_exclusive s Ht) as (Hex & Hq).
    set (s1 := stopAllPlayback s) in *. clearbody s1. unfold active_sources in Hq.
    destruct s1 as [ab1 pv1 fn1 rf1 h1 p1 [g1|] pb1 al1 dl1]; [|exact Hex].
    cbn [playback] in Hq.
    unfold exclusive, active_sources.
    apply (started pb1 _ (length (sources pb1)) KHistory);
      [exact Hq | reflexivity | in_refs].
Qed.

Lemma holds_or_empty_other ref sid x :
  holds_or_empty ref sid = true -> Nat.eqb x sid = false -> ref <> Some x.
Proof.
  intros Hh Hx Heq. subst ref. cbn in Hh. apply Nat.eqb_eq in Hh. subst x.
  rewrite Nat.eqb_refl in Hx. discriminate.
Qed.

Lemma dispatch_ended_exclusive sid s :
  ended_in_time (Ended sid) s = true -> exclusive s -> exclusive (dispatch_ended sid s).
Proof.
  intros He (Ht & Hu). unfold dispatch_ended. unfold ended_in_time in He.
  destruct (find _ _) as [src|]; [|split; assumption].
  destruct (src_playing src || src_ended_pending src); [|split; assumption].
  unfold exclusive, active_sources in *.
  destruct s as [ab pv fn rf h p g [ipo ipp phi pp osr psr hsr bsr asr srcs] al dl].
  cbn [playback sources historySourceRef beforePreviewSourceRef afterPreviewSourceRef] in *.
  assert (Hne : forall src0 : BufferSource,
             src_playing (if Nat.eqb (src_id src0) sid
                          then {| src_id := src_id src0; src_onended := src_onended src0;
                                  src_playing := false; src_ended_pending := false |}
                          else src0) = true ->
             Nat.eqb (src_id src0) sid = false).
  { intros src0. destruct (Nat.eqb (src_id src0) sid); [discriminate|reflexivity]. }
  destruct (src_onended src) as [ | | |[|]];
    (eapply silenced; [apply (ended_silences sid) | reflexivity | | exact Ht | exact Hu]);
    intros src0 Hp Hin; specialize (Hne src0 Hp);
    try (pose proof (holds_or_empty_other _ _ _ He Hne) as Hneq);
    unfold refs_of in *; cbn [In originalSourceRef processedSourceRef historySourceRef
                                 beforePreviewSourceRef afterPreviewSourceRef] in *;
    tauto.
Qed.

Lemma playback_kept_exclusive s s' : playback s' = playback s -> exclusive s -> exclusive s'.
Proof. unfold exclusive, active_sources. intros ->. exact (fun x => x). Qed.

Lemma handle_exclusive {E} `{Lame E} (ev : event) (s : AppState) :
  ended_in_time ev s = true -> exclusive s -> exclusive (handle ev s).
Proof.
  intros He Hx.
  destruct ev as [name decoded|format host| | |t|rb|index|index|sid|v|v|v|v|b]; cbn [handle].
  - apply (playback_kept_exclusive (stopAllPlayback s)).
    + unfold loadFile. set (s1 := stopAllPlayback s). clearbody s1.
      crush_state s1; destruct decoded; reflexivity.
    + apply stopAllPlayback_exclusive. apply Hx.
  - destruct (renderingFormat s); [exact Hx|].
    apply (playback_kept_exclusive s); [|exact Hx].
    apply (handleDownload_shape format host s).
  - apply toggleOriginalPlayback_exclusive, Hx.
  - apply toggleProcessedPlayback_exclusive, Hx.
  - apply togglePreviewPlayback_exclusive, Hx.
  - exact Hx.
  - destruct (nth_error (history s) index) as [item|]; [|exact Hx].
    apply (playback_kept_exclusive (stopAllPlayback s)); [reflexivity|].
    apply stopAllPlayback_exclusive. apply Hx.
  - destruct (nth_error (history s) index) as [item|]; [|exact Hx].
    apply handleHistoryPlay_exclusive, Hx.
  - apply dispatch_ended_exclusive; assumption.
  - apply (playback_kept_exclusive s); [crush_state s; reflexivity | exact Hx].
  - apply (playback_kept_exclusive s); [crush_state s; reflexivity | exact Hx].
  - apply (playback_kept_exclusive s); [crush_state s; reflexivity | exact Hx].
  - apply (playback_kept_exclusive s); [crush_state s; reflexivity | exact Hx].
  - apply (playback_kept_exclusive s); [|exact Hx].
    unfold setEnabled_noiseReduction.
    destruct (Bool.eqb b (isClarityOn (params s))); [reflexivity|].
    destruct s as [ab pv fn rf h [dt fb ico vb cl] [g|] pb al dl]; destruct b; reflexivity.
Qed.

Lemma run_exclusive {E} `{Lame E} (evs : list event) : forall s,
  ends_in_time evs s = true -> exclusive s -> exclusive (run evs s).
Proof.
  induction evs as [|ev evs IH]; intros s He Hx; [exact Hx|].
  cbn [ends_in_time] in He. apply andb_prop in He. destruct He as (He1 & He2).
  cbn [run fold_left]. apply IH; [exact He2|]. apply handle_exclusive; assumption.
Qed.

Lemma exclusive_initial : exclusive initial_state.
Proof. split; [intros src []|]. cbn. lia. Qed.

End ExclusiveFacts.

(** X14: In every session in which each ended event of a history or preview
    source is dispatched while the ref its handler clears still holds that
    source or nothing (ends_in_time), at most one source sounds in every
    reached state and stopAllPlayback silences every source. *)
Theorem X14_playback_exclusive_when_ends_arrive_in_time :
  forall (E : Type) (L : Lame E) (evs : list event),
    ends_in_time evs initial_state = true ->
    let s := run evs initial_state in
    (length (active_sources s) <= 1)%nat /\
    active_sources (stopAllPlayback s) = [].
Proof.
  intros E L evs He s.
  destruct (run_exclusive evs initial_state He exclusive_initial) as (Ht & Hu).
  split; [exact Hu|]. exact (stopAllPlayback_silences_tracked _ Ht).
Qed.

Lemma X14_playback_exclusive_when_ends_arrive_in_time_witness :
  ends_in_time (E := unit) in_time_events initial_state = true /\
  (length (active_sources (run (E := unit) in_time_events initial_state)) <= 1)%nat.
Proof.
  assert (He : ends_in_time (E := unit) in_time_events initial_state = true)
    by (vm_compute; reflexivity).
  split; [exact He|].
  exact (proj1 (X14_playback_exclusive_when_ends_arrive_in_time unit Echo in_time_events He)).
Defined.

(** ** Starting a source *)

Section StartFacts.

Lemma host_stop_length sid srcs : length (host_stop sid srcs) = length srcs.
Proof. unfold host_stop. apply length_map. Qed.

Lemma stop_refs_length refs : forall srcs, length (stop_refs refs srcs) = length srcs.
Proof.
  induction refs as [|[sid|] refs IH]; intros srcs; cbn [stop_refs fold_left];
    [reflexivity| |apply IH].
  change (length (stop_refs refs (host_stop sid srcs)) = length srcs).
  now rewrite IH, host_stop_length.
Qed.

Lemma stopAllPlayback_length s :
  length (sources (playback (stopAllPlayback s))) = length (sources (playback s)).
Proof. rewrite stopAllPlayback_sources. apply stop_refs_length. Qed.

Lemma stopAllPlayback_indicators s :
  indicators (playback (stopAllPlayback s)) = (false, false, false, None).
Proof. reflexivity. Qed.

Lemma stop_ref_length ref pb : length (sources (stop_ref ref pb)) = length (sources pb).
Proof. destruct ref as [sid|]; [apply host_stop_length | reflexivity]. Qed.

Lemma started_alone (pb pb' : Playback) (kind : PlaybackKind) :
  filter src_playing (sources pb) = [] ->
  sources pb' = sources pb ++ [new_source (length (sources pb)) kind] ->
  filter src_playing (sources pb') = [new_source (length (sources pb)) kind].
Proof. intros Hq ->. rewrite filter_app, Hq. reflexivity. Qed.

Lemma toggleOriginalPlayback_started s :
  tracked (playback s) -> started_or_not s (toggleOriginalPlayback s).
Proof.
  intros Ht. unfold toggleOriginalPlayback, started_or_not.
  destruct (audioContextRef s); [|left; reflexivity].
  destruct (audioBuffer s); [|left; reflexivity].
  destruct (isPlayingOriginal (playback s)).
  - left. apply stop_ref_length.
  - start_case stopAllPlayback_silences_tracked stopAllPlayback_length stopAllPlayback_indicators started_alone s Ht KOriginal.
Qed.

Lemma toggleProcessedPlayback_started s :
  tracked (playback s) -> started_or_not s (toggleProcessedPlayback s).
Proof.
  intros Ht. unfold toggleProcessedPlayback, started_or_not.
  destruct (audioContextRef s); [|left; reflexivity].
  destruct (audioBuffer s); [|left; reflexivity].
  destruct (isPlayingProcessed (playback s)).
  - left. apply stop_ref_length.
  - start_case stopAllPlayback_silences_tracked stopAllPlayback_length stopAllPlayback_indicators started_alone s Ht KProcessed.
Qed.

Lemma togglePreviewPlayback_started t s :
  tracked (playback s) -> started_or_not s (togglePreviewPlayback t s).
Proof.
  intros Ht. unfold togglePreviewPlayback, started_or_not.
  destruct (audioContextRef s); [|left; reflexivity].
  destruct (audioBuffer s); [|left; reflexivity].
  destruct t.
  - destruct (processedVisBuffer s);
      (destruct (match playingPreview (playback s) with
                 | Some t => PreviewType_eqb t before | None => false end);
       [left; apply stop_ref_length | start_case stopAllPlayback_silences_tracked stopAllPlayback_length stopAllPlayback_indicators started_alone s Ht (KPreview before)]).
  - destruct (processedVisBuffer s); [|left; reflexivity].
    destruct (match playingPreview (playback s) with
              | Some t => PreviewType_eqb t after | None => false end);
      [left; apply stop_ref_length | start_case stopAllPlayback_silences_tracked stopAllPlayback_length stopAllPlayback_indicators started_alone s Ht (KPreview after)].
Qed.

Lemma handleHistoryPlay_started item s :
  tracked (playback s) -> started_or_not s (handleHistoryPlay item s).
Proof.
  intros Ht. unfold handleHistoryPlay, started_or_not.
  destruct (match playingHistoryId (playback s) with
            | Some i => (i =? id item)%Z | None => false end).
  - left. cbn [setPlayback playback]. 
    change (length (sources (stop_ref (historySourceRef (playback s)) (playback s)))
            = length (sources (playback s))).
    apply stop_ref_length.
  - destruct (audioContextRef (stopAllPlayback s)) eqn:Hc;
      [|left; apply stopAllPlayback_length].
    clear Hc. start_case stopAllPlayback_silences_tracked stopAllPlayback_length stopAllPlayback_indicators started_alone s Ht KHistory.
Qed.

Lemma dispatch_ended_length sid s :
  length (sources (playback (dispatch_ended sid s))) = length (sources (playback s)).
Proof.
  unfold dispatch_ended.
  destruct (find _ _) as [src|]; [|reflexivity].
  destruct (src_playing src || src_ended_pending src); [|reflexivity].
  destruct (src_onended src) as [ | | |[|]]; cbn; apply length_map.
Qed.

Lemma handle_started {E} `{Lame E} (ev : event) (s : AppState) :
  tracked (playback s) -> started_or_not s (handle ev s).
Proof.
  intros Ht.
  destruct ev as [name decoded|format host| | |t|rb|index|index|sid|v|v|v|v|b]; cbn [handle].
  - left. rewrite <- (stopAllPlayback_length s).
    unfold loadFile. set (s1 := stopAllPlayback s). clearbody s1.
    crush_state s1; destruct decoded; reflexivity.
  - left. destruct (renderingFormat s); [reflexivity|].
    destruct (handleDownload_shape format host s) as (_ & _ & _ & _ & _ & _ & Hp & _).
    now rewrite Hp.
  - apply toggleOriginalPlayback_started, Ht.
  - apply toggleProcessedPlayback_started, Ht.
  - apply togglePreviewPlayback_started, Ht.
  - left. reflexivity.
  - left. destruct (nth_error (history s) index) as [item|]; [|reflexivity].
    apply (stopAllPlayback_length s).
  - destruct (nth_error (history s) index) as [item|]; [|left; reflexivity].
    apply handleHistoryPlay_started, Ht.
  - left. apply dispatch_ended_length.
  - left. crush_state s; reflexivity.
  - left. crush_state s; reflexivity.
  - left. crush_state s; reflexivity.
  - left. crush_state s; reflexivity.
  - left. unfold setEnabled_noiseReduction.
    destruct (Bool.eqb b (isClarityOn (params s))); [reflexivity|].
    destruct s as [ab pv fn rf h [dt fb ico vb cl] [g|] pb al dl]; destruct b; reflexivity.
Qed.

End StartFacts.

(** X15: In a state in which every sounding source is referenced, any
    handler that creates a source leaves that new source as the only one
    sounding, and the four play indicators show exactly its kind: its own
    indicator is on and the other three are off. *)
Theorem X15_started_source_sounds_alone :
  forall (E : Type) (L : Lame E) (ev : event) (s : AppState),
    tracked (playback s) ->
    let s' := handle ev s in
    length (sources (playback s')) <> length (sources (playback s)) ->
    exists kind : PlaybackKind,
      active_sources s' = [new_source (length (sources (playback s))) kind] /\
      indicators (playback s') = indicators_of kind.
Proof.
  intros E L ev s Ht s' Hn.
  destruct (handle_started ev s Ht) as [Hl|Hk]; [contradiction|exact Hk].
Qed.

Lemma X15_started_source_sounds_alone_witness :
  active_sources (handle (E := unit) (HistoryPlay 1) two_exports) = [new_source 0 KHistory].
Proof.
  destruct (X15_started_source_sounds_alone unit Echo (HistoryPlay 1) two_exports)
    as (kind & Ha & Hi).
  - intros src Hin. vm_compute in Hin. destruct Hin.
  - vm_compute. discriminate.
  - rewrite Ha. destruct kind as [ | | |t]; try (vm_compute in Hi; discriminate).
    reflexivity.
Defined.

(** ** The preview render *)

Section PreviewFacts.

Lemma processForVis_effect_cases host s :
  processForVis_effect host s =
  (Ok tt,
   match audioBuffer s with
   | None => setProcessedVisBuffer None s
   | Some b =>
       match vis_attempt host (params s) b with
       | Ok renderedBuffer => setProcessedVisBuffer (Some renderedBuffer) s
       | Throw _ => s
       end
   end).
Proof.
  unfold processForVis_effect, vis_attempt.
  destruct (audioBuffer s) as [b|]; [|reflexivity].
  unfold try_catch, act_bind, lift, modify, act_ret.
  destruct (vis_new_OfflineAudioContext host _ _ _) as [u|e]; [|reflexivity].
  destruct (vis_startRendering host _ b) as [r|e]; reflexivity.
Qed.

End PreviewFacts.

(** X16: The preview effect never throws and changes no state but the
    preview buffer: without a loaded buffer it clears the preview, after a
    successful render it stores the rendered buffer, and when the offline
    context or the render fails it leaves the previous preview in place. *)
Theorem X16_preview_effect_outcomes :
  forall (host : VisHost) (s : AppState),
    let s' := snd (processForVis_effect host s) in
    fst (processForVis_effect host s) = Ok tt /\
    setProcessedVisBuffer (processedVisBuffer s) s' = s /\
    match audioBuffer s with
    | None => processedVisBuffer s' = None
    | Some b =>
        match vis_attempt host (params s) b with
        | Ok renderedBuffer => processedVisBuffer s' = Some renderedBuffer
        | Throw _ => processedVisBuffer s' = processedVisBuffer s
        end
    end.
Proof.
  intros host s s'. subst s'. rewrite processForVis_effect_cases. cbn [fst snd].
  split; [reflexivity|].
  destruct (audioBuffer s) as [b|];
    [destruct (vis_attempt host (params s) b) as [r|e]|];
    (split; [destruct s; reflexivity | reflexivity]).
Qed.

(** X17: The preview render uses the same voice boost gain, clarity filter
    and noise filter settings as the export render for the same parameters;
    it does not depend on the delay time or the feedback and connects no
    dry, wet, master, delay or feedback node; it applies the noise filter
    after the clarity filter, while the export applies it before the boost
    and the clarity filter. *)
Theorem X17_preview_graph_settings :
  forall p : Params,
    v_boost (preview_graph p) = g_boost (offline_graph p) /\
    v_clarityFilter (preview_graph p) = g_clarityFilter (offline_graph p) /\
    v_noiseReduction (preview_graph p) = g_noiseReduction (offline_graph p) /\
    (forall value : JS.number,
       preview_graph (set_delayTime value p) = preview_graph p /\
       preview_graph (set_feedback value p) = preview_graph p) /\
    (forall a b : node,
       In (a, b) (v_connections (preview_graph p)) ->
       ~ In a [Dry; Wet; MasterGain; Delay; FeedbackGain] /\
       ~ In b [Dry; Wet; MasterGain; Delay; FeedbackGain]) /\
    In (ClarityFilter, NoiseReduction) (v_connections (preview_graph p)) /\
    In (NoiseReduction, MasterGain) (g_connections (offline_graph p)) /\
    In (MasterGain, Boost) (g_connections (offline_graph p)) /\
    In (Boost, ClarityFilter) (g_connections (offline_graph p)).
Proof.
  intros [dt fb ico vb cl].
  split; [reflexivity|]. split; [reflexivity|]. split; [destruct ico; reflexivity|].
  split; [intros value; split; reflexivity|].
  split.
  - intros a b Hin. cbn [preview_graph v_connections In] in Hin.
    destruct Hin as [Heq|[Heq|[Heq|[Heq|[]]]]]; injection Heq as <- <-;
      split; cbn [In]; intuition discriminate.
  - cbn [preview_graph v_connections offline_graph g_connections In].
    repeat split; tauto.
Qed.

Lemma X17_preview_graph_settings_witness :
  ~ In Source [Dry; Wet; MasterGain; Delay; FeedbackGain] /\
  ~ In Boost [Dry; Wet; MasterGain; Delay; FeedbackGain].
Proof.
  destruct (X17_preview_graph_settings initial_params) as (_ & _ & _ & _ & Hn & _).
  apply (Hn Source Boost). left. reflexivity.
Defined.

(** ** The recording clock *)

Section ClockFacts.

Lemma digits_no_colon (d : Decimal.uint) :
  ~ In ":"%char (list_ascii_of_string (DecimalString.NilEmpty.string_of_uint d)).
Proof.
  induction d; cbn [DecimalString.NilEmpty.string_of_uint list_ascii_of_string In];
    [tauto| | | | | | | | | | ]; intros [Hc|Hin]; try discriminate; now apply IHd.
Qed.

Lemma zeros_no_colon k s :
  ~ In ":"%char (list_ascii_of_string s) ->
  ~ In ":"%char (list_ascii_of_string (string_of_list_ascii (repeat "0"%char k) ++ s)).
Proof.
  intros Hs. induction k as [|k IH]; [exact Hs|].
  cbn [repeat string_of_list_ascii append list_ascii_of_string In].
  intros [Hc|Hin]; [discriminate | now apply IH].
Qed.

Lemma split_colon_app (a b : string) :
  ~ In ":"%char (list_ascii_of_string a) ->
  split_colon (a ++ ":" ++ b) = (a, b).
Proof.
  induction a as [|c a IH]; intros Hn; [reflexivity|].
  cbn [append split_colon]. cbn [list_ascii_of_string In] in Hn.
  destruct (Ascii.eqb c ":") eqn:Hc.
  - apply Ascii.eqb_eq in Hc. exfalso. apply Hn. left. exact Hc.
  - change (String ":" b) with (":" ++ b)%string. rewrite IH by tauto. reflexivity.
Qed.

Lemma parseInt_zeros k s :
  parseInt (string_of_list_ascii (repeat "0"%char k) ++ s) = parseInt s.
Proof.
  induction k as [|k IH]; [reflexivity|].
  cbn [repeat string_of_list_ascii append]. rewrite <- IH. unfold parseInt.
  cbn [DecimalString.NilEmpty.uint_of_string].
  destruct (DecimalString.NilEmpty.uint_of_string _) as [u|]; reflexivity.
Qed.

Lemma parseInt_padStart n : parseInt (padStart 2 "0" (toString n)) = Some n.
Proof.
  unfold padStart. rewrite parseInt_zeros. unfold parseInt, toString.
  rewrite DecimalString.NilEmpty.usu. cbn [option_map].
  now rewrite DecimalNat.Unsigned.of_to.
Qed.

Lemma parseTime_formatTime n : parseTime (formatTime n) = Some n.
Proof.
  unfold parseTime, formatTime.
  rewrite split_colon_app
    by (unfold padStart, toString; apply zeros_no_colon, digits_no_colon).
  rewrite !parseInt_padStart. f_equal.
  pose proof (Nat.div_mod_eq n 60). lia.
Qed.

Lemma clock_shape_below :
  forallb (fun n => clock_shape (formatTime n)) (seq 0 (100 * 60)) = true.
Proof. vm_compute. reflexivity. Qed.

End ClockFacts.

(** X18: formatTime is injective on whole seconds: different times give
    different strings. Below 100 minutes the string is two digits, a colon
    and two digits, with the seconds part below 60. *)
Theorem X18_formatTime_reads_back :
  forall a b : nat,
    (formatTime a = formatTime b -> a = b) /\
    (a < 100 * 60 -> clock_shape (formatTime a) = true).
Proof.
  intros a b. split.
  - intros Heq. pose proof (parseTime_formatTime a) as Ha.
    rewrite Heq, parseTime_formatTime in Ha. now injection Ha.
  - intros Hlt. pose proof clock_shape_below as Hall.
    rewrite forallb_forall in Hall. apply Hall. apply in_seq. lia.
Qed.

Lemma X18_formatTime_reads_back_witness :
  formatTime 75 = "01:15"%string /\ 75 = 75 /\ clock_shape (formatTime 75) = true.
Proof.
  split; [reflexivity|]. split.
  - apply (proj1 (X18_formatTime_reads_back 75 75)). reflexivity.
  - apply (proj2 (X18_formatTime_reads_back 75 0)). lia.
Defined.

(** ** The peak of a buffer *)

Section PeakFacts.

Lemma Math_abs_nonneg x : JS.is_nan x = false -> nonneg (Math_abs x).
Proof. destruct x as [s|s| |s m e]; intros Hx; try exact I. discriminate. Qed.

Lemma leb_refl_nonneg a : nonneg a -> JS.leb a a = true.
Proof.
  destruct a as [[|]|[|]| |[|] m e]; intros Ha; try destruct Ha; try reflexivity.
  unfold JS.leb, SFleb, SFcompare. rewrite Z.compare_refl.
  change (Pos.compare_cont Eq m m) with (Pos.compare m m). now rewrite Pos.compare_refl.
Qed.

Lemma not_ltb_leb a b : nonneg a -> nonneg b -> JS.ltb a b = false -> JS.leb b a = true.
Proof.
  destruct a as [[|]|[|]| |[|] m1 e1]; intros Ha; try destruct Ha;
    destruct b as [[|]|[|]| |[|] m2 e2]; intros Hb; try destruct Hb;
    try reflexivity; try discriminate.
  unfold JS.ltb, JS.leb, SFltb, SFleb, SFcompare.
  rewrite (Z.compare_antisym e1 e2).
  change (Pos.compare_cont Eq m2 m1) with (Pos.compare m2 m1).
  change (Pos.compare_cont Eq m1 m2) with (Pos.compare m1 m2).
  rewrite (Pos.compare_antisym m1 m2).
  destruct (e1 ?= e2)%Z; cbn [CompOpp]; try reflexivity; try discriminate.
  destruct (m1 ?= m2)%positive; cbn [CompOpp]; try reflexivity; discriminate.
Qed.

Lemma leb_ltb_trans a b c :
  nonneg a -> nonneg b -> nonneg c ->
  JS.leb a b = true -> JS.ltb b c = true -> JS.leb a c = true.
Proof.
  destruct a as [[|]|[|]| |[|] m1 e1]; intros Ha; try destruct Ha;
    destruct b as [[|]|[|]| |[|] m2 e2]; intros Hb; try destruct Hb;
    destruct c as [[|]|[|]| |[|] m3 e3]; intros Hc; try destruct Hc;
    try reflexivity; try discriminate.
  unfold JS.ltb, JS.leb, SFltb, SFleb, SFcompare.
  change (Pos.compare_cont Eq m1 m2) with (Pos.compare m1 m2).
  change (Pos.compare_cont Eq m2 m3) with (Pos.compare m2 m3).
  change (Pos.compare_cont Eq m1 m3) with (Pos.compare m1 m3).
  destruct (Z.compare_spec e1 e2); destruct (Z.compare_spec e2 e3);
    destruct (Z.compare_spec e1 e3); try lia; try reflexivity; try discriminate;
    destruct (Pos.compare_spec m1 m2); destruct (Pos.compare_spec m2 m3);
    destruct (Pos.compare_spec m1 m3); try lia; try reflexivity; try discriminate.
Qed.

Lemma ltb_abs_not_nan a y : JS.ltb a (Math_abs y) = true -> JS.is_nan y = false.
Proof. destruct y; try reflexivity. destruct a; discriminate. Qed.

(** What the loop keeps: the peak is not NaN and not below 0, it is the
    start value or the magnitude of a sample seen, and no sample seen that
    is a number has a greater magnitude. *)
Lemma peak_loop data : forall peak seen,
  nonneg peak ->
  (peak = Lit.n0 \/ exists x, In x seen /\ peak = Math_abs x) ->
  (forall x, In x seen -> JS.is_nan x = false -> JS.leb (Math_abs x) peak = true) ->
  let r := fold_left peak_step data peak in
  nonneg r /\
  (r = Lit.n0 \/ exists x, In x (seen ++ data) /\ r = Math_abs x) /\
  (forall x, In x (seen ++ data) -> JS.is_nan x = false -> JS.leb (Math_abs x) r = true).
Proof.
  induction data as [|y data IH]; intros peak seen Hn Ha Hb; cbn [fold_left].
  - rewrite app_nil_r. repeat split; assumption.
  - replace (seen ++ y :: data) with ((seen ++ [y]) ++ data)
      by (rewrite <- app_assoc; reflexivity).
    apply IH; unfold peak_step.
    + destruct (JS.ltb peak (Math_abs y)) eqn:Hlt; [|exact Hn].
      apply Math_abs_nonneg. exact (ltb_abs_not_nan _ _ Hlt).
    + destruct (JS.ltb peak (Math_abs y)) eqn:Hlt.
      * right. exists y. split; [apply in_or_app; right; now left | reflexivity].
      * destruct Ha as [Ha|(x & Hin & Hx)]; [left; exact Ha|].
        right. exists x. split; [apply in_or_app; now left | exact Hx].
    + intros x Hin Hx. apply in_app_or in Hin.
      destruct (JS.ltb peak (Math_abs y)) eqn:Hlt.
      * destruct Hin as [Hin|[<-|[]]].
        -- apply (leb_ltb_trans _ peak); try assumption;
             try (apply Math_abs_nonneg; assumption).
           ++ apply Math_abs_nonneg. exact (ltb_abs_not_nan _ _ Hlt).
           ++ now apply Hb.
        -- apply leb_refl_nonneg, Math_abs_nonneg, Hx.
      * destruct Hin as [Hin|[<-|[]]]; [now apply Hb|].
        apply not_ltb_leb; [exact Hn | apply Math_abs_nonneg, Hx | exact Hlt].
Qed.

End PeakFacts.

(** X19: For a buffer with at least one channel calculatePeak returns a
    number that is not NaN and not negative; it is 0 or the magnitude of a
    sample of the first channel, and no sample of the first channel that is
    a number has a greater magnitude (NaN samples are ignored). *)
Theorem X19_calculatePeak_bounds :
  forall (buffer : AudioBuffer) (data : list JS.number) (rest : list (list JS.number)),
    channelData buffer = data :: rest ->
    exists peak : JS.number,
      calculatePeak (Some buffer) = Ok peak /\
      nonneg peak /\
      (peak = Lit.n0 \/ exists x, In x data /\ peak = Math_abs x) /\
      (forall x, In x data -> JS.is_nan x = false -> JS.leb (Math_abs x) peak = true).
Proof.
  intros buffer data rest Hc.
  exists (fold_left peak_step data Lit.n0). split.
  - unfold calculatePeak, getChannelData. rewrite Hc. reflexivity.
  - apply (peak_loop data Lit.n0 []); [exact I | left; reflexivity | intros x []].
Qed.

Lemma X19_calculatePeak_bounds_witness :
  calculatePeak (Some clip) = Ok Lit.n1_5.
Proof.
  destruct (X19_calculatePeak_bounds clip [Lit.n0; Lit.n0_5; Lit.n1; Lit.n1_5] [] eq_refl)
    as (peak & Hp & _).
  rewrite Hp. f_equal. injection Hp as <-. vm_compute. reflexivity.
Defined.

(** ** The peak volume change *)

Section VolumeFacts.

Lemma silent_loop data :
  (forall x, In x data -> JS.ltb Lit.n0 (Math_abs x) = false) ->
  fold_left peak_step data Lit.n0 = Lit.n0.
Proof.
  induction data as [|y data IH]; intros Hs; [reflexivity|].
  cbn [fold_left]. unfold peak_step at 2. rewrite (Hs y) by now left.
  apply IH. intros x Hin. apply Hs. now right.
Qed.

Lemma no_preview_value peak :
  nonneg peak -> JS.ltb Lit.n0 peak = true ->
  JS.mul (sub (JS.div Lit.n0 peak) Lit.n1) n100 = n_minus100.
Proof.
  destruct peak as [[|]|[|]| |[|] m e]; intros Hn Hlt; try destruct Hn;
    try discriminate; vm_compute; reflexivity.
Qed.

End VolumeFacts.

Lemma ltb_leb_trans0 a peak :
  nonneg a -> nonneg peak ->
  JS.ltb Lit.n0 a = true -> JS.leb a peak = true -> JS.ltb Lit.n0 peak = true.
Proof.
  destruct a as [[|]|[|]| |[|] m1 e1]; intros Ha; try destruct Ha;
    destruct peak as [[|]|[|]| |[|] m2 e2]; intros Hb; try destruct Hb;
    intros H1 H2; try reflexivity; try discriminate.
Qed.

(** X20: The peak volume change of the enhancement panel is 0, without
    dividing, when the first channel of the original holds no sample other
    than zero or NaN, whatever the preview is; and while there is no preview
    buffer it is exactly -100 for every original that has a non-zero sample. *)
Theorem X20_volumeIncrease_edges :
  forall (original : AudioBuffer) (data : list JS.number) (rest : list (list JS.number)),
    channelData original = data :: rest ->
    ((forall x, In x data -> JS.ltb Lit.n0 (Math_abs x) = false) ->
     forall (processed : option AudioBuffer) (peak : JS.number),
       calculatePeak processed = Ok peak ->
       volumeIncrease (Some original) processed = Ok Lit.n0) /\
    (forall x, In x data -> JS.ltb Lit.n0 (Math_abs x) = true ->
               volumeIncrease (Some original) None = Ok n_minus100).
Proof.
  intros original data rest Hc.
  assert (Ho : calculatePeak (Some original) = Ok (fold_left peak_step data Lit.n0))
    by (unfold calculatePeak, getChannelData; rewrite Hc; reflexivity).
  split.
  - intros Hs processed peak Hp. unfold volumeIncrease. rewrite Ho, Hp.
    rewrite (silent_loop data Hs). reflexivity.
  - intros x Hin Hx. unfold volumeIncrease. rewrite Ho.
    change (calculatePeak None) with (Ok (A := JS.number) Lit.n0).
    destruct (peak_loop data Lit.n0 [] I (or_introl eq_refl) (fun x (H : In x []) => match H with end))
      as (Hn & _ & Hb).
    assert (Hnan : JS.is_nan x = false) by exact (ltb_abs_not_nan _ _ Hx).
    assert (Hlt : JS.ltb Lit.n0 (fold_left peak_step data Lit.n0) = true).
    { apply (ltb_leb_trans0 (Math_abs x)); [apply Math_abs_nonneg, Hnan | exact Hn
                                            | exact Hx | apply Hb; assumption]. }
    rewrite Hlt. f_equal. apply no_preview_value; assumption.
Qed.

Lemma X20_volumeIncrease_edges_witness :
  volumeIncrease (Some silence) (Some clip) = Ok Lit.n0 /\
  volumeIncrease (Some clip) None = Ok n_minus100.
Proof.
  split.
  - refine (proj1 (X20_volumeIncrease_edges silence [Lit.n0; S754_zero true] [] eq_refl)
              _ (Some clip) Lit.n1_5 _).
    + intros x [<-|[<-|[]]]; reflexivity.
    + vm_compute. reflexivity.
  - refine (proj2 (X20_volumeIncrease_edges clip [Lit.n0; Lit.n0_5; Lit.n1; Lit.n1_5] [] eq_refl)
              Lit.n1 _ _).
    + right. right. left. reflexivity.
    + vm_compute. reflexivity.
Defined.

(** ** Recording *)

Section RecordingFacts.

Lemma ticks_running interval n : forall s r,
  existsb (Nat.eqb interval) (intervals r) = true ->
  exists r',
    ticks interval n (s, r) = (s, r') /\
    recordingTime r' = recordingTime r + n /\
    isRecording r' = isRecording r /\ mediaRecorderRef r' = mediaRecorderRef r /\
    audioChunksRef r' = audioChunksRef r /\ timerIntervalRef r' = timerIntervalRef r /\
    intervals r' = intervals r /\ intervals_created r' = intervals_created r.
Proof.
  induction n as [|n IH]; intros s r Hi; cbn [ticks].
  - exists r. repeat split; try reflexivity. apply plus_n_O.
  - unfold interval_fires. rewrite Hi.
    match goal with
    | |- context [ticks interval n (s, ?R)] =>
        destruct (IH s R Hi) as (r' & Ht & H1 & H2 & H3 & H4 & H5 & H6 & H7)
    end.
    exists r'. split; [exact Ht|]. split; [rewrite H1; cbn [recordingTime]; clear; lia|].
    repeat split; assumption.
Qed.

End RecordingFacts.

Section RecordingSessions.

Lemma clearInterval_own interval : clearInterval interval [interval] = [].
Proof. unfold clearInterval. cbn [filter]. now rewrite Nat.eqb_refl. Qed.

Lemma single_request (requests : list Params) index closure :
  (length requests <= 1)%nat -> nth_error requests index = Some closure ->
  firstn index requests ++ skipn (S index) requests = [].
Proof.
  destruct requests as [|c [|c' l]]; intros Hl Hn.
  - destruct index; discriminate.
  - destruct index as [|index]; [reflexivity|]. destruct index; discriminate.
  - cbn in Hl. lia.
Qed.

Lemma rec_handle_inv (ev : rec_event) (st : Studio) :
  pressed_alone ev st = true -> rec_inv st -> rec_inv (rec_handle ev st).
Proof.
  intros Hp (I1 & I2 & I3 & I4).
  destruct st as [s r requests]. cbn [pending studio_rec studio_app] in *.
  destruct ev as [|index host|interval|data|iso decode]; unfold rec_handle;
    cbn [pending studio_rec studio_app].
  - (* the record button *)
    unfold pressed_alone in Hp. cbn [pending studio_rec] in Hp.
    destruct (isRecording r) eqn:Hi.
    + assert (Hreq : requests = []).
      { destruct requests as [|c l]; [reflexivity|].
        assert (Hc : c :: l <> []) by discriminate. specialize (I2 Hc). discriminate. }
      subst requests. unfold stopRecording. rewrite Hi.
      destruct (mediaRecorderRef r) as [recorder|];
        unfold rec_inv; cbn [pending studio_rec fst snd]; (split; [exact I1|]);
        (split; [intros Hc; exfalso; apply Hc; reflexivity|]).
      * split; [|reflexivity].
        cbn [intervals clearable timerIntervalRef].
        unfold clearable in I3. destruct (timerIntervalRef r) as [i|];
          rewrite I3; [apply clearInterval_own | reflexivity].
      * split; [exact I3 | intros Hf; rewrite Hi in Hf; discriminate].
    + cbn [orb] in Hp. destruct requests as [|c l]; [|discriminate].
      unfold startRecording_pressed. rewrite Hi.
      unfold rec_inv; cbn [pending studio_rec fst snd app length].
      split; [lia|]. split; [intros _; exact Hi|]. split; [exact I3 | intros _; exact (I4 eq_refl)].
  - (* a request settles *)
    destruct (nth_error requests index) as [closure|] eqn:Hn;
      [|unfold rec_inv; cbn [pending studio_rec]; repeat split; assumption].
    rewrite (single_request requests index closure I1 Hn).
    assert (Hne : requests <> []) by (intros ->; destruct index; discriminate).
    specialize (I2 Hne). specialize (I4 I2).
    unfold clearable in I3. rewrite I4 in I3.
    destruct r as [ir rt mr ch ti iv ic].
    cbn [isRecording timerIntervalRef intervals] in I2, I3, I4. subst ir ti iv.
    unfold startRecording_settled.
    destruct (getUserMedia host); [|unfold rec_inv, clearable; cbn; repeat split; try lia;
                                     intros Hc; exfalso; apply Hc; reflexivity].
    destruct (new_MediaRecorder host);
      [|unfold rec_inv, clearable; cbn; repeat split; try lia; try discriminate;
        intros Hc; exfalso; apply Hc; reflexivity].
    destruct (recorder_start host);
      unfold rec_inv, clearable; cbn; repeat split; try lia; try discriminate;
      intros Hc; exfalso; apply Hc; reflexivity.
  - unfold interval_fires.
    destruct (existsb (Nat.eqb interval) (intervals r));
      unfold rec_inv; cbn [pending studio_rec fst snd]; repeat split; assumption.
  - unfold rec_inv; cbn [pending studio_rec fst snd ondataavailable]; repeat split; assumption.
  - unfold onstop. destruct (mediaRecorderRef r);
      unfold rec_inv; cbn [pending studio_rec fst snd]; repeat split; assumption.
Qed.

Lemma rec_run_inv (evs : list rec_event) : forall st,
  one_request_at_a_time evs st = true -> rec_inv st -> rec_inv (rec_run evs st).
Proof.
  induction evs as [|ev evs IH]; intros st Ho Hi; [exact Hi|].
  cbn [one_request_at_a_time] in Ho. apply andb_prop in Ho. destruct Ho as (H1 & H2).
  cbn [rec_run fold_left]. apply IH; [exact H2|]. apply rec_handle_inv; assumption.
Qed.

Lemma rec_inv_initial : rec_inv initial_studio.
Proof.
  unfold rec_inv. cbn. repeat split; try lia; try reflexivity.
Qed.


Lemma rec_run_app (evs evs' : list rec_event) (st : Studio) :
  rec_run (evs ++ evs') st = rec_run evs' (rec_run evs st).
Proof. unfold rec_run. apply fold_left_app. Qed.

Lemma rec_run_fires interval k : forall st,
  rec_run (repeat (IntervalFires interval) k) st
  = {| studio_app := fst (ticks interval k (studio_app st, studio_rec st));
       studio_rec := snd (ticks interval k (studio_app st, studio_rec st));
       pending := pending st |}.
Proof.
  induction k as [|k IH]; intros st; [destruct st; reflexivity|].
  cbn [repeat rec_run fold_left ticks]. fold (rec_run (repeat (IntervalFires interval) k)).
  rewrite IH. unfold rec_handle. cbn [studio_app studio_rec pending].
  destruct (interval_fires interval (studio_app st, studio_rec st)); reflexivity.
Qed.

End RecordingSessions.

(** X21: startRecording awaits the microphone, so its guard and its
    continuation are separate steps. In every recording session in which
    the record button is never pressed to start while a microphone request
    is pending, the only interval running is the one in timerIntervalRef,
    and none runs while the component is not recording. When a request
    settles successfully with no interval running, playback is stopped and
    the clock is 0; after k firings of the new interval it is k;
    stopRecording leaves the clock at k with no interval running, and no
    firing changes the state afterwards. When the button is pressed twice
    before the first request settles and both requests are granted, two
    intervals run, stopRecording clears only the second, and the first
    keeps counting after the recording was stopped. *)
Theorem X21_recording_clock_one_request_at_a_time :
  (forall evs : list rec_event,
     one_request_at_a_time evs initial_studio = true ->
     let r := studio_rec (rec_run evs initial_studio) in
     intervals r = clearable r /\
     (isRecording r = false -> intervals r = [])) /\
  (forall (host : MicHost) (closure : Params) (s : AppState) (r : Recording) (k : nat),
     getUserMedia host = Ok tt -> new_MediaRecorder host = Ok tt ->
     recorder_start host = Ok tt ->
     intervals r = [] ->
     let interval := S (intervals_created r) in
     let started := startRecording_settled host closure (s, r) in
     let running := ticks interval k started in
     let stopped := stopRecording running in
     fst started = stopAllPlayback s /\
     isRecording (snd started) = true /\ recordingTime (snd started) = 0 /\
     isRecording (snd running) = true /\ recordingTime (snd running) = k /\
     isRecording (snd stopped) = false /\ recordingTime (snd stopped) = k /\
     intervals (snd stopped) = [] /\
     forall i : nat, interval_fires i stopped = stopped) /\
  (forall (host : MicHost) (st : Studio) (k : nat),
     getUserMedia host = Ok tt -> new_MediaRecorder host = Ok tt ->
     recorder_start host = Ok tt ->
     isRecording (studio_rec st) = false -> pending st = [] ->
     intervals (studio_rec st) = [] ->
     let first := S (intervals_created (studio_rec st)) in
     let stopped := rec_run (double_press host) st in
     one_request_at_a_time (double_press host) st = false /\
     isRecording (studio_rec stopped) = false /\
     timerIntervalRef (studio_rec stopped) = None /\
     intervals (studio_rec stopped) = [first] /\
     recordingTime (studio_rec (rec_run (repeat (IntervalFires first) k) stopped)) = k).
Proof.
  split; [|split].
  - intros evs Ho r.
    destruct (rec_run_inv evs initial_studio Ho rec_inv_initial) as (_ & _ & I3 & I4).
    fold r in I3, I4. split; [exact I3|].
    intros Hf. rewrite I3. unfold clearable. now rewrite (I4 Hf).
  - intros host closure s r k Hg Hn Hs Hiv interval started running stopped.
    assert (Hst : started =
                  (stopAllPlayback s,
                   {| isRecording := true; recordingTime := 0;
                      mediaRecorderRef := Some {| rec_recording := true;
                                                  rec_closure := closure |};
                      audioChunksRef := []; timerIntervalRef := Some interval;
                      intervals := [interval];
                      intervals_created := interval |})).
    { subst started. unfold startRecording_settled. rewrite Hg, Hn, Hs.
      cbn [intervals]. rewrite Hiv. reflexivity. }
    destruct (ticks_running interval k (stopAllPlayback s) (snd started)) as
      (r' & Ht & H1 & H2 & H3 & H4 & H5 & H6 & H7).
    { rewrite Hst. cbn [snd intervals existsb]. now rewrite Nat.eqb_refl. }
    assert (Hrun : running = (stopAllPlayback s, r')).
    { subst running. rewrite <- Ht. rewrite Hst. reflexivity. }
    rewrite Hst in H1, H2, H3, H4, H5, H6, H7. cbn in H1, H2, H3, H4, H5, H6, H7.
    assert (Hstop : stopped =
                    (stopAllPlayback s,
                     {| isRecording := false; recordingTime := k;
                        mediaRecorderRef := Some {| rec_recording := false;
                                                    rec_closure := closure |};
                        audioChunksRef := []; timerIntervalRef := None;
                        intervals := [];
                        intervals_created := interval |})).
    { subst stopped. rewrite Hrun. unfold stopRecording.
      rewrite H2, H3, H4, H5, H6, H7, H1. rewrite clearInterval_own. reflexivity. }
    rewrite Hstop, Hrun, Hst.
    cbn [fst snd isRecording recordingTime timerIntervalRef intervals].
    rewrite H1, H2. repeat split.
  - intros host st k Hg Hn Hs Hi Hp Hiv first stopped.
    destruct st as [s [ir rt mr ch ti iv ic] requests].
    cbn [studio_rec pending isRecording intervals intervals_created] in *.
    subst ir requests iv. subst stopped first.
    split; [reflexivity|].
    set (closure := params s).
    set (r0 := {| isRecording := false; recordingTime := rt; mediaRecorderRef := mr;
                  audioChunksRef := ch; timerIntervalRef := ti; intervals := [];
                  intervals_created := ic |}).
    assert (H2 : rec_run [PressRecord; PressRecord]
                   {| studio_app := s; studio_rec := r0; pending := [] |}
                 = {| studio_app := s; studio_rec := r0; pending := [closure; closure] |})
      by reflexivity.
    assert (H3 : forall (t : AppState) (r : Recording) (rest : list Params),
               rec_handle (MicSettles 0 host)
                 {| studio_app := t; studio_rec := r; pending := closure :: rest |}
               = {| studio_app := stopAllPlayback t;
                    studio_rec :=
                      {| isRecording := true; recordingTime := 0;
                         mediaRecorderRef := Some {| rec_recording := true;
                                                     rec_closure := closure |};
                         audioChunksRef := [];
                         timerIntervalRef := Some (S (intervals_created r));
                         intervals := S (intervals_created r) :: intervals r;
                         intervals_created := S (intervals_created r) |};
                    pending := rest |}).
    { intros t r rest. unfold rec_handle. cbn [pending nth_error studio_app studio_rec].
      unfold startRecording_settled. rewrite Hg, Hn, Hs. reflexivity. }
    set (s2 := stopAllPlayback (stopAllPlayback s)).
    assert (Hne : forall n, Nat.eqb n (S n) = false)
      by (intros n; induction n as [|n IHn]; [reflexivity | exact IHn]).
    assert (H5 : forall t,
               rec_handle PressRecord
                 {| studio_app := t;
                    studio_rec :=
                      {| isRecording := true; recordingTime := 0;
                         mediaRecorderRef := Some {| rec_recording := true;
                                                     rec_closure := closure |};
                         audioChunksRef := [];
                         timerIntervalRef := Some (S (S ic));
                         intervals := [S (S ic); S ic];
                         intervals_created := S (S ic) |};
                    pending := [] |}
               = {| studio_app := t;
                    studio_rec :=
                      {| isRecording := false; recordingTime := 0;
                         mediaRecorderRef := Some {| rec_recording := false;
                                                     rec_closure := closure |};
                         audioChunksRef := [];
                         timerIntervalRef := None;
                         intervals := [S ic];
                         intervals_created := S (S ic) |};
                    pending := [] |}).
    { intros t. unfold rec_handle, stopRecording, clearInterval.
      cbn [studio_rec studio_app pending isRecording mediaRecorderRef timerIntervalRef
           intervals filter fst snd rec_closure recordingTime audioChunksRef
           intervals_created].
      rewrite Nat.eqb_refl. cbn [negb].
      change (Nat.eqb (S ic) (S (S ic))) with (Nat.eqb ic (S ic)). rewrite Hne.
      reflexivity. }
    assert (Hrun : rec_run (double_press host)
                     {| studio_app := s; studio_rec := r0; pending := [] |}
                   = {| studio_app := s2;
                        studio_rec :=
                          {| isRecording := false; recordingTime := 0;
                             mediaRecorderRef := Some {| rec_recording := false;
                                                         rec_closure := closure |};
                             audioChunksRef := [];
                             timerIntervalRef := None;
                             intervals := [S ic];
                             intervals_created := S (S ic) |};
                        pending := [] |}).
    { change (double_press host)
        with ([PressRecord; PressRecord] ++
              [MicSettles 0 host; MicSettles 0 host; PressRecord]).
      rewrite rec_run_app, H2. unfold rec_run.
      cbn [fold_left]. rewrite !H3. cbn [intervals_created intervals r0].
      apply H5. }
    rewrite Hrun. cbn [studio_rec isRecording timerIntervalRef intervals intervals_created r0].
    repeat (split; [reflexivity|]).
    rewrite rec_run_fires. cbn [studio_rec studio_app].
    match goal with
    | |- recordingTime (snd (ticks ?i k (?t, ?r))) = k =>
        destruct (ticks_running i k t r) as (r' & Ht & H1 & _)
    end.
    { cbn [intervals existsb]. now rewrite Nat.eqb_refl. }
    rewrite Ht. cbn [snd]. rewrite H1. reflexivity.
Qed.

Lemma X21_recording_clock_one_request_at_a_time_witness :
  one_request_at_a_time one_recording initial_studio = true /\
  intervals (studio_rec (rec_run one_recording initial_studio)) = [] /\
  recordingTime (snd (stopRecording
                        (ticks 1 75 (startRecording_settled mic_ok initial_params
                                       (two_exports, initial_recording))))) = 75 /\
  intervals (studio_rec (rec_run (double_press mic_ok) initial_studio)) = [1].
Proof.
  assert (Ho : one_request_at_a_time one_recording initial_studio = true)
    by (vm_compute; reflexivity).
  destruct X21_recording_clock_one_request_at_a_time as (Hs & Hc & Hd).
  split; [exact Ho|]. split; [|split].
  - apply (Hs one_recording Ho). vm_compute. reflexivity.
  - exact (proj1 (proj2 (proj2 (proj2 (proj2 (proj2 (proj2
             (Hc mic_ok initial_params two_exports initial_recording 75
                 eq_refl eq_refl eq_refl eq_refl)))))))).
  - exact (proj1 (proj2 (proj2 (proj2
             (Hd mic_ok initial_studio 0 eq_refl eq_refl eq_refl eq_refl eq_refl eq_refl))))).
Defined.

(** X22: If the microphone is granted and the MediaRecorder constructor
    throws the first time a recording is tried, startRecording stops
    playback, shows the alert and leaves isRecording set with no recorder
    and no new interval; after that the record button changes nothing,
    however often it is pressed and whatever the host would do. *)
Theorem X22_recording_stuck_without_recorder :
  forall (host : MicHost) (s : AppState) (r : Recording) (e : exn),
    isRecording r = false -> mediaRecorderRef r = None ->
    getUserMedia host = Ok tt -> new_MediaRecorder host = Throw e ->
    let stuck := startRecording host (s, r) in
    fst stuck = alert could_not_start (stopAllPlayback s) /\
    isRecording (snd stuck) = true /\
    intervals (snd stuck) = intervals r /\
    forall hosts : list MicHost,
      fold_left (fun sr host' => record_button host' sr) hosts stuck = stuck.
Proof.
  intros host s r e Hr Hm Hg Hn stuck. subst stuck.
  unfold startRecording, startRecording_pressed, startRecording_settled.
  rewrite Hr, Hg, Hn. cbn [fst snd isRecording intervals].
  repeat split. intros hosts. induction hosts as [|host' hosts IH]; [reflexivity|].
  cbn [fold_left]. rewrite <- IH at 2. f_equal.
  unfold record_button. cbn [snd isRecording].
  unfold stopRecording. cbn [isRecording mediaRecorderRef]. now rewrite Hm.
Qed.

Lemma X22_recording_stuck_without_recorder_witness :
  isRecording (snd (record_button mic_ok
                      (startRecording mic_no_recorder (two_exports, initial_recording))))
  = true.
Proof.
  destruct (X22_recording_stuck_without_recorder mic_no_recorder two_exports initial_recording
              HostError eq_refl eq_refl eq_refl eq_refl) as (_ & Hi & _ & Hb).
  rewrite (Hb [mic_ok] : record_button mic_ok _ = _). exact Hi.
Defined.

(** ** Loading a recording *)

Section StaleFacts.

Lemma before_dot_app_dotless (a b : string) :
  ~ In "."%char (list_ascii_of_string a) -> before_dot (a ++ b) = (a ++ before_dot b)%string.
Proof.
  induction a as [|c a IH]; intros Hn; [reflexivity|].
  cbn [append before_dot]. cbn [list_ascii_of_string In] in Hn.
  destruct (Ascii.eqb c ".") eqn:Hc.
  - apply Ascii.eqb_eq in Hc. exfalso. apply Hn. left. exact Hc.
  - rewrite IH by tauto. reflexivity.
Qed.

Lemma before_dot_app_dot (a b : string) : before_dot (a ++ "." ++ b) = before_dot a.
Proof.
  induction a as [|c a IH]; [reflexivity|].
  cbn [append before_dot]. destruct (Ascii.eqb c "."); [reflexivity|].
  change (String "." b) with ("." ++ b)%string. now rewrite IH.
Qed.

Lemma in_render_same name decoded s :
  in_render (params s) (loadFile name decoded) s = loadFile name decoded s.
Proof.
  unfold in_render.
  replace (setParams (fun _ => params s) s) with s by (destruct s; reflexivity).
  destruct (loadFile_kept name decoded s) as (_ & Hp & _).
  rewrite <- Hp. destruct (loadFile name decoded s); reflexivity.
Qed.

End StaleFacts.

(** X23: A Render Result made from a recording (file name recording-<ISO
    time>.wav) is named recording- followed by the ISO time up to its first
    dot, never the fallback name recording. *)
Theorem X23_recording_export_name :
  forall (host : Host) (iso : string) (r : AudioBuffer) (w m : Blob),
    item_fileName (render_result host (recording_name iso) r w m)
    = ("recording-" ++ before_dot iso)%string.
Proof.
  intros host iso r w m. unfold render_result, recording_name. cbn [item_fileName].
  rewrite before_dot_app_dotless.
  - change (iso ++ ".wav")%string with (iso ++ "." ++ "wav")%string.
    rewrite before_dot_app_dot. reflexivity.
  - cbn. intuition discriminate.
Qed.

(** X24: When a recording is started while no audio context exists and the
    delay slider is moved during the recording, the recorder's onstop
    handler, a closure of the render in which startRecording ran, builds the
    live graph with the delay time of that render: the live delay node holds
    the old value while an export made afterwards uses the new one. With no
    change during the recording the recording is loaded exactly as loadFile
    loads a file. *)
Theorem X24_recording_builds_graph_from_old_parameters :
  forall (host : MicHost) (s0 : AppState) (r0 : Recording) (value : JS.number)
         (iso : string) (decode : Blob -> result AudioBuffer),
    audioContextRef s0 = None -> isRecording r0 = false ->
    getUserMedia host = Ok tt -> new_MediaRecorder host = Ok tt ->
    recorder_start host = Ok tt ->
    let started := startRecording host (s0, r0) in
    let changed := (onChange_delayTime value (fst started), snd started) in
    let loaded := onstop iso decode (stopRecording changed) in
    (exists g : LiveGraph,
       audioContextRef (fst loaded) = Some g /\
       delayNode g = delayTime (params s0) /\
       g_delay (offline_graph (params (fst loaded))) = value) /\
    fst (onstop iso decode (stopRecording started))
    = loadFile (recording_name iso) (decode (new_Blob [] "audio/wav")) (fst started).
Proof.
  intros host s0 r0 value iso decode Hc Hr Hg Hn Hs started changed loaded.
  assert (Hst : started =
                (stopAllPlayback s0,
                 {| isRecording := true; recordingTime := 0;
                    mediaRecorderRef := Some {| rec_recording := true;
                                                rec_closure := params s0 |};
                    audioChunksRef := []; timerIntervalRef := Some (S (intervals_created r0));
                    intervals := S (intervals_created r0) :: intervals r0;
                    intervals_created := S (intervals_created r0) |})).
  { subst started. unfold startRecording, startRecording_pressed, startRecording_settled.
    rewrite Hr, Hg, Hn, Hs. reflexivity. }
  split.
  - subst loaded changed. rewrite Hst. cbn [fst snd].
    unfold stopRecording, onstop. cbn [isRecording mediaRecorderRef rec_closure audioChunksRef].
    cbn [fst].
    set (s1 := stopAllPlayback s0).
    assert (Hc1 : audioContextRef s1 = None) by exact Hc. clearbody s1.
    destruct (in_render_loadFile (params s0) (recording_name iso)
                (decode (new_Blob [] "audio/wav")) (onChange_delayTime value s1))
      as (g & Ha & Hd & _ & _ & _ & Hp).
    + destruct s1 as [ab pv fn rf h p g pb al dl]. cbn [audioContextRef] in Hc1. subst g.
      reflexivity.
    + exists g. split; [exact Ha|]. split; [exact Hd|]. rewrite Hp.
      destruct s1 as [ab pv fn rf h p g1 pb al dl]. cbn [audioContextRef] in Hc1. subst g1.
      reflexivity.
  - rewrite Hst. cbn [fst snd].
    unfold stopRecording, onstop. cbn [isRecording mediaRecorderRef rec_closure audioChunksRef].
    cbn [fst].
    change (params s0) with (params (stopAllPlayback s0)).
    apply in_render_same.
Qed.

Lemma X24_recording_builds_graph_from_old_parameters_witness :
  exists g : LiveGraph,
    audioContextRef
      (fst (onstop "2026-01-01T00:00:00.000Z" (fun _ => Ok clip)
              (stopRecording
                 (onChange_delayTime Lit.n0_1
                    (fst (startRecording mic_ok (initial_state, initial_recording))),
                  snd (startRecording mic_ok (initial_state, initial_recording))))))
    = Some g /\
    delayNode g = Lit.n0_5.
Proof.
  destruct (X24_recording_builds_graph_from_old_parameters mic_ok initial_state
              initial_recording Lit.n0_1 "2026-01-01T00:00:00.000Z" (fun _ => Ok clip)
              eq_refl eq_refl eq_refl eq_refl eq_refl) as ((g & Ha & Hd & _) & _).
  exists g. split; [exact Ha | exact Hd].
Defined.
